(** * mcp-client: session registry and tool-call orchestration

    A shallow embedding of the HTTP bridge between a model provider
    (Anthropic, OpenAI, Ollama) and an MCP tool server: the [MCPClient]
    class, the session helpers [createSession], [getSession],
    [removeSession], and the express handlers built on them.

    The program talks to three outside parties (model API, MCP server,
    clock).  Every such interaction is answered by an oracle of the
    environment [Env], which sees the whole log so far and the request, and
    is recorded with its answer as an [Event] of that log.  The program
    itself is written in a state-and-exception monad whose state survives a
    throw, as a JavaScript heap does: the methods of [MCPClient] run on the
    object and the log, the session helpers and the handlers on the whole
    server state, in which [mcpClient] references are addresses. *)

From Stdlib Require Import ZArith.
From stdpp Require Import base option list gmap strings.

(** ** Data model *)

Inductive ModelProvider := anthropic | openai | ollama.

#[global] Instance ModelProvider_eq_dec : EqDecision ModelProvider.
Proof. solve_decision. Defined.

(** JSON values the program only forwards are kept opaque. *)
Definition Json := string.
Definition ToolContent := string.

(** An entry of [toolsResult.tools] as the MCP server lists it. *)
Record McpTool := {
  mt_name : string;
  mt_description : string;
  mt_inputSchema : Json;
}.

(** [this.tools]: the Anthropic wrapper or the function wrapper shared by
    OpenAI and Ollama. *)
Inductive Tool :=
| AnthropicTool (name description : string) (input_schema : Json)
| FunctionTool (name description : string) (parameters : Json).

(** A block of [response.content] of the Anthropic API. *)
Inductive ContentBlock :=
| TextBlock (text : string)
| ToolUseBlock (id name : string) (input : Json)
| OtherBlock (type : string).

Record OpenAIToolCall := {
  oa_id : string;
  oa_name : string;
  oa_arguments : string;
}.

Inductive OllamaArguments :=
| ArgString (s : string)
| ArgObject (j : Json).

Record OllamaToolCall := {
  ol_id : option string;
  ol_name : string;
  ol_arguments : OllamaArguments;
}.

Record OpenAIMessage := {
  oam_content : option string;
  oam_tool_calls : option (list OpenAIToolCall);
}.

Record OllamaMessage := {
  olm_content : string;
  olm_tool_calls : option (list OllamaToolCall);
}.

(** The entries of [conversationHistory : any[]], one constructor per
    object shape the three [processQueryWith...] methods push. *)
Inductive Message :=
| UserMessage (content : string)
| AnthropicAssistant (content : list ContentBlock)
| AnthropicToolResult (tool_use_id : string) (content : ToolContent)
| OpenAIAssistant (content : option string)
                  (tool_calls : option (list OpenAIToolCall))
| OllamaAssistant (content : string)
                  (tool_calls : option (list OllamaToolCall))
| ToolMessage (content : ToolContent) (tool_call_id : string).

(** A thrown JavaScript value, with the two fields [chatHandler] looks at. *)
Record JsError := {
  err_status : option Z;
  err_code : option Z;
  err_message : string;
}.

Inductive Outcome (A : Type) :=
| Ok (a : A)
| Throw (e : JsError).
Arguments Ok {A} a.
Arguments Throw {A} e.

Inductive LogLevel := LLog | LWarn | LError.

(** What the program does to the outside world, in order, each call with
    the answer it got.  [EvMcpConnect] is answered with the transport's
    [sessionId] after the handshake, [EvFetchDelete] with the status of the
    response, [EvOpenAICreate] with the messages of [response.choices]. *)
Inductive Event :=
| EvMcpConnect (client : nat) (apiToken : string)
               (answer : Outcome (option string))
| EvListTools (client : nat) (answer : Outcome (list McpTool))
| EvCallTool (client : nat) (name : string) (arguments : Json)
             (answer : Outcome ToolContent)
| EvMcpClose (client : nat) (answer : Outcome unit)
| EvFetchDelete (sessionId apiToken : string) (answer : Outcome Z)
| EvAnthropicCreate (messages : list Message) (tools : list Tool)
                    (answer : Outcome (list ContentBlock))
| EvOpenAICreate (messages : list Message) (tools : option (list Tool))
                 (answer : Outcome (list OpenAIMessage))
| EvOllamaChat (messages : list Message) (tools : option (list Tool))
               (answer : Outcome OllamaMessage)
| EvDate (answer : Z)
| EvConsole (level : LogLevel) (text : string).

(** The environment: each oracle is given the log so far and the request.
    [JSON_parse] is the library function, [None] its SyntaxError. *)
Record Env := {
  mcp_connect : list Event → nat → string → Outcome (option string);
  mcp_listTools : list Event → nat → Outcome (list McpTool);
  mcp_callTool : list Event → nat → string → Json → Outcome ToolContent;
  mcp_close : list Event → nat → Outcome unit;
  fetch_delete : list Event → string → string → Outcome Z;
  anthropic_messages_create :
    list Event → list Message → list Tool → Outcome (list ContentBlock);
  openai_chat_completions_create :
    list Event → list Message → option (list Tool)
    → Outcome (list OpenAIMessage);
  ollama_chat :
    list Event → list Message → option (list Tool) → Outcome OllamaMessage;
  date_now : list Event → Z;
  JSON_parse : string → option Json;
}.

Record MCPClient := {
  c_anthropic : bool;
  c_openai : bool;
  c_ollama : bool;
  c_transport : bool;
  c_tools : list Tool;
  c_apiToken : string;
  c_conversationHistory : list Message;
  c_sessionId : option string;
  c_provider : ModelProvider;
}.

(** [mcpClient] is a reference: the address of the object in [heap]. *)
Record SessionData := {
  sd_sessionId : string;
  sd_mcpClient : nat;
  sd_createdAt : Z;
  sd_lastActivity : Z;
  sd_provider : ModelProvider;
}.

Record State := {
  sessions : gmap string SessionData;
  heap : list MCPClient;
  trace : list Event;
}.

#[global] Instance MCPClient_inhabited : Inhabited MCPClient :=
  populate {| c_anthropic := false; c_openai := false; c_ollama := false;
              c_transport := false; c_tools := []; c_apiToken := "";
              c_conversationHistory := []; c_sessionId := None;
              c_provider := anthropic |}.

Definition initial_state : State :=
  {| sessions := ∅; heap := []; trace := [] |}.

(** What a method of [MCPClient] sees: its object and the log. *)
Record Self := {
  self : MCPClient;
  events : list Event;
}.

(** ** The monad: state that survives exceptions *)

Definition M (S A : Type) : Type := S → Outcome A * S.

Definition ret {S A} (a : A) : M S A := fun st => (Ok a, st).

Definition bind {S A B} (c : M S A) (k : A → M S B) : M S B :=
  fun st =>
    match c st with
    | (Ok a, st') => k a st'
    | (Throw e, st') => (Throw e, st')
    end.

Definition throw {S A} (e : JsError) : M S A := fun st => (Throw e, st).

Definition try_catch {S A} (c : M S A) (h : JsError → M S A) : M S A :=
  fun st =>
    match c st with
    | (Ok a, st') => (Ok a, st')
    | (Throw e, st') => h e st'
    end.

Declare Scope js_scope.
Delimit Scope js_scope with js.
Notation "'let!' x ':=' c 'in' k" := (bind c (fun x => k))
  (at level 10, x name, c at level 100, k at level 200) : js_scope.
Notation "'do!' c 'in' k" := (bind c (fun _ => k))
  (at level 10, c at level 100, k at level 200) : js_scope.
Local Open Scope js_scope.

(** *** Inside a method *)

(** An awaited outside call: the oracle answers from the log so far, and
    the call is logged with its answer. *)
Definition external {A} (oracle : list Event → Outcome A)
    (ev : Outcome A → Event) : M Self A :=
  fun s =>
    let answer := oracle (events s) in
    (answer, {| self := self s; events := events s ++ [ev answer] |}).

Definition console (level : LogLevel) (text : string) : M Self unit :=
  fun s => (Ok tt, {| self := self s;
                      events := events s ++ [EvConsole level text] |}).

Definition getThis : M Self MCPClient := fun s => (Ok (self s), s).

Definition modifyThis (f : MCPClient → MCPClient) : M Self unit :=
  fun s => (Ok tt, {| self := f (self s); events := events s |}).

(** *** In the server *)

(** A method call on the object at address [this]. *)
Definition call {A} (this : nat) (method : M Self A) : M State A :=
  fun st =>
    let out := method {| self := heap st !!! this; events := trace st |} in
    (out.1, {| sessions := sessions st;
               heap := <[this := self out.2]> (heap st);
               trace := events out.2 |}).

Definition log_console (level : LogLevel) (text : string) : M State unit :=
  fun st => (Ok tt, {| sessions := sessions st; heap := heap st;
                       trace := trace st ++ [EvConsole level text] |}).

Definition getSessions : M State (gmap string SessionData) :=
  fun st => (Ok (sessions st), st).

Definition modifySessions
    (f : gmap string SessionData → gmap string SessionData) : M State unit :=
  fun st => (Ok tt, {| sessions := f (sessions st); heap := heap st;
                       trace := trace st |}).

(** A generic TypeError or Error raised by the program itself. *)
Definition js_error (msg : string) : JsError :=
  {| err_status := None; err_code := None; err_message := msg |}.

(** [s || fallback] and [!s] on a possibly missing string: the empty
    string is falsy. *)
Definition truthy (o : option string) : option string :=
  match o with
  | Some s => if decide (s = "") then None else Some s
  | None => None
  end.

(** ** class MCPClient *)

Section Program.

Variable env : Env.

Definition set_transport (b : bool) (c : MCPClient) : MCPClient :=
  {| c_anthropic := c_anthropic c; c_openai := c_openai c;
     c_ollama := c_ollama c; c_transport := b; c_tools := c_tools c;
     c_apiToken := c_apiToken c;
     c_conversationHistory := c_conversationHistory c;
     c_sessionId := c_sessionId c; c_provider := c_provider c |}.

Definition set_sessionId (o : option string) (c : MCPClient) : MCPClient :=
  {| c_anthropic := c_anthropic c; c_openai := c_openai c;
     c_ollama := c_ollama c; c_transport := c_transport c;
     c_tools := c_tools c; c_apiToken := c_apiToken c;
     c_conversationHistory := c_conversationHistory c;
     c_sessionId := o; c_provider := c_provider c |}.

Definition set_tools (ts : list Tool) (c : MCPClient) : MCPClient :=
  {| c_anthropic := c_anthropic c; c_openai := c_openai c;
     c_ollama := c_ollama c; c_transport := c_transport c;
     c_tools := ts; c_apiToken := c_apiToken c;
     c_conversationHistory := c_conversationHistory c;
     c_sessionId := c_sessionId c; c_provider := c_provider c |}.

(** [this.conversationHistory.push(m)] *)
Definition push_message (m : Message) (c : MCPClient) : MCPClient :=
  {| c_anthropic := c_anthropic c; c_openai := c_openai c;
     c_ollama := c_ollama c; c_transport := c_transport c;
     c_tools := c_tools c; c_apiToken := c_apiToken c;
     c_conversationHistory := c_conversationHistory c ++ [m];
     c_sessionId := c_sessionId c; c_provider := c_provider c |}.

(** The fields as the constructor leaves them. *)
Definition constructed (apiToken : string) (provider : ModelProvider)
  : MCPClient :=
  {| c_anthropic := bool_decide (provider = anthropic);
     c_openai := bool_decide (provider = openai);
     c_ollama := bool_decide (provider = ollama);
     c_transport := false; c_tools := []; c_apiToken := apiToken;
     c_conversationHistory := []; c_sessionId := None;
     c_provider := provider |}.

(** [new MCPClient(apiToken, provider)]: allocates the object and returns
    its address. *)
Definition new_MCPClient (apiToken : string) (provider : ModelProvider)
  : M State nat :=
  fun st =>
    (Ok (length (heap st)),
     {| sessions := sessions st;
        heap := heap st ++ [constructed apiToken provider];
        trace := trace st |}).

Definition convert_tools (provider : ModelProvider) (ts : list McpTool)
  : list Tool :=
  match provider with
  | anthropic =>
      map (fun t => AnthropicTool (mt_name t) (mt_description t)
                                  (mt_inputSchema t)) ts
  | openai | ollama =>
      map (fun t => FunctionTool (mt_name t) (mt_description t)
                                 (mt_inputSchema t)) ts
  end.

Definition connectToServer (this : nat) : M Self string :=
  try_catch
    (let! c := getThis in
     do! modifyThis (set_transport true) in
     let! sid :=
       external (fun t => mcp_connect env t this (c_apiToken c))
                (EvMcpConnect this (c_apiToken c)) in
     do! modifyThis (set_sessionId (truthy sid)) in
     do! (match truthy sid with
          | Some _ => ret tt
          | None =>
              do! console LWarn
                "MCP server did not provide Mcp-Session-Id header during initialization" in
              modifyThis (set_sessionId None)
          end) in
     let! toolsResult :=
       external (fun t => mcp_listTools env t this) (EvListTools this) in
     do! modifyThis (set_tools (convert_tools (c_provider c) toolsResult)) in
     do! console LLog "Connected to MCP server with session ID" in
     let! c' := getThis in
     ret (default "no-session" (truthy (c_sessionId c'))))
    (fun e =>
       do! console LLog "Failed to connect to MCP server: " in
       throw e).

(** [this.mcp.callTool({name, arguments})] followed by [result.content]. *)
Definition callTool (this : nat) (name : string) (arguments : Json)
  : M Self ToolContent :=
  external (fun t => mcp_callTool env t this name arguments)
           (EvCallTool this name arguments).

(** [for (...) if (type === "text") assistantResponse += text] *)
Definition append_text (assistantResponse : string)
    (bs : list ContentBlock) : string :=
  fold_left (fun acc b => match b with
                          | TextBlock t => acc +:+ t
                          | _ => acc
                          end) bs assistantResponse.

(** The [for (const content of response.content)] loop of
    [processQueryWithAnthropic], carrying [assistantResponse]. *)
Fixpoint anthropic_loop (this : nat) (blocks : list ContentBlock)
    (assistantResponse : string) : M Self string :=
  match blocks with
  | [] => ret assistantResponse
  | TextBlock text :: rest =>
      anthropic_loop this rest (assistantResponse +:+ text)
  | ToolUseBlock id name input :: rest =>
      let! result := callTool this name input in
      do! modifyThis (push_message (AnthropicToolResult id result)) in
      let! c := getThis in
      let! followupResponse :=
        external (fun t => anthropic_messages_create env t
                             (c_conversationHistory c) (c_tools c))
                 (EvAnthropicCreate (c_conversationHistory c) (c_tools c)) in
      let assistantResponse' :=
        append_text assistantResponse followupResponse in
      do! modifyThis
            (push_message (AnthropicAssistant followupResponse)) in
      anthropic_loop this rest assistantResponse'
  | OtherBlock _ :: rest =>
      anthropic_loop this rest assistantResponse
  end.

Definition processQueryWithAnthropic (this : nat) (query : string)
  : M Self string :=
  let! c0 := getThis in
  if negb (c_anthropic c0) then
    throw (js_error "Anthropic client not initialized")
  else
    do! modifyThis (push_message (UserMessage query)) in
    let! c := getThis in
    let! response :=
      external (fun t => anthropic_messages_create env t
                           (c_conversationHistory c) (c_tools c))
               (EvAnthropicCreate (c_conversationHistory c) (c_tools c)) in
    do! modifyThis (push_message (AnthropicAssistant response)) in
    anthropic_loop this response "".

(** [this.tools.length > 0 ? this.tools : undefined] *)
Definition tools_or_undefined (c : MCPClient) : option (list Tool) :=
  match c_tools c with
  | [] => None
  | ts => Some ts
  end.

(** [response.choices[0].message]: a TypeError when there is no choice. *)
Definition first_choice (choices : list OpenAIMessage)
  : M Self OpenAIMessage :=
  match choices with
  | m :: _ => ret m
  | [] => throw (js_error "Cannot read properties of undefined")
  end.

Definition parse_json (s : string) : M Self Json :=
  match JSON_parse env s with
  | Some j => ret j
  | None => throw (js_error "SyntaxError")
  end.

Fixpoint openai_tool_loop (this : nat) (tool_calls : list OpenAIToolCall)
  : M Self unit :=
  match tool_calls with
  | [] => ret tt
  | toolCall :: rest =>
      let! toolArgs := parse_json (oa_arguments toolCall) in
      let! result := callTool this (oa_name toolCall) toolArgs in
      do! modifyThis
            (push_message (ToolMessage result (oa_id toolCall))) in
      openai_tool_loop this rest
  end.

Definition processQueryWithOpenAI (this : nat) (query : string)
  : M Self string :=
  let! c0 := getThis in
  if negb (c_openai c0) then
    throw (js_error "OpenAI client not initialized")
  else
    do! modifyThis (push_message (UserMessage query)) in
    let! c := getThis in
    let! response :=
      external (fun t => openai_chat_completions_create env t
                           (c_conversationHistory c) (tools_or_undefined c))
               (EvOpenAICreate (c_conversationHistory c)
                               (tools_or_undefined c)) in
    let! message := first_choice response in
    let assistantResponse := default "" (truthy (oam_content message)) in
    do! modifyThis
          (push_message (OpenAIAssistant (oam_content message)
                                         (oam_tool_calls message))) in
    match oam_tool_calls message with
    | Some tool_calls =>
        if bool_decide (0 < length tool_calls) then
          do! openai_tool_loop this tool_calls in
          let! c' := getThis in
          let! followupResponse :=
            external (fun t => openai_chat_completions_create env t
                                 (c_conversationHistory c')
                                 (tools_or_undefined c'))
                     (EvOpenAICreate (c_conversationHistory c')
                                     (tools_or_undefined c')) in
          let! followupMessage := first_choice followupResponse in
          do! modifyThis
                (push_message (OpenAIAssistant
                                 (oam_content followupMessage)
                                 (oam_tool_calls followupMessage))) in
          ret (default "" (truthy (oam_content followupMessage)))
        else ret assistantResponse
    | None => ret assistantResponse
    end.

(** [(toolCall as any).id || toolCall.function.name] *)
Definition ollama_call_id (toolCall : OllamaToolCall) : string :=
  default (ol_name toolCall) (truthy (ol_id toolCall)).

Fixpoint ollama_tool_loop (this : nat) (tool_calls : list OllamaToolCall)
  : M Self unit :=
  match tool_calls with
  | [] => ret tt
  | toolCall :: rest =>
      let! toolArgs :=
        match ol_arguments toolCall with
        | ArgString s => parse_json s
        | ArgObject j => ret j
        end in
      let! result := callTool this (ol_name toolCall) toolArgs in
      do! modifyThis
            (push_message (ToolMessage result (ollama_call_id toolCall))) in
      ollama_tool_loop this rest
  end.

Definition processQueryWithOllama (this : nat) (query : string)
  : M Self string :=
  let! c0 := getThis in
  if negb (c_ollama c0) then
    throw (js_error "Ollama client not initialized")
  else
    do! modifyThis (push_message (UserMessage query)) in
    let! c := getThis in
    let! message :=
      external (fun t => ollama_chat env t (c_conversationHistory c)
                                     (tools_or_undefined c))
               (EvOllamaChat (c_conversationHistory c)
                             (tools_or_undefined c)) in
    let assistantResponse :=
      default "" (truthy (Some (olm_content message))) in
    do! modifyThis
          (push_message (OllamaAssistant (olm_content message)
                                         (olm_tool_calls message))) in
    match olm_tool_calls message with
    | Some tool_calls =>
        if bool_decide (0 < length tool_calls) then
          do! ollama_tool_loop this tool_calls in
          let! c' := getThis in
          let! followupMessage :=
            external (fun t => ollama_chat env t (c_conversationHistory c')
                                           (tools_or_undefined c'))
                     (EvOllamaChat (c_conversationHistory c')
                                   (tools_or_undefined c')) in
          do! modifyThis
                (push_message (OllamaAssistant
                                 (olm_content followupMessage)
                                 (olm_tool_calls followupMessage))) in
          ret (default "" (truthy (Some (olm_content followupMessage))))
        else ret assistantResponse
    | None => ret assistantResponse
    end.

Definition processQuery (this : nat) (query : string) : M Self string :=
  let! c := getThis in
  match c_provider c with
  | anthropic => processQueryWithAnthropic this query
  | openai => processQueryWithOpenAI this query
  | ollama => processQueryWithOllama this query
  end.

Definition cleanup (this : nat) : M Self unit :=
  external (fun t => mcp_close env t this) (EvMcpClose this).

(** [response.ok] *)
Definition response_ok (status : Z) : bool :=
  ((200 <=? status) && (status <=? 299))%Z.

Definition terminateSession (this : nat) : M Self unit :=
  let! c := getThis in
  do! (match truthy (c_sessionId c), c_transport c with
       | Some sid, true =>
           try_catch
             (let! status :=
                external (fun t => fetch_delete env t sid (c_apiToken c))
                         (EvFetchDelete sid (c_apiToken c)) in
              if (status =? 405)%Z then
                console LLog
                  "MCP server does not allow client-initiated session termination (405 Method Not Allowed)"
              else if response_ok status then
                console LLog "Session terminated successfully"
              else
                console LWarn "Failed to terminate session")
             (fun _ => console LError "Error terminating session")
       | _, _ => ret tt
       end) in
  cleanup this.

Definition getConversationHistory : M Self (list Message) :=
  let! c := getThis in
  ret (c_conversationHistory c).

(** ** Session management helpers *)

(** [new Date()] *)
Definition new_Date : M State Z :=
  fun st =>
    let now := date_now env (trace st) in
    (Ok now, {| sessions := sessions st; heap := heap st;
                trace := trace st ++ [EvDate now] |}).

Definition createSession (apiToken : string) (provider : ModelProvider)
  : M State string :=
  let! mcpClient := new_MCPClient apiToken provider in
  let! sessionId := call mcpClient (connectToServer mcpClient) in
  let! createdAt := new_Date in
  let! lastActivity := new_Date in
  let sessionData :=
    {| sd_sessionId := sessionId; sd_mcpClient := mcpClient;
       sd_createdAt := createdAt; sd_lastActivity := lastActivity;
       sd_provider := provider |} in
  do! modifySessions (insert sessionId sessionData) in
  ret sessionId.

Definition set_lastActivity (t : Z) (s : SessionData) : SessionData :=
  {| sd_sessionId := sd_sessionId s; sd_mcpClient := sd_mcpClient s;
     sd_createdAt := sd_createdAt s; sd_lastActivity := t;
     sd_provider := sd_provider s |}.

Definition getSession (sessionId : string)
  : M State (option SessionData) :=
  let! ss := getSessions in
  match ss !! sessionId with
  | Some session =>
      let! t := new_Date in
      do! modifySessions (insert sessionId (set_lastActivity t session)) in
      ret (Some (set_lastActivity t session))
  | None => ret None
  end.

Definition removeSession (sessionId : string) : M State unit :=
  let! ss := getSessions in
  match ss !! sessionId with
  | Some session =>
      do! try_catch (call (sd_mcpClient session)
                          (terminateSession (sd_mcpClient session)))
                    (fun e => log_console LError (err_message e)) in
      modifySessions (delete sessionId)
  | None => ret tt
  end.

(** ** The express handlers *)

(** The JSON bodies the handlers answer with; the constant fields of the
    health body (status, message, endpoints, providers) are left out, and
    a missing [requiresReconnect] is [None]. *)
Inductive Body :=
| ErrorBody (error : string) (requiresReconnect : option bool)
| HealthBody (activeSessions : nat)
| ConnectBody (sessionId message : string) (provider : ModelProvider)
              (tools : list string)
| ChatBody (response sessionId : string) (conversationLength : nat)
| DisconnectBody (message sessionId : string)
| SessionsBody (activeSessions : nat)
               (sessionList : list (string * Z * Z * ModelProvider * nat
                                    * list string)).

(** [res.status(n).json(body)]; a bare [res.json] answers 200. *)
Record Response := {
  status : Z;
  body : Body;
}.

(** A request as the handlers read it: the Authorization header and the
    fields of the parsed JSON body, [None] for a field that is missing.  A
    POST that carries no body at all is not a [Request]. *)
Inductive Request :=
| GetHealth
| PostConnect (authorization : option string) (provider : option string)
| PostChat (query : option string) (sessionId : option string)
| PostDisconnect (sessionId : option string)
| GetSessions.

Definition provider_name (p : ModelProvider) : string :=
  match p with
  | anthropic => "anthropic"
  | openai => "openai"
  | ollama => "ollama"
  end.

(** [provider === 'anthropic' ? t.name : t.function.name]; the tools of a
    client always have the shape of its provider ([convert_tools]). *)
Definition tool_name (t : Tool) : string :=
  match t with
  | AnthropicTool name _ _ => name
  | FunctionTool name _ _ => name
  end.

Definition healthCheck : M State Response :=
  let! ss := getSessions in
  ret {| status := 200; body := HealthBody (size ss) |}.

Definition connectHandler (authorization provider : option string)
  : M State Response :=
  try_catch
    (match authorization with
     | Some authHeader =>
         if String.prefix "Bearer " authHeader then
           let apiToken :=
             String.substring 7 (String.length authHeader - 7) authHeader in
           let modelProvider :=
             match provider with
             | Some "openai" => openai
             | Some "ollama" => ollama
             | _ => anthropic
             end in
           try_catch
             (let! sessionId := createSession apiToken modelProvider in
              let! sessionData := getSession sessionId in
              match sessionData with
              | None =>
                  ret {| status := 500;
                         body := ErrorBody "Failed to create session" None |}
              | Some sd =>
                  let! c := call (sd_mcpClient sd) getThis in
                  ret {| status := 200;
                         body := ConnectBody sessionId
                           ("Session created and connected to MCP server using "
                              +:+ provider_name modelProvider)
                           modelProvider (map tool_name (c_tools c)) |}
              end)
             (fun _ =>
                do! log_console LError "Failed to connect to MCP server:" in
                ret {| status := 500;
                       body := ErrorBody "Failed to connect to MCP server"
                                         None |})
         else
           ret {| status := 401;
                  body := ErrorBody
                    "Authorization header with Bearer token is required"
                    None |}
     | None =>
         ret {| status := 401;
                body := ErrorBody
                  "Authorization header with Bearer token is required"
                  None |}
     end)
    (fun _ =>
       do! log_console LError "Error creating session:" in
       ret {| status := 500;
              body := ErrorBody "Failed to create session" None |}).

(** [error?.status === 404 || error?.code === 404] *)
Definition is_404 (error : JsError) : bool :=
  bool_decide (err_status error = Some 404%Z)
  || bool_decide (err_code error = Some 404%Z).

Definition chatHandler (query sessionId : option string)
  : M State Response :=
  try_catch
    (match truthy query with
     | None =>
         ret {| status := 400; body := ErrorBody "Query is required" None |}
     | Some query =>
         match truthy sessionId with
         | None =>
             ret {| status := 400;
                    body := ErrorBody
                      "SessionId is required. Please connect first using /connect endpoint"
                      None |}
         | Some sessionId =>
             let! sessionData := getSession sessionId in
             match sessionData with
             | None =>
                 ret {| status := 404;
                        body := ErrorBody
                          "Session not found or expired. Please connect again using /connect endpoint"
                          None |}
             | Some sd =>
                 try_catch
                   (let! response :=
                      call (sd_mcpClient sd)
                           (processQuery (sd_mcpClient sd) query) in
                    let! h :=
                      call (sd_mcpClient sd) getConversationHistory in
                    ret {| status := 200;
                           body := ChatBody response sessionId (length h) |})
                   (fun error =>
                      if is_404 error then
                        do! log_console LLog
                              "Session terminated by MCP server (404)" in
                        do! removeSession sessionId in
                        ret {| status := 404;
                               body := ErrorBody
                                 "Session terminated by server. Please connect again."
                                 (Some true) |}
                      else
                        do! log_console LError "Error processing query" in
                        ret {| status := 500;
                               body := ErrorBody "Failed to process query"
                                                 None |})
             end
         end
     end)
    (fun _ =>
       do! log_console LError "Error in chat handler:" in
       ret {| status := 500;
              body := ErrorBody "Failed to process chat request" None |}).

Definition disconnectHandler (sessionId : option string)
  : M State Response :=
  try_catch
    (match truthy sessionId with
     | None =>
         ret {| status := 400;
                body := ErrorBody "SessionId is required" None |}
     | Some sessionId =>
         let! session := getSession sessionId in
         match session with
         | None =>
             ret {| status := 404;
                    body := ErrorBody "Session not found" None |}
         | Some _ =>
             do! removeSession sessionId in
             ret {| status := 200;
                    body := DisconnectBody
                      "Session disconnected successfully" sessionId |}
         end
     end)
    (fun _ =>
       do! log_console LError "Error disconnecting session:" in
       ret {| status := 500;
              body := ErrorBody "Failed to disconnect session" None |}).

(** [Array.from(sessions.values()).map(...)]; the order of the listing
    (insertion order in JavaScript) is not modelled. *)
Definition sessionsHandler : M State Response :=
  fun st =>
    let sessionList :=
      map (fun kv : string * SessionData =>
             let session := kv.2 in
             let c := heap st !!! sd_mcpClient session in
             (sd_sessionId session, sd_createdAt session,
              sd_lastActivity session, sd_provider session,
              length (c_conversationHistory c),
              map tool_name (c_tools c)))
          (map_to_list (sessions st)) in
    (Ok {| status := 200;
           body := SessionsBody (size (sessions st)) sessionList |}, st).

Definition handle (r : Request) : M State Response :=
  match r with
  | GetHealth => healthCheck
  | PostConnect authorization provider => connectHandler authorization provider
  | PostChat query sessionId => chatHandler query sessionId
  | PostDisconnect sessionId => disconnectHandler sessionId
  | GetSessions => sessionsHandler
  end.

(** The server handling requests one after the other, each to its end
    before the next.  Requests whose handlers overlap at an [await] are
    not runs of [serve]. *)
Fixpoint serve (rs : list Request) (st : State) : State :=
  match rs with
  | [] => st
  | r :: rest => serve rest (handle r st).2
  end.

End Program.

(** ** Reasoning about programs in [M] *)

(** A Hoare triple: from a state in [P], the outcome and final state of
    [c] satisfy [Q]. *)
Definition hoare {S A} (P : S → Prop) (c : M S A)
    (Q : Outcome A → S → Prop) : Prop :=
  ∀ st, P st → Q (c st).1 (c st).2.

(** [c] keeps the state inside [I], whatever its outcome. *)
Definition pres {S A} (I : S → Prop) (c : M S A) : Prop :=
  ∀ st, I st → I (c st).2.

Definition history_of (st : State) (this : nat) : list Message :=
  c_conversationHistory (heap st !!! this).

(** [hs] pushed at the end of the history, nothing else touched. *)
Definition append_history (hs : list Message) (c : MCPClient) : MCPClient :=
  {| c_anthropic := c_anthropic c; c_openai := c_openai c;
     c_ollama := c_ollama c; c_transport := c_transport c;
     c_tools := c_tools c; c_apiToken := c_apiToken c;
     c_conversationHistory := c_conversationHistory c ++ hs;
     c_sessionId := c_sessionId c; c_provider := c_provider c |}.

(** The events a chat round on client [this] may log. *)
Definition is_chat_event (this : nat) (ev : Event) : bool :=
  match ev with
  | EvCallTool a _ _ _ => bool_decide (a = this)
  | EvAnthropicCreate _ _ _ | EvOpenAICreate _ _ _ | EvOllamaChat _ _ _ => true
  | _ => false
  end.

(** What a chat round may do to the object and log [s0] it starts from:
    push messages on the history and log chat events. *)
Definition chat_frame (this : nat) (s0 s : Self) : Prop :=
  (∃ hs, self s = append_history hs (self s0))
  ∧ (∃ log, events s = events s0 ++ log
            ∧ Forall (λ ev, is_chat_event this ev = true) log).

(** The part of the log written between two states. *)
Definition new_events (st st' : State) : list Event :=
  drop (length (trace st)) (trace st').

Definition is_connect (ev : Event) : bool :=
  match ev with EvMcpConnect _ _ _ => true | _ => false end.

Definition is_tool_call (ev : Event) : bool :=
  match ev with EvCallTool _ _ _ _ => true | _ => false end.

Definition is_model_call (ev : Event) : bool :=
  match ev with
  | EvAnthropicCreate _ _ _ | EvOpenAICreate _ _ _ | EvOllamaChat _ _ _ => true
  | _ => false
  end.

Definition is_close (client : nat) (ev : Event) : bool :=
  match ev with
  | EvMcpClose a _ => bool_decide (a = client)
  | _ => false
  end.

Definition count_log (p : Event → bool) (log : list Event) : nat :=
  length (filter (λ ev, p ev = true) log).

(** ** Concrete environments

    Executable outside worlds for running the program on examples: the
    n-th handshake, tool call and model call are answered from a script. *)

Definition scripted_env
    (handshake : nat → Outcome (option string))
    (tools : Outcome (list McpTool))
    (tool : nat → Outcome ToolContent)
    (anth : nat → Outcome (list ContentBlock))
    (oai : nat → Outcome (list OpenAIMessage))
    (oll : nat → Outcome OllamaMessage)
    (del : Outcome Z) (close : Outcome unit) : Env :=
  {| mcp_connect := λ t _ _, handshake (count_log is_connect t);
     mcp_listTools := λ _ _, tools;
     mcp_callTool := λ t _ _ _, tool (count_log is_tool_call t);
     mcp_close := λ _ _, close;
     fetch_delete := λ _ _ _, del;
     anthropic_messages_create := λ t _ _, anth (count_log is_model_call t);
     openai_chat_completions_create :=
       λ t _ _, oai (count_log is_model_call t);
     ollama_chat := λ t _ _, oll (count_log is_model_call t);
     date_now := λ t, Z.of_nat (length t);
     JSON_parse := λ s, if decide (s = "") then None else Some s |}.

Definition search_tool : McpTool :=
  {| mt_name := "search"; mt_description := "Search the catalogue";
     mt_inputSchema := "{type:object}" |}.

(** A server that issues session ids and a model that asks for one search
    and then answers in text. *)
Definition env_one_tool : Env :=
  scripted_env
    (λ n, Ok (Some (if decide (n = 0) then "session-a" else "session-b")))
    (Ok [search_tool])
    (λ _, Ok "3 results")
    (λ n, if decide (n = 0)
          then Ok [ToolUseBlock "toolu_1" "search" "{q:cats}"]
          else Ok [TextBlock "Found 3 results."])
    (λ n, if decide (n = 0)
          then Ok [ {| oam_content := None;
                       oam_tool_calls :=
                         Some [ {| oa_id := "call_1"; oa_name := "search";
                                   oa_arguments := "{q:cats}" |} ] |} ]
          else Ok [ {| oam_content := Some "Found 3 results.";
                       oam_tool_calls := None |} ])
    (λ n, if decide (n = 0)
          then Ok {| olm_content := "";
                     olm_tool_calls :=
                       Some [ {| ol_id := None; ol_name := "search";
                                 ol_arguments := ArgObject "{q:cats}" |} ] |}
          else Ok {| olm_content := "Found 3 results.";
                     olm_tool_calls := None |})
    (Ok 200%Z) (Ok tt).

(** The warning logged when the handshake yields no session id. *)
Definition handshake_warning (sid : option string) : list Event :=
  match truthy sid with
  | Some _ => []
  | None =>
      [EvConsole LWarn
         "MCP server did not provide Mcp-Session-Id header during initialization"]
  end.

(** A handshake that fails, a model that fails with a 404, and a tool that
    fails with a 404. *)
Definition env_connect_fails : Env :=
  scripted_env
    (λ _, Throw {| err_status := None; err_code := None;
                   err_message := "ECONNREFUSED" |})
    (Ok [search_tool]) (λ _, Ok "3 results")
    (λ _, Ok [TextBlock "Hi!"])
    (λ _, Ok [ {| oam_content := Some "Hi!"; oam_tool_calls := None |} ])
    (λ _, Ok {| olm_content := "Hi!"; olm_tool_calls := None |})
    (Ok 200%Z) (Ok tt).

(** The console line [terminateSession] writes for each way the DELETE
    request can end. *)
Definition termination_report (answer : Outcome Z) : Event :=
  match answer with
  | Ok status =>
      if (status =? 405)%Z then
        EvConsole LLog
          "MCP server does not allow client-initiated session termination (405 Method Not Allowed)"
      else if response_ok status then
        EvConsole LLog "Session terminated successfully"
      else EvConsole LWarn "Failed to terminate session"
  | Throw _ => EvConsole LError "Error terminating session"
  end.

(** The events of the DELETE request of [terminateSession], none when the
    request is skipped. *)
Definition termination_request (env : Env) (c : MCPClient)
    (log : list Event) : list Event :=
  match truthy (c_sessionId c), c_transport c with
  | Some sid, true =>
      let answer := fetch_delete env log sid (c_apiToken c) in
      [EvFetchDelete sid (c_apiToken c) answer; termination_report answer]
  | _, _ => []
  end.

(** A server that refuses client-initiated termination. *)
Definition env_delete_405 : Env :=
  scripted_env
    (λ _, Ok (Some "session-a")) (Ok [search_tool]) (λ _, Ok "3 results")
    (λ _, Ok [TextBlock "Hi!"])
    (λ _, Ok [ {| oam_content := Some "Hi!"; oam_tool_calls := None |} ])
    (λ _, Ok {| olm_content := "Hi!"; olm_tool_calls := None |})
    (Ok 405%Z) (Ok tt).

(** The state after one successful connect in that world. *)
Definition state_connected_405 : State :=
  (connectHandler env_delete_405 (Some "Bearer tok") None initial_state).2.

(** ** Failed outside calls *)

(** The error an outside call was answered with, if it failed. *)
Definition event_error (ev : Event) : option JsError :=
  match ev with
  | EvMcpConnect _ _ (Throw e) | EvListTools _ (Throw e)
  | EvCallTool _ _ _ (Throw e) | EvMcpClose _ (Throw e)
  | EvFetchDelete _ _ (Throw e) | EvAnthropicCreate _ _ (Throw e)
  | EvOpenAICreate _ _ (Throw e) | EvOllamaChat _ _ (Throw e) => Some e
  | _ => None
  end.

Definition no_failure (log : list Event) : Prop :=
  Forall (λ ev, event_error ev = None) log.

(** Since the log was [t0], no outside call has failed. *)
Definition clean_since (t0 : list Event) (s : Self) : Prop :=
  ∃ log, events s = t0 ++ log ∧ no_failure log.

(** Since the log was [t0], an outside call has failed only if the method
    threw, and then it threw that call's error. *)
Definition failure_thrown {A} (t0 : list Event) (r : Outcome A) (s : Self)
  : Prop :=
  ∃ log, events s = t0 ++ log
         ∧ match r with
           | Ok _ => no_failure log
           | Throw e =>
               ∀ ev e', ev ∈ log → event_error ev = Some e' → e' = e
           end.

(** A method without handlers: the first failed call is what it throws. *)
Definition propagates {A} (t0 : list Event) (c : M Self A) : Prop :=
  hoare (clean_since t0) c (failure_thrown t0).

(** ** Well-formed states *)

(** The constructor sets exactly the model client of the provider. *)
Definition client_ok (c : MCPClient) : Prop :=
  c_anthropic c = bool_decide (c_provider c = anthropic)
  ∧ c_openai c = bool_decide (c_provider c = openai)
  ∧ c_ollama c = bool_decide (c_provider c = ollama).

Definition close_below (n : nat) (ev : Event) : Prop :=
  match ev with
  | EvMcpClose a _ => a < n
  | _ => True
  end.

(** Every registered session references an allocated, well-constructed
    client, and only allocated clients have been closed. *)
Definition state_ok (st : State) : Prop :=
  map_Forall (λ _ session,
                sd_mcpClient session < length (heap st)
                ∧ client_ok (heap st !!! sd_mcpClient session))
             (sessions st)
  ∧ Forall (close_below (length (heap st))) (trace st).

#[global] Instance client_ok_dec c : Decision (client_ok c).
Proof. unfold client_ok. apply _. Defined.

#[global] Instance close_below_dec n ev : Decision (close_below n ev).
Proof. destruct ev; simpl; apply _. Defined.

#[global] Instance state_ok_dec st : Decision (state_ok st).
Proof. unfold state_ok. apply _. Defined.

(** The model call client [c] issues on history [h] when the log is [log],
    with the answer of the environment. *)
Definition model_call_event (env : Env) (c : MCPClient) (log : list Event)
    (h : list Message) : Event :=
  match c_provider c with
  | anthropic =>
      EvAnthropicCreate h (c_tools c)
        (anthropic_messages_create env log h (c_tools c))
  | openai =>
      EvOpenAICreate h (tools_or_undefined c)
        (openai_chat_completions_create env log h (tools_or_undefined c))
  | ollama =>
      EvOllamaChat h (tools_or_undefined c)
        (ollama_chat env log h (tools_or_undefined c))
  end.

Definition error_404 : JsError :=
  {| err_status := Some 404%Z; err_code := None;
     err_message := "Not Found" |}.

Definition error_500 : JsError :=
  {| err_status := Some 500%Z; err_code := None;
     err_message := "Internal Server Error" |}.

(** A model API that answers every call with the error [e]. *)
Definition env_model_fails (e : JsError) : Env :=
  scripted_env
    (λ _, Ok (Some "session-a")) (Ok [search_tool]) (λ _, Ok "3 results")
    (λ _, Throw e) (λ _, Throw e) (λ _, Throw e)
    (Ok 200%Z) (Ok tt).

(** The state after one successful connect in that world. *)
Definition state_model_fails (e : JsError) : State :=
  (connectHandler (env_model_fails e) (Some "Bearer tok") None
                  initial_state).2.

Definition is_connect_request (r : Request) : bool :=
  match r with PostConnect _ _ => true | _ => false end.

(** A tool server that has dropped the session: every tool call fails with
    a 404. *)
Definition env_tool_404 : Env :=
  scripted_env
    (λ _, Ok (Some "session-a")) (Ok [search_tool]) (λ _, Throw error_404)
    (λ _, Ok [ToolUseBlock "toolu_1" "search" "{q:cats}"])
    (λ _, Ok [ {| oam_content := Some "Hi!"; oam_tool_calls := None |} ])
    (λ _, Ok {| olm_content := "Hi!"; olm_tool_calls := None |})
    (Ok 200%Z) (Ok tt).

Definition state_tool_404 : State :=
  (connectHandler env_tool_404 (Some "Bearer tok") None initial_state).2.

(** ** Tool requests and tool results *)

(** The tool requests (id, name, input) of an Anthropic response. *)
Definition tool_uses (content : list ContentBlock)
  : list (string * string * Json) :=
  omap (λ b, match b with
             | ToolUseBlock id name input => Some (id, name, input)
             | _ => None
             end) content.

(** The arguments [ollama_tool_loop] passes to the tool, when they parse. *)
Definition ollama_args (env : Env) (toolCall : OllamaToolCall) : option Json :=
  match ol_arguments toolCall with
  | ArgString s => JSON_parse env s
  | ArgObject j => Some j
  end.

(** The correlation ids of the tool requests an assistant message carries.
    An Ollama tool call without an id is correlated by its function name,
    as [ollama_call_id] has it. *)
Definition request_ids (m : Message) : list string :=
  match m with
  | AnthropicAssistant content => map (λ u, u.1.1) (tool_uses content)
  | OpenAIAssistant _ (Some tool_calls) => map oa_id tool_calls
  | OllamaAssistant _ (Some tool_calls) => map ollama_call_id tool_calls
  | _ => []
  end.

(** The correlation id of a tool-result message. *)
Definition result_id (m : Message) : option string :=
  match m with
  | AnthropicToolResult tool_use_id _ => Some tool_use_id
  | ToolMessage _ tool_call_id => Some tool_call_id
  | _ => None
  end.

Definition is_assistant (m : Message) : bool :=
  match m with
  | AnthropicAssistant _ | OpenAIAssistant _ _ | OllamaAssistant _ _ => true
  | _ => false
  end.

(** What the Anthropic loop pushes and logs when it runs to its end: for
    each tool request, in order, the tool call, its result message, one
    follow-up model call and the assistant message of its answer. *)
Inductive anthropic_rounds (this : nat)
  : list (string * string * Json) → list Message → list Event → Prop :=
| anthropic_rounds_nil : anthropic_rounds this [] [] []
| anthropic_rounds_cons id name input result h tools followup uses hs log :
    anthropic_rounds this uses hs log →
    anthropic_rounds this ((id, name, input) :: uses)
      (AnthropicToolResult id result :: AnthropicAssistant followup :: hs)
      (EvCallTool this name input (Ok result)
       :: EvAnthropicCreate h tools (Ok followup) :: log).

(** What the OpenAI tool loop pushes and logs when it runs to its end: for
    each tool call, in order, the call of the tool and its result message. *)
Inductive openai_rounds (env : Env) (this : nat)
  : list OpenAIToolCall → list Message → list Event → Prop :=
| openai_rounds_nil : openai_rounds env this [] [] []
| openai_rounds_cons toolCall args result tool_calls hs log :
    JSON_parse env (oa_arguments toolCall) = Some args →
    openai_rounds env this tool_calls hs log →
    openai_rounds env this (toolCall :: tool_calls)
      (ToolMessage result (oa_id toolCall) :: hs)
      (EvCallTool this (oa_name toolCall) args (Ok result) :: log).

Inductive ollama_rounds (env : Env) (this : nat)
  : list OllamaToolCall → list Message → list Event → Prop :=
| ollama_rounds_nil : ollama_rounds env this [] [] []
| ollama_rounds_cons toolCall args result tool_calls hs log :
    ollama_args env toolCall = Some args →
    ollama_rounds env this tool_calls hs log →
    ollama_rounds env this (toolCall :: tool_calls)
      (ToolMessage result (ollama_call_id toolCall) :: hs)
      (EvCallTool this (ol_name toolCall) args (Ok result) :: log).

(** The number of tool requests in the answer of a model call. *)
Definition answer_tool_requests (ev : Event) : option nat :=
  match ev with
  | EvAnthropicCreate _ _ (Ok response) => Some (length (tool_uses response))
  | EvOpenAICreate _ _ (Ok (message :: _)) =>
      Some (length (default [] (oam_tool_calls message)))
  | EvOllamaChat _ _ (Ok message) =>
      Some (length (default [] (olm_tool_calls message)))
  | _ => None
  end.

(** The number of tool requests in the model's initial response of a chat
    round with log [log]: the answer to the first event of the round. *)
Definition initial_tool_requests (log : list Event) : option nat :=
  head log ≫= answer_tool_requests.

(** The object and log right after a handshake of a fresh client at
    address 0. *)
Definition self_connected (env : Env) (provider : ModelProvider) : Self :=
  (connectToServer env 0
     {| self := constructed "tok" provider; events := [] |}).2.

(** A model that asks for two searches in its first answer. *)
Definition env_two_tools : Env :=
  scripted_env
    (λ _, Ok (Some "session-a")) (Ok [search_tool])
    (λ n, if decide (n = 0) then Ok "3 cats" else Ok "2 dogs")
    (λ n, if decide (n = 0)
          then Ok [ToolUseBlock "toolu_1" "search" "{q:cats}";
                   ToolUseBlock "toolu_2" "search" "{q:dogs}"]
          else Ok [TextBlock "Found some."])
    (λ n, if decide (n = 0)
          then Ok [ {| oam_content := None;
                       oam_tool_calls :=
                         Some [ {| oa_id := "call_1"; oa_name := "search";
                                   oa_arguments := "{q:cats}" |};
                                {| oa_id := "call_2"; oa_name := "search";
                                   oa_arguments := "{q:dogs}" |} ] |} ]
          else Ok [ {| oam_content := Some "Found some.";
                       oam_tool_calls := None |} ])
    (λ n, if decide (n = 0)
          then Ok {| olm_content := "";
                     olm_tool_calls :=
                       Some [ {| ol_id := None; ol_name := "search";
                                 ol_arguments := ArgObject "{q:cats}" |};
                              {| ol_id := None; ol_name := "search";
                                 ol_arguments := ArgObject "{q:dogs}" |} ] |}
          else Ok {| olm_content := "Found some.";
                     olm_tool_calls := None |})
    (Ok 200%Z) (Ok tt).

(** ** The ordering invariant of a history *)

(** Every tool-result message is preceded by an assistant message that
    carries a tool request with the same correlation id. *)
Definition results_preceded (h : list Message) : Prop :=
  ∀ i m id, h !! i = Some m → result_id m = Some id →
    ∃ j m', j < i ∧ h !! j = Some m' ∧ id ∈ request_ids m'.

(** Some message of [h] requests a tool under correlation id [id]. *)
Definition requested (h : list Message) (id : string) : Prop :=
  ∃ m, m ∈ h ∧ id ∈ request_ids m.

Definition hist_ok (s : Self) : Prop :=
  results_preceded (c_conversationHistory (self s)).

(** ** What one request may do to the server state *)

(** A client after a step: messages pushed on its history, the ordering
    invariant kept. *)
Definition client_step (c c' : MCPClient) : Prop :=
  (∃ hs, c' = append_history hs c)
  ∧ (results_preceded (c_conversationHistory c) →
     results_preceded (c_conversationHistory c')).

(** A client allocated during the step. *)
Definition fresh_client (c : MCPClient) : Prop :=
  c_conversationHistory c = [] ∧ client_ok c.

Definition server_step (st st' : State) : Prop :=
  (∃ h1 news, heap st' = h1 ++ news
              ∧ Forall2 client_step (heap st) h1
              ∧ Forall fresh_client news)
  ∧ (∀ k session', sessions st' !! k = Some session' →
       (∃ session, sessions st !! k = Some session
                   ∧ sd_mcpClient session' = sd_mcpClient session)
       ∨ length (heap st) ≤ sd_mcpClient session' < length (heap st'))
  ∧ (∃ log, trace st' = trace st ++ log
            ∧ ∀ a answer, EvMcpClose a answer ∈ log →
                ∃ k session, sessions st !! k = Some session
                             ∧ sd_mcpClient session = a).

(** A sequence of create calls, with the outcome of each. *)
Fixpoint createSessions (env : Env)
    (requests : list (string * ModelProvider)) (st : State)
  : list (Outcome string) * State :=
  match requests with
  | [] => ([], st)
  | (apiToken, provider) :: rest =>
      let out := createSession env apiToken provider st in
      let outs := createSessions env rest out.2 in
      (out.1 :: outs.1, outs.2)
  end.

(** The answers of the handshakes of a log, in order. *)
Definition handshake_answers (log : list Event)
  : list (Outcome (option string)) :=
  omap (λ ev, match ev with
              | EvMcpConnect _ _ answer => Some answer
              | _ => None
              end) log.

(** The histories of all clients satisfy the ordering invariant. *)
Definition histories_ok (st : State) : Prop :=
  Forall (λ c, results_preceded (c_conversationHistory c)) (heap st).

(** The client at address [a] is allocated, not referenced by the
    registry, and has never been closed. *)
Definition unreachable (a : nat) (st : State) : Prop :=
  a < length (heap st)
  ∧ (∀ k session, sessions st !! k = Some session →
                  sd_mcpClient session ≠ a)
  ∧ (∀ answer, EvMcpClose a answer ∉ trace st).

(** A stateless tool server: the handshake carries no session id. *)
Definition env_no_session_id : Env :=
  scripted_env
    (λ _, Ok None) (Ok [search_tool]) (λ _, Ok "3 results")
    (λ _, Ok [TextBlock "Hi!"])
    (λ _, Ok [ {| oam_content := Some "Hi!"; oam_tool_calls := None |} ])
    (λ _, Ok {| olm_content := "Hi!"; olm_tool_calls := None |})
    (Ok 200%Z) (Ok tt).

(** ** A chat round with one tool request *)



(** ** Sequences of creates *)

Definition is_discovery (ev : Event) : bool :=
  match ev with EvListTools _ _ => true | _ => false end.

(** A server that issues a new session id at every handshake and whose
    first tool listing fails. *)
Definition env_first_discovery_fails : Env :=
  {| mcp_connect := λ t _ _,
       Ok (Some (match count_log is_connect t with
                 | 0 => "s0" | 1 => "s1" | _ => "s2"
                 end));
     mcp_listTools := λ t _,
       if decide (count_log is_discovery t = 0)
       then Throw error_500 else Ok [search_tool];
     mcp_callTool := λ _ _ _ _, Ok "3 results";
     mcp_close := λ _ _, Ok tt;
     fetch_delete := λ _ _ _, Ok 200%Z;
     anthropic_messages_create := λ _ _ _, Ok [TextBlock "Hi!"];
     openai_chat_completions_create := λ _ _ _,
       Ok [ {| oam_content := Some "Hi!"; oam_tool_calls := None |} ];
     ollama_chat := λ _ _ _,
       Ok {| olm_content := "Hi!"; olm_tool_calls := None |};
     date_now := λ t, Z.of_nat (length t);
     JSON_parse := λ s, if decide (s = "") then None else Some s |}.

(** ** Two disconnects that overlap *)

(** [removeSession] up to its [await]: [sessions.get(sessionId)]. *)
Definition removeSession_lookup (sessionId : string)
  : M State (option SessionData) :=
  let! ss := getSessions in
  ret (ss !! sessionId).

(** [removeSession] from its [await] on, for the session it has found:
    the termination, then [sessions.delete(sessionId)]. *)
Definition removeSession_resume (env : Env) (sessionId : string)
    (found : option SessionData) : M State unit :=
  match found with
  | Some session =>
      do! try_catch (call (sd_mcpClient session)
                          (terminateSession env (sd_mcpClient session)))
                    (fun e => log_console LError (err_message e)) in
      modifySessions (delete sessionId)
  | None => ret tt
  end.

(** [disconnectHandler] for a given [sessionId] up to its [await]: the
    session [removeSession] is about to terminate, [None] when the handler
    has answered 404. *)
Definition disconnect_begin (env : Env) (sessionId : string)
  : M State (option SessionData) :=
  let! session := getSession env sessionId in
  match session with
  | None => ret None
  | Some _ => removeSession_lookup sessionId
  end.

(** Two disconnect requests for one [sessionId] whose handlers overlap:
    while the first awaits the termination the second runs up to its own
    await; then the first resumes, then the second. *)
Definition overlapping_disconnects (env : Env) (sessionId : string)
  : M State unit :=
  let! first := disconnect_begin env sessionId in
  let! second := disconnect_begin env sessionId in
  do! removeSession_resume env sessionId first in
  removeSession_resume env sessionId second.

(** ** Further observations on a chat round *)

(** The tool requests (correlation id, tool name, arguments as the loop
    passes them to the tool, [None] when they do not parse) in the answer
    of a model call. *)
Definition answer_requests (env : Env) (ev : Event)
  : list (string * string * option Json) :=
  match ev with
  | EvAnthropicCreate _ _ (Ok response) =>
      map (λ u, (u.1.1, u.1.2, Some u.2)) (tool_uses response)
  | EvOpenAICreate _ _ (Ok (message :: _)) =>
      map (λ tc, (oa_id tc, oa_name tc, JSON_parse env (oa_arguments tc)))
          (default [] (oam_tool_calls message))
  | EvOllamaChat _ _ (Ok message) =>
      map (λ tc, (ollama_call_id tc, ol_name tc, ollama_args env tc))
          (default [] (olm_tool_calls message))
  | _ => []
  end.

(** The tool calls of a log, in order: name and arguments. *)
Definition tool_calls_of (log : list Event) : list (string * option Json) :=
  omap (λ ev, match ev with
              | EvCallTool _ name args _ => Some (name, Some args)
              | _ => None
              end) log.

(** ** What the handlers do to the registry *)

Definition is_console (ev : Event) : bool :=
  match ev with EvConsole _ _ => true | _ => false end.

(** The elementary changes of the server state the handlers are made of:
    console output, [getSession] touching a session, a chat round on the
    client of a session, [removeSession] and [createSession]. *)
Inductive transition (env : Env) (st st' : State) : Prop :=
| transition_log log :
    sessions st' = sessions st → heap st' = heap st →
    trace st' = trace st ++ log →
    Forall (λ ev, is_console ev = true) log →
    transition env st st'
| transition_touch k session :
    sessions st !! k = Some session →
    sessions st'
    = <[k := set_lastActivity (date_now env (trace st)) session]>
        (sessions st) →
    heap st' = heap st →
    trace st' = trace st ++ [EvDate (date_now env (trace st))] →
    transition env st st'
| transition_round k session hs log :
    sessions st !! k = Some session →
    sessions st' = sessions st →
    heap st'
    = <[sd_mcpClient session :=
          append_history hs (heap st !!! sd_mcpClient session)]> (heap st) →
    trace st' = trace st ++ log →
    Forall (λ ev, is_chat_event (sd_mcpClient session) ev = true) log →
    transition env st st'
| transition_remove k session :
    sessions st !! k = Some session →
    st' = (removeSession env k st).2 →
    transition env st st'
| transition_create apiToken provider :
    st' = (createSession env apiToken provider st).2 →
    transition env st st'.

(** How often client [a] has been closed in a log. *)
Definition closes (a : nat) (log : list Event) : nat :=
  count_log (is_close a) log.

(** A registered session: stored under its own id, which is the id its
    client got from the handshake (or the sentinel); the client is
    allocated, connected, of the session's provider, holds tools of the
    provider's shape, and has not been closed. *)
Definition session_ok (st : State) (k : string) (session : SessionData)
  : Prop :=
  sd_sessionId session = k
  ∧ closes (sd_mcpClient session) (trace st) = 0
  ∧ ∃ c, heap st !! sd_mcpClient session = Some c
         ∧ c_provider c = sd_provider session
         ∧ c_transport c = true
         ∧ default "no-session" (truthy (c_sessionId c)) = k
         ∧ ∃ ts, c_tools c = convert_tools (c_provider c) ts.

(** The registry invariant: every session is well formed, no two
    sessions share a client, and no client, allocated or not, has been
    closed twice or before it exists. *)
Definition registry_ok (st : State) : Prop :=
  map_Forall (session_ok st) (sessions st)
  ∧ (∀ k1 k2 s1 s2,
       sessions st !! k1 = Some s1 → sessions st !! k2 = Some s2 →
       sd_mcpClient s1 = sd_mcpClient s2 → k1 = k2)
  ∧ (∀ a, closes a (trace st) ≤ 1)
  ∧ (∀ a, length (heap st) ≤ a → closes a (trace st) = 0).

(** ** Requests and the sessions they address *)

(** The session a request addresses. *)
Definition target (r : Request) : option string :=
  match r with
  | PostChat _ sessionId | PostDisconnect sessionId => truthy sessionId
  | _ => None
  end.

(** The session id of an entry of the listing. *)
Definition listed_id
    (entry : string * Z * Z * ModelProvider * nat * list string) : string :=
  entry.1.1.1.1.1.

(** ** Time stamps *)

(** A clock that never goes back as the log grows. *)
Definition clock_monotone (env : Env) : Prop :=
  ∀ t t', (date_now env t ≤ date_now env (t ++ t'))%Z.

(** Both stamps of a session are clock readings taken in this order at
    earlier moments of the log. *)
Definition stamped (env : Env) (log : list Event) (session : SessionData)
  : Prop :=
  ∃ t0 t1 t2,
    log = t0 ++ t1 ++ t2
    ∧ sd_createdAt session = date_now env t0
    ∧ sd_lastActivity session = date_now env (t0 ++ t1).

(** Every registered session is stamped. *)
Definition stamps_ok (env : Env) (st : State) : Prop :=
  map_Forall (λ _ session, stamped env (trace st) session) (sessions st).

(** ** Failures end a chat round *)

(** Since the log was [t0], no outside call has failed, unless the method
    threw the error of the call it made last. *)
Definition failure_last {A} (t0 : list Event) (r : Outcome A) (s : Self)
  : Prop :=
  ∃ log, events s = t0 ++ log
         ∧ match r with
           | Ok _ => no_failure log
           | Throw e =>
               no_failure log
               ∨ ∃ l ev, log = l ++ [ev] ∧ no_failure l
                         ∧ event_error ev = Some e
           end.

(** A method that stops at the first failed call. *)
Definition halts {A} (t0 : list Event) (c : M Self A) : Prop :=
  hoare (clean_since t0) c (failure_last t0).

(** ** The text of an answer *)

(** The text of an assistant message as OpenAI and Ollama rounds return
    it: [content || ""]. *)
Definition message_text (m : Message) : option string :=
  match m with
  | OpenAIAssistant content _ => Some (default "" (truthy content))
  | OllamaAssistant content _ => Some (default "" (truthy (Some content)))
  | _ => None
  end.

(** A model whose first answer carries both a text and a tool request. *)
Definition env_text_and_tool : Env :=
  scripted_env
    (λ _, Ok (Some "session-a")) (Ok [search_tool]) (λ _, Ok "3 results")
    (λ n, if decide (n = 0)
          then Ok [TextBlock "Let me look. ";
                   ToolUseBlock "toolu_1" "search" "{q:cats}"]
          else Ok [TextBlock "Found 3 results."])
    (λ n, if decide (n = 0)
          then Ok [ {| oam_content := Some "Let me look. ";
                       oam_tool_calls :=
                         Some [ {| oa_id := "call_1"; oa_name := "search";
                                   oa_arguments := "{q:cats}" |} ] |} ]
          else Ok [ {| oam_content := Some "Found 3 results.";
                       oam_tool_calls := None |} ])
    (λ n, if decide (n = 0)
          then Ok {| olm_content := "Let me look. ";
                     olm_tool_calls :=
                       Some [ {| ol_id := None; ol_name := "search";
                                 ol_arguments := ArgObject "{q:cats}" |} ] |}
          else Ok {| olm_content := "Found 3 results.";
                     olm_tool_calls := None |})
    (Ok 200%Z) (Ok tt).

From stdpp Require Import pretty.

(** * TokenUtil: from a user token to an API token

    The static methods of [TokenUtil].  The JWT library and the HTTP
    request are oracles of the environment, answered from the log so far
    and logged with their answers.  A thrown value is either an [Error]
    with its message or some other value, which is all the handlers of the
    class look at.  The body of the HTTP response is taken to have the
    declared type, an array of memberships, or to be null. *)

Module TokenUtil.

(** A field of a token payload, as far as [!v] tells values apart. *)
Inductive JsValue :=
| JUndefined
| JNull
| JBool (b : bool)
| JNumber (n : Z)
| JString (s : string)
| JObject (j : Json).

(** [!!v] *)
Definition js_truthy (v : JsValue) : bool :=
  match v with
  | JUndefined | JNull => false
  | JBool b => b
  | JNumber n => negb (n =? 0)%Z
  | JString s => negb (bool_decide (s = ""))
  | JObject _ => true
  end.

(** What [jwt.decode] returns: null, a payload that is a string, or a
    payload object with its fields ([JUndefined] where there is none). *)
Inductive Decoded :=
| DecodedNull
| DecodedString (s : string)
| DecodedObject (field : string → JsValue).

(** [!!decoded] *)
Definition decoded_truthy (decoded : Decoded) : bool :=
  match decoded with
  | DecodedNull => false
  | DecodedString s => negb (bool_decide (s = ""))
  | DecodedObject _ => true
  end.

(** [decoded[name]] *)
Definition get_field (decoded : Decoded) (name : string) : JsValue :=
  match decoded with
  | DecodedObject field => field name
  | _ => JUndefined
  end.

Inductive Thrown :=
| ErrorObject (message : string)
| OtherValue.

Inductive Result (A : Type) :=
| Return (a : A)
| Raise (t : Thrown).
Arguments Return {A} a.
Arguments Raise {A} t.

(** An entry of the response; [apiTokens] is [None] when missing. *)
Record MembershipResponse := {
  apiTokens : option (list string);
}.

(** The response of [fetch]: its status and what [response.json()]
    resolves to, [None] for a null body. *)
Record HttpResponse := {
  resp_status : Z;
  resp_json : Result (option (list MembershipResponse));
}.

(** [response.ok] *)
Definition resp_ok (response : HttpResponse) : bool :=
  ((200 <=? resp_status response) && (resp_status response <=? 299))%Z.

Inductive Event :=
| EvDecode (token : string) (answer : Result Decoded)
| EvSign (workspaceRegistryId memberId : JsValue) (secret : string)
         (answer : Result string)
| EvVerify (token secret : string) (answer : Result Decoded)
| EvFetch (backend_system_key : string) (answer : Result HttpResponse).

Record Env := {
  jwt_decode : list Event → string → Result Decoded;
  jwt_sign : list Event → JsValue → JsValue → string → Result string;
  jwt_verify : list Event → string → string → Result Decoded;
  fetch_memberships : list Event → string → Result HttpResponse;
}.

(** Computations: the log is threaded and survives a throw. *)
Definition T (A : Type) : Type := list Event → Result A * list Event.

Definition ret {A} (a : A) : T A := fun log => (Return a, log).

Definition bind {A B} (c : T A) (k : A → T B) : T B :=
  fun log =>
    match c log with
    | (Return a, log') => k a log'
    | (Raise t, log') => (Raise t, log')
    end.

Definition throw {A} (t : Thrown) : T A := fun log => (Raise t, log).

Definition try_catch {A} (c : T A) (h : Thrown → T A) : T A :=
  fun log =>
    match c log with
    | (Return a, log') => (Return a, log')
    | (Raise t, log') => h t log'
    end.

(** A call of the library or of [fetch], logged with its answer. *)
Definition external {A} (oracle : list Event → Result A)
    (ev : Result A → Event) : T A :=
  fun log => (oracle log, log ++ [ev (oracle log)]).

(** [await response.json()] *)
Definition settle {A} (r : Result A) : T A := fun log => (r, log).

Declare Scope token_scope.
Delimit Scope token_scope with token.
Notation "'let?' x ':=' c 'in' k" := (bind c (fun x => k))
  (at level 10, x name, c at level 100, k at level 200) : token_scope.
Local Open Scope token_scope.

(** [error instanceof Error ? error.message : 'Unknown error'] *)
Definition error_message (error : Thrown) : string :=
  match error with
  | ErrorObject message => message
  | OtherValue => "Unknown error"
  end.

Section Methods.

Variable env : Env.

Definition prepareBackendSystemKey (inputToken ideascaleJwtSecret : string)
  : T string :=
  try_catch
    (let? decoded :=
       external (fun log => jwt_decode env log inputToken)
                (EvDecode inputToken) in
     if negb (decoded_truthy decoded) then
       throw (ErrorObject "Invalid JWT token provided")
     else
       let workspaceId := get_field decoded "workspace-id" in
       let memberId := get_field decoded "member-id" in
       if negb (js_truthy workspaceId) || negb (js_truthy memberId) then
         throw (ErrorObject
                  "Required fields (workspace-id, member-id) not found in token")
       else
         let? ideascaleToken :=
           external (fun log => jwt_sign env log workspaceId memberId
                                         ideascaleJwtSecret)
                    (EvSign workspaceId memberId ideascaleJwtSecret) in
         ret ideascaleToken)
    (fun error =>
       throw (ErrorObject ("Failed to prepare backend system key: "
                           +:+ error_message error))).

Definition decodeToken (token : string) : T Decoded :=
  try_catch
    (external (fun log => jwt_decode env log token) (EvDecode token))
    (fun error =>
       throw (ErrorObject ("Failed to decode token: "
                           +:+ error_message error))).

Definition verifyToken (token secret : string) : T Decoded :=
  try_catch
    (external (fun log => jwt_verify env log token secret)
              (EvVerify token secret))
    (fun error =>
       throw (ErrorObject ("Failed to verify token: "
                           +:+ error_message error))).

Definition fetchApiToken (backendSystemKey : string) : T string :=
  try_catch
    (let? response :=
       external (fun log => fetch_memberships env log backendSystemKey)
                (EvFetch backendSystemKey) in
     if negb (resp_ok response) then
       throw (ErrorObject ("HTTP error! status: "
                           +:+ pretty (resp_status response)))
     else
       let? memberships := settle (resp_json response) in
       match memberships with
       | None | Some [] =>
           throw (ErrorObject "No memberships found in response")
       | Some (firstMembership :: _) =>
           match apiTokens firstMembership with
           | None | Some [] =>
               throw (ErrorObject "No API tokens found in first membership")
           | Some (token :: _) => ret token
           end
       end)
    (fun error =>
       throw (ErrorObject ("Failed to fetch API token: "
                           +:+ error_message error))).

Definition getApiTokenForMCP (inputToken ideascaleJwtSecret : string)
  : T string :=
  try_catch
    (let? backendSystemKey :=
       prepareBackendSystemKey inputToken ideascaleJwtSecret in
     let? apiToken := fetchApiToken backendSystemKey in
     ret apiToken)
    (fun error =>
       throw (ErrorObject ("Failed to get API token for MCP: "
                           +:+ error_message error))).

End Methods.

(** A method throws nothing but an [Error] whose message starts with
    [prefix]. *)
Definition wrapped {A} (prefix : string) (r : Result A) : Prop :=
  match r with
  | Return _ => True
  | Raise t => ∃ message, t = ErrorObject (prefix +:+ message)
  end.

Definition is_fetch (ev : Event) : bool :=
  match ev with EvFetch _ _ => true | _ => false end.

(** A token of workspace 7 and member 42, a signer that appends the
    secret, and an API that knows one membership with two tokens. *)
Definition env_example : Env :=
  {| jwt_decode := λ _ token,
       if decide (token = "user.jwt")
       then Return (DecodedObject
                      (λ name, if decide (name = "workspace-id")
                               then JNumber 7
                               else if decide (name = "member-id")
                                    then JNumber 42 else JUndefined))
       else Return DecodedNull;
     jwt_sign := λ _ _ _ secret, Return ("key." +:+ secret);
     jwt_verify := λ _ _ _, Raise (ErrorObject "invalid signature");
     fetch_memberships := λ _ key,
       if decide (key = "key.s3cret")
       then Return {| resp_status := 200;
                      resp_json :=
                        Return (Some [ {| apiTokens :=
                                            Some ["tok-1"; "tok-2"] |};
                                       {| apiTokens := Some ["tok-3"] |} ])
                   |}
       else Return {| resp_status := 401; resp_json := Return None |} |}.

End TokenUtil.

(** * Properties *)

(** ** Rules of the program logic *)

Section Rules.
Context {S : Type}.
Implicit Types (I P : S → Prop).

Lemma pres_ret {A} I (a : A) : pres I (ret a).
Proof. by intros st H. Qed.

Lemma pres_throw {A} I e : pres I (@throw S A e).
Proof. by intros st H. Qed.

Lemma pres_bind {A B} I (c : M S A) (k : A → M S B) :
  pres I c → (∀ a, pres I (k a)) → pres I (bind c k).
Proof.
  intros Hc Hk st H. unfold bind. specialize (Hc st H).
  destruct (c st) as [[a|e] st1]; simpl in *; [by apply Hk | done].
Qed.

Lemma pres_try_catch {A} I (c : M S A) h :
  pres I c → (∀ e, pres I (h e)) → pres I (try_catch c h).
Proof.
  intros Hc Hh st H. unfold try_catch. specialize (Hc st H).
  destruct (c st) as [[a|e] st1]; simpl in *; [done | by apply Hh].
Qed.

Lemma hoare_bind {A B} P (c : M S A) (k : A → M S B) Q R :
  hoare P c Q →
  (∀ a, hoare (Q (Ok a)) (k a) R) →
  (∀ e st, Q (Throw e) st → R (Throw e) st) →
  hoare P (bind c k) R.
Proof.
  intros Hc Hk He st H. unfold bind. specialize (Hc st H).
  destruct (c st) as [[a|e] st1]; simpl in *; [by apply Hk | by apply He].
Qed.




End Rules.

Lemma pres_getThis (I : Self → Prop) : pres I getThis.
Proof. by intros st H. Qed.

Lemma pres_getSessions (I : State → Prop) : pres I getSessions.
Proof. by intros st H. Qed.

Ltac pres_step :=
  lazymatch goal with
  | |- pres _ (bind _ _) => apply pres_bind; [|intros ?]
  | |- pres _ (try_catch _ _) => apply pres_try_catch; [|intros ?]
  | |- pres _ (ret _) => apply pres_ret
  | |- pres _ (throw _) => apply pres_throw
  | |- pres _ getThis => apply pres_getThis
  | |- pres _ getSessions => apply pres_getSessions
  | |- pres _ (if ?b then _ else _) => destruct b
  | |- pres _ (match ?x with _ => _ end) => destruct x
  end.

(** ** A chat round only pushes messages and logs chat events *)

Lemma append_history_nil c : append_history [] c = c.
Proof. destruct c. unfold append_history. simpl. by rewrite app_nil_r. Qed.

Lemma append_history_app hs1 hs2 c :
  append_history hs2 (append_history hs1 c) = append_history (hs1 ++ hs2) c.
Proof. unfold append_history. simpl. by rewrite app_assoc. Qed.

Lemma chat_frame_refl this s : chat_frame this s s.
Proof.
  split.
  - exists []. by rewrite append_history_nil.
  - exists []. by rewrite app_nil_r.
Qed.

Lemma pres_frame_push this s0 m :
  pres (chat_frame this s0) (modifyThis (push_message m)).
Proof.
  intros s ([hs Hh] & Ht). split; [|done].
  exists (hs ++ [m]). simpl. rewrite Hh.
  change (push_message m) with (append_history [m]).
  apply append_history_app.
Qed.

Lemma pres_frame_external {A} this s0 (oracle : list Event → Outcome A) ev :
  (∀ r, is_chat_event this (ev r) = true) →
  pres (chat_frame this s0) (external oracle ev).
Proof.
  intros Hev s (Hh & [log [Ht Hl]]). split; [done|].
  exists (log ++ [ev (oracle (events s))]). simpl. rewrite Ht, app_assoc.
  split; [done|]. apply Forall_app. split; [done|]. by constructor.
Qed.

Ltac frame_step :=
  first
    [ apply pres_frame_push
    | apply pres_frame_external; intros ?; simpl; try done;
      by apply bool_decide_eq_true
    | pres_step ].

Lemma pres_frame_anthropic_loop env this s0 blocks acc :
  pres (chat_frame this s0) (anthropic_loop env this blocks acc).
Proof.
  revert acc. induction blocks as [|b rest IH]; intros acc; simpl.
  - apply pres_ret.
  - destruct b; [apply IH | | apply IH].
    unfold callTool. repeat frame_step. apply IH.
Qed.

Lemma pres_frame_openai_tool_loop env this s0 tcs :
  pres (chat_frame this s0) (openai_tool_loop env this tcs).
Proof.
  induction tcs as [|tc rest IH]; simpl; [apply pres_ret|].
  unfold callTool, parse_json. repeat frame_step; apply IH.
Qed.

Lemma pres_frame_ollama_tool_loop env this s0 tcs :
  pres (chat_frame this s0) (ollama_tool_loop env this tcs).
Proof.
  induction tcs as [|tc rest IH]; simpl; [apply pres_ret|].
  unfold callTool, parse_json. repeat frame_step; apply IH.
Qed.

Lemma processQuery_frame env this query s :
  chat_frame this s (processQuery env this query s).2.
Proof.
  assert (pres (chat_frame this s) (processQuery env this query)) as H.
  { unfold processQuery, processQueryWithAnthropic, processQueryWithOpenAI,
      processQueryWithOllama, first_choice.
    repeat first
      [ apply pres_frame_anthropic_loop
      | apply pres_frame_openai_tool_loop
      | apply pres_frame_ollama_tool_loop
      | frame_step ]. }
  apply H, chat_frame_refl.
Qed.

(** ** Truthiness of strings *)

Lemma truthy_Some s : s ≠ "" → truthy (Some s) = Some s.
Proof. intros H. unfold truthy. by destruct (decide (s = "")). Qed.

Lemma truthy_Some_inv o s : truthy o = Some s → o = Some s ∧ s ≠ "".
Proof.
  destruct o as [x|]; [|done]. unfold truthy.
  destruct (decide (x = "")); [done|]. by intros [= ->].
Qed.


(** ** The handshake, run symbolically *)

Lemma connectToServer_run env this s :
  connectToServer env this s =
  let c := self s in
  let connect := EvMcpConnect this (c_apiToken c) in
  match mcp_connect env (events s) this (c_apiToken c) with
  | Throw e =>
      (Throw e,
       {| self := set_transport true c;
          events := events s ++ [connect (Throw e);
                      EvConsole LLog "Failed to connect to MCP server: "] |})
  | Ok sid =>
      let t1 := events s ++ connect (Ok sid) :: handshake_warning sid in
      let c1 := set_sessionId (truthy sid) (set_transport true c) in
      match mcp_listTools env t1 this with
      | Throw e =>
          (Throw e,
           {| self := c1;
              events := t1 ++ [EvListTools this (Throw e);
                          EvConsole LLog "Failed to connect to MCP server: "] |})
      | Ok ts =>
          (Ok (default "no-session" (truthy sid)),
           {| self := set_tools (convert_tools (c_provider c) ts) c1;
              events := t1 ++ [EvListTools this (Ok ts);
                          EvConsole LLog
                            "Connected to MCP server with session ID"] |})
      end
  end.
Proof.
  unfold connectToServer, try_catch, bind, external, getThis, modifyThis,
    console, ret, throw, handshake_warning. simpl.
  destruct (mcp_connect env _ _ _) as [sid|e]; simpl;
    [|by rewrite <- app_assoc].
  destruct (truthy sid) as [x|] eqn:Hsid; simpl;
    rewrite <- !app_assoc; simpl;
    destruct (mcp_listTools env _ _) as [ts|e]; simpl;
    rewrite <- ?app_assoc; simpl; try done.
  apply truthy_Some_inv in Hsid as [_ Hx].
  by destruct (decide (x = "")).
Qed.

(** ** Objects in the heap *)

Lemma lookup_total_snoc (l : list MCPClient) x : (l ++ [x]) !!! length l = x.
Proof. rewrite lookup_total_app_r by lia. by rewrite Nat.sub_diag. Qed.

Lemma insert_snoc (l : list MCPClient) x y :
  <[length l := y]> (l ++ [x]) = l ++ [y].
Proof.
  rewrite insert_app_r_alt by lia. by rewrite Nat.sub_diag.
Qed.

(** ** Creating a session, run symbolically *)

Lemma createSession_run env apiToken provider st :
  createSession env apiToken provider st =
  let this := length (heap st) in
  let out := connectToServer env this
               {| self := constructed apiToken provider;
                  events := trace st |} in
  match out.1 with
  | Throw e =>
      (Throw e, {| sessions := sessions st;
                   heap := heap st ++ [self out.2];
                   trace := events out.2 |})
  | Ok sessionId =>
      let createdAt := date_now env (events out.2) in
      let lastActivity :=
        date_now env (events out.2 ++ [EvDate createdAt]) in
      (Ok sessionId,
       {| sessions :=
            <[sessionId := {| sd_sessionId := sessionId;
                              sd_mcpClient := this;
                              sd_createdAt := createdAt;
                              sd_lastActivity := lastActivity;
                              sd_provider := provider |}]> (sessions st);
          heap := heap st ++ [self out.2];
          trace := events out.2 ++ [EvDate createdAt; EvDate lastActivity] |})
  end.
Proof.
  unfold createSession, bind, new_MCPClient, call, new_Date, modifySessions,
    ret. simpl.
  rewrite lookup_total_snoc, insert_snoc.
  destruct (connectToServer env _ _) as [[sessionId|e] s']; simpl; [|done].
  by rewrite <- app_assoc.
Qed.

(** ** The log between two states *)

Lemma new_events_app st st' log :
  trace st' = trace st ++ log → new_events st st' = log.
Proof. unfold new_events. intros ->. apply drop_app_length. Qed.

Lemma new_events_refl st : new_events st st = [].
Proof. apply new_events_app. by rewrite app_nil_r. Qed.

(** ** Removing a session *)

Lemma removeSession_unknown env st sessionId :
  sessions st !! sessionId = None →
  removeSession env sessionId st = (Ok tt, st).
Proof. intros H. unfold removeSession, bind, getSessions. simpl. by rewrite H. Qed.

Lemma getSession_unknown env st sessionId :
  sessions st !! sessionId = None →
  getSession env sessionId st = (Ok None, st).
Proof. intros H. unfold getSession, bind, getSessions. simpl. by rewrite H. Qed.

(** C8: disconnecting a session id that is not registered answers 404
    "Session not found", and neither the handler nor [removeSession]
    changes anything: the final state (registry with its timestamps, every
    client and its history, the log of outside calls) is the initial one. *)
Theorem disconnect_unknown_session env st sessionId :
  sessionId ≠ "" →
  sessions st !! sessionId = None →
  disconnectHandler env (Some sessionId) st
  = (Ok {| status := 404; body := ErrorBody "Session not found" None |}, st)
  ∧ removeSession env sessionId st = (Ok tt, st).
Proof.
  intros Hne Hnone. split; [|by apply removeSession_unknown].
  unfold disconnectHandler, try_catch, bind.
  rewrite (truthy_Some _ Hne), (getSession_unknown _ _ _ Hnone). done.
Qed.

Lemma disconnect_unknown_session_witness :
  sessions initial_state !! "ghost" = None
  ∧ disconnectHandler env_one_tool (Some "ghost") initial_state
    = (Ok {| status := 404; body := ErrorBody "Session not found" None |},
       initial_state)
  ∧ removeSession env_one_tool "ghost" initial_state = (Ok tt, initial_state).
Proof.
  split; [reflexivity|].
  apply (disconnect_unknown_session env_one_tool initial_state "ghost").
  - discriminate.
  - reflexivity.
Defined.

Ltac log_cases H :=
  repeat first
    [ apply elem_of_nil in H; destruct H
    | apply elem_of_cons in H as [H|H]; [try discriminate H|] ].

(** C6: when the handshake ([mcp.connect]) or the tool discovery
    ([mcp.listTools]) of a [createSession] call fails with [e], the call
    throws [e] and the registry is the one it started from. *)
Theorem createSession_failure_registers_nothing
    env st apiToken provider e :
  let out := createSession env apiToken provider st in
  (∃ a, EvMcpConnect a apiToken (Throw e) ∈ new_events st out.2
        ∨ EvListTools a (Throw e) ∈ new_events st out.2) →
  out.1 = Throw e ∧ sessions out.2 = sessions st.
Proof.
  cbv zeta. rewrite createSession_run. cbv zeta.
  rewrite connectToServer_run. simpl.
  destruct (mcp_connect env _ _ _) as [sid|e1]; simpl.
  - destruct (mcp_listTools env _ _) as [ts|e2]; simpl;
      (erewrite new_events_app;
       [|simpl; rewrite <- ?app_assoc; simpl; reflexivity]);
      unfold handshake_warning; destruct (truthy sid); simpl;
      intros [a [H|H]]; log_cases H; by simplify_eq.
  - erewrite new_events_app by (simpl; reflexivity).
    intros [a [H|H]]; log_cases H; by simplify_eq.
Qed.

Lemma createSession_failure_registers_nothing_witness :
  let out := createSession env_connect_fails "tok" anthropic initial_state in
  let e := {| err_status := None; err_code := None;
              err_message := "ECONNREFUSED" |} in
  EvMcpConnect 0 "tok" (Throw e) ∈ new_events initial_state out.2
  ∧ out.1 = Throw e
  ∧ sessions out.2 = sessions initial_state.
Proof.
  cbv zeta.
  assert (EvMcpConnect 0 "tok"
            (Throw {| err_status := None; err_code := None;
                      err_message := "ECONNREFUSED" |})
          ∈ new_events initial_state
              (createSession env_connect_fails "tok" anthropic
                             initial_state).2) as Hin
    by (vm_compute; apply list_elem_of_here).
  split; [exact Hin|].
  apply (createSession_failure_registers_nothing
           env_connect_fails initial_state "tok" anthropic).
  exists 0. left. exact Hin.
Defined.

(** ** Terminating and removing a session, run symbolically *)

Lemma terminateSession_run env this s :
  terminateSession env this s =
  let t1 := events s ++ termination_request env (self s) (events s) in
  let closed := mcp_close env t1 this in
  (closed, {| self := self s; events := t1 ++ [EvMcpClose this closed] |}).
Proof.
  unfold terminateSession, termination_request, cleanup, try_catch, bind,
    external, getThis, console, ret. simpl.
  destruct (truthy (c_sessionId (self s))) as [sid|]; simpl.
  - destruct (c_transport (self s)); simpl.
    + destruct (fetch_delete env _ _ _) as [status|e]; simpl.
      * destruct (status =? 405)%Z; simpl; [|destruct (response_ok status)];
          simpl; rewrite <- !app_assoc; by simpl.
      * rewrite <- !app_assoc. by simpl.
    + by rewrite app_nil_r.
  - by rewrite app_nil_r.
Qed.

Lemma insert_lookup_total (l : list MCPClient) a : <[a := l !!! a]> l = l.
Proof.
  destruct (l !! a) as [c|] eqn:H.
  - apply list_insert_id. by rewrite (list_lookup_total_correct _ _ _ H).
  - apply list_insert_ge. by apply lookup_ge_None.
Qed.

Lemma removeSession_run env sessionId st :
  removeSession env sessionId st =
  match sessions st !! sessionId with
  | None => (Ok tt, st)
  | Some session =>
      let this := sd_mcpClient session in
      let t1 := trace st
                ++ termination_request env (heap st !!! this) (trace st) in
      let closed := mcp_close env t1 this in
      (Ok tt,
       {| sessions := delete sessionId (sessions st);
          heap := heap st;
          trace := t1 ++ EvMcpClose this closed
                      :: match closed with
                         | Ok _ => []
                         | Throw e => [EvConsole LError (err_message e)]
                         end |})
  end.
Proof.
  unfold removeSession, bind, getSessions. simpl.
  destruct (sessions st !! sessionId) as [session|]; [|done].
  unfold try_catch, call. rewrite terminateSession_run. simpl.
  rewrite insert_lookup_total.
  destruct (mcp_close env _ _); simpl; [done|].
  unfold modifySessions, log_console. simpl. by rewrite <- app_assoc.
Qed.

Lemma count_log_nil p : count_log p [] = 0.
Proof. done. Qed.

Lemma count_log_cons p ev log :
  count_log p (ev :: log) = (if p ev then 1 else 0) + count_log p log.
Proof.
  unfold count_log. rewrite filter_cons.
  destruct (p ev); by destruct (decide _).
Qed.

Lemma count_log_app p log1 log2 :
  count_log p (log1 ++ log2) = count_log p log1 + count_log p log2.
Proof. unfold count_log. by rewrite filter_app, length_app. Qed.

Lemma termination_request_cases env c log :
  termination_request env c log = []
  ∨ ∃ sid answer level text,
      termination_request env c log
      = [EvFetchDelete sid (c_apiToken c) answer; EvConsole level text]
      ∧ (answer = Ok 405%Z → level = LLog)
      ∧ (∀ status, answer = Ok status → response_ok status = true →
                   level = LLog)
      ∧ (∀ status, answer = Ok status → status ≠ 405%Z →
                   response_ok status = false → level = LWarn)
      ∧ (∀ e, answer = Throw e → level = LError).
Proof.
  unfold termination_request.
  destruct (truthy (c_sessionId c)) as [sid|]; [|by left].
  destruct (c_transport c); [|by left]. right.
  destruct (fetch_delete env log sid (c_apiToken c)) as [status|e] eqn:Hf;
    simpl.
  - destruct (status =? 405)%Z eqn:H405.
    + eexists _, _, _, _. split; [done|].
      apply Z.eqb_eq in H405. subst. repeat split; try done.
      intros ? [= <-]. done.
    + apply Z.eqb_neq in H405.
      destruct (response_ok status) eqn:Hok; eexists _, _, _, _;
        (split; [done|]); repeat split; intros; simplify_eq; congruence.
  - eexists _, _, _, _. split; [done|]. repeat split; intros; by simplify_eq.
Qed.

(** C7: removing a registered session never fails and always deletes the
    entry.  Its log is the DELETE request (skipped when the client has no
    session id or no transport), then exactly one [mcp.close] of the
    session's client, then at most the report of a failed close.  The
    outcome of the DELETE only selects the console level: 405 and 2xx are
    logged plainly, another status is a warning, a thrown error is logged
    as an error; none of them is propagated or prevents the close. *)
Theorem removeSession_releases_once env st sessionId session :
  sessions st !! sessionId = Some session →
  let this := sd_mcpClient session in
  let out := removeSession env sessionId st in
  out.1 = Ok tt
  ∧ sessions out.2 = delete sessionId (sessions st)
  ∧ count_log (is_close this) (new_events st out.2) = 1
  ∧ ∃ request closed reported,
      new_events st out.2 = request ++ EvMcpClose this closed :: reported
      ∧ (request = []
         ∨ ∃ sid tok answer level text,
             request = [EvFetchDelete sid tok answer; EvConsole level text]
             ∧ (answer = Ok 405%Z → level = LLog)
             ∧ (∀ status, answer = Ok status → response_ok status = true →
                          level = LLog)
             ∧ (∀ status, answer = Ok status → status ≠ 405%Z →
                          response_ok status = false → level = LWarn)
             ∧ (∀ e, answer = Throw e → level = LError))
      ∧ (reported = [] ∨ ∃ text, reported = [EvConsole LError text]).
Proof.
  intros Hs. cbv zeta. rewrite removeSession_run, Hs. simpl.
  erewrite new_events_app by (rewrite <- app_assoc; reflexivity).
  split; [done|]. split; [done|].
  set (c := heap st !!! sd_mcpClient session).
  set (request := termination_request env c (trace st)).
  set (closed := mcp_close env _ _).
  assert (count_log (is_close (sd_mcpClient session)) request = 0) as Hreq.
  { destruct (termination_request_cases env c (trace st))
      as [Hr|(sid & answer & level & text & Hr & _)];
      subst request; by rewrite Hr. }
  split.
  - rewrite count_log_app, count_log_cons, Hreq. simpl.
    rewrite bool_decide_eq_true_2 by done.
    by destruct closed.
  - exists request, closed, (match closed with
                             | Ok _ => []
                             | Throw e => [EvConsole LError (err_message e)]
                             end).
    split; [done|]. split.
    + destruct (termination_request_cases env c (trace st))
        as [Hr|(sid & answer & level & text & Hr & Hl)]; [by left|].
      right. by exists sid, (c_apiToken c), answer, level, text.
    + destruct closed; [by left | right; by eexists].
Qed.

Lemma removeSession_releases_once_witness :
  let out := removeSession env_delete_405 "session-a" state_connected_405 in
  is_Some (sessions state_connected_405 !! "session-a")
  ∧ out.1 = Ok tt
  ∧ sessions out.2 !! "session-a" = None
  ∧ new_events state_connected_405 out.2
    = [EvFetchDelete "session-a" "tok" (Ok 405%Z);
       EvConsole LLog
         "MCP server does not allow client-initiated session termination (405 Method Not Allowed)";
       EvMcpClose 0 (Ok tt)].
Proof.
  assert (sessions state_connected_405 !! "session-a"
          = Some {| sd_sessionId := "session-a"; sd_mcpClient := 0;
                    sd_createdAt := 3; sd_lastActivity := 5;
                    sd_provider := anthropic |}) as Hs
    by (vm_compute; reflexivity).
  destruct (removeSession_releases_once env_delete_405 state_connected_405
              "session-a" _ Hs) as (Hr & Hd & _).
  cbv zeta. split; [by eexists|]. split; [exact Hr|]. split.
  - rewrite Hd. apply lookup_delete_eq.
  - vm_compute. reflexivity.
Defined.

(** ** A chat round has no handler: failures propagate *)

Lemma no_failure_elem log ev e :
  no_failure log → ev ∈ log → event_error ev = Some e → False.
Proof.
  intros Hl Hin He. eapply Forall_forall in Hl; [|done]. congruence.
Qed.

Lemma clean_failure_thrown {A} t0 (r : Outcome A) s :
  clean_since t0 s → failure_thrown t0 r s.
Proof.
  intros (log & Ht & Hl). exists log. split; [done|].
  destruct r; [done|]. intros ev e' Hin He.
  by destruct (no_failure_elem _ _ _ Hl Hin He).
Qed.

Lemma propagates_ret {A} t0 (a : A) : propagates t0 (ret a).
Proof. intros s H. by apply clean_failure_thrown. Qed.

Lemma propagates_throw {A} t0 e : propagates t0 (@throw Self A e).
Proof. intros s H. by apply clean_failure_thrown. Qed.

Lemma propagates_getThis t0 : propagates t0 getThis.
Proof. intros s H. by apply clean_failure_thrown. Qed.

Lemma propagates_modifyThis t0 f : propagates t0 (modifyThis f).
Proof. intros s H. by apply clean_failure_thrown. Qed.

Lemma propagates_bind {A B} t0 (c : M Self A) (k : A → M Self B) :
  propagates t0 c → (∀ a, propagates t0 (k a)) → propagates t0 (bind c k).
Proof.
  intros Hc Hk. eapply hoare_bind; [apply Hc| |].
  - intros a s (log & Ht & Hl). apply Hk. by exists log.
  - intros e s (log & Ht & Hl). by exists log.
Qed.

Lemma propagates_external {A} t0 (oracle : list Event → Outcome A) ev :
  (∀ a, event_error (ev (Ok a)) = None) →
  (∀ e, event_error (ev (Throw e)) = Some e) →
  propagates t0 (external oracle ev).
Proof.
  intros Hok Hthrow s (log & Ht & Hl). unfold external. simpl.
  exists (log ++ [ev (oracle (events s))]). rewrite Ht, app_assoc.
  split; [done|]. destruct (oracle _) as [a|e].
  - apply Forall_app. split; [done|]. constructor; [apply Hok | constructor].
  - intros ev' e' [Hin|Hin]%elem_of_app He.
    + by destruct (no_failure_elem _ _ _ Hl Hin He).
    + apply list_elem_of_singleton in Hin. subst ev'.
      rewrite Hthrow in He. congruence.
Qed.

Ltac propagates_step :=
  lazymatch goal with
  | |- propagates _ (bind _ _) => apply propagates_bind; [|intros ?]
  | |- propagates _ (ret _) => apply propagates_ret
  | |- propagates _ (throw _) => apply propagates_throw
  | |- propagates _ getThis => apply propagates_getThis
  | |- propagates _ (modifyThis _) => apply propagates_modifyThis
  | |- propagates _ (external _ _) =>
      apply propagates_external; intros ?; reflexivity
  | |- propagates _ (if ?b then _ else _) => destruct b
  | |- propagates _ (match ?x with _ => _ end) => destruct x
  end.

Lemma propagates_anthropic_loop env this t0 blocks acc :
  propagates t0 (anthropic_loop env this blocks acc).
Proof.
  revert acc. induction blocks as [|b rest IH]; intros acc; simpl.
  - apply propagates_ret.
  - destruct b; [apply IH | | apply IH].
    unfold callTool. repeat propagates_step. apply IH.
Qed.

Lemma propagates_openai_tool_loop env this t0 tcs :
  propagates t0 (openai_tool_loop env this tcs).
Proof.
  induction tcs as [|tc rest IH]; simpl; [apply propagates_ret|].
  unfold callTool, parse_json. repeat propagates_step; apply IH.
Qed.

Lemma propagates_ollama_tool_loop env this t0 tcs :
  propagates t0 (ollama_tool_loop env this tcs).
Proof.
  induction tcs as [|tc rest IH]; simpl; [apply propagates_ret|].
  unfold callTool, parse_json. repeat propagates_step; apply IH.
Qed.

Lemma propagates_processQuery env this query t0 :
  propagates t0 (processQuery env this query).
Proof.
  unfold processQuery, processQueryWithAnthropic, processQueryWithOpenAI,
    processQueryWithOllama, first_choice.
  repeat first
    [ apply propagates_anthropic_loop
    | apply propagates_openai_tool_loop
    | apply propagates_ollama_tool_loop
    | propagates_step ].
Qed.

(** Whatever outside call fails during a chat round, the round throws the
    error of that call. *)
Lemma processQuery_throws_failure env this query s ev e :
  let out := processQuery env this query s in
  ev ∈ drop (length (events s)) (events out.2) →
  event_error ev = Some e →
  out.1 = Throw e.
Proof.
  intros out Hin He.
  destruct (propagates_processQuery env this query (events s) s)
    as (log & Ht & Hr).
  { exists []. split; [by rewrite app_nil_r | constructor]. }
  fold out in Ht, Hr. rewrite Ht, drop_app_length in Hin.
  destruct out.1 as [a|e'].
  - by destruct (no_failure_elem _ _ _ Hr Hin He).
  - f_equal. symmetry. by eapply Hr.
Qed.

(** ** The handlers, run symbolically *)

Lemma getSession_run env sessionId st :
  getSession env sessionId st =
  match sessions st !! sessionId with
  | None => (Ok None, st)
  | Some session =>
      let now := date_now env (trace st) in
      let touched := set_lastActivity now session in
      (Ok (Some touched),
       {| sessions := <[sessionId := touched]> (sessions st);
          heap := heap st;
          trace := trace st ++ [EvDate now] |})
  end.
Proof.
  unfold getSession, bind, getSessions. simpl.
  by destruct (sessions st !! sessionId).
Qed.

Lemma chatHandler_run env query sessionId st :
  chatHandler env query sessionId st =
  match truthy query with
  | None =>
      (Ok {| status := 400; body := ErrorBody "Query is required" None |}, st)
  | Some query =>
      match truthy sessionId with
      | None =>
          (Ok {| status := 400;
                 body := ErrorBody
                   "SessionId is required. Please connect first using /connect endpoint"
                   None |}, st)
      | Some sessionId =>
          match sessions st !! sessionId with
          | None =>
              (Ok {| status := 404;
                     body := ErrorBody
                       "Session not found or expired. Please connect again using /connect endpoint"
                       None |}, st)
          | Some session =>
              let now := date_now env (trace st) in
              let touched := set_lastActivity now session in
              let this := sd_mcpClient session in
              let out := processQuery env this query
                           {| self := heap st !!! this;
                              events := trace st ++ [EvDate now] |} in
              let st1 log :=
                {| sessions := <[sessionId := touched]> (sessions st);
                   heap := <[this := self out.2]> (heap st);
                   trace := events out.2 ++ log |} in
              match out.1 with
              | Ok response =>
                  (Ok {| status := 200;
                         body := ChatBody response sessionId
                           (length (c_conversationHistory
                                      (heap (st1 []) !!! this))) |},
                   st1 [])
              | Throw error =>
                  if is_404 error then
                    (Ok {| status := 404;
                           body := ErrorBody
                             "Session terminated by server. Please connect again."
                             (Some true) |},
                     (removeSession env sessionId
                        (st1 [EvConsole LLog
                                "Session terminated by MCP server (404)"])).2)
                  else
                    (Ok {| status := 500;
                           body := ErrorBody "Failed to process query" None |},
                     st1 [EvConsole LError "Error processing query"])
              end
          end
      end
  end.
Proof.
  unfold chatHandler, try_catch at 1. unfold bind at 1.
  destruct (truthy query) as [q|]; [|done].
  destruct (truthy sessionId) as [sid|]; [|done].
  unfold bind at 1. rewrite getSession_run.
  destruct (sessions st !! sid) as [session|]; [|done]. simpl.
  unfold try_catch, bind, call, getConversationHistory, getThis, ret,
    log_console. simpl.
  destruct (processQuery env _ _ _) as [[response|error] s']; simpl.
  - rewrite insert_lookup_total, app_nil_r. done.
  - destruct (is_404 error); simpl; [|done].
    rewrite removeSession_run. simpl. rewrite lookup_insert_eq. simpl.
    done.
Qed.

(** ** A chat round whose first model call fails *)

Lemma processQuery_initial_failure env this query s e :
  client_ok (self s) →
  event_error (model_call_event env (self s) (events s)
                 (c_conversationHistory (self s) ++ [UserMessage query]))
  = Some e →
  processQuery env this query s
  = (Throw e,
     {| self := push_message (UserMessage query) (self s);
        events := events s
                  ++ [model_call_event env (self s) (events s)
                        (c_conversationHistory (self s)
                         ++ [UserMessage query])] |}).
Proof.
  intros (Ha & Ho & Hl). unfold model_call_event, processQuery,
    processQueryWithAnthropic, processQueryWithOpenAI, processQueryWithOllama,
    bind, getThis, modifyThis, external, throw. simpl.
  destruct (c_provider (self s)); simpl.
  - rewrite Ha. simpl.
    destruct (anthropic_messages_create env _ _ _); simpl; [done|].
    intros ?; by simplify_eq.
  - rewrite Ho. simpl. unfold tools_or_undefined. simpl.
    destruct (openai_chat_completions_create env _ _ _); simpl; [done|].
    intros ?; by simplify_eq.
  - rewrite Hl. simpl. unfold tools_or_undefined. simpl.
    destruct (ollama_chat env _ _ _); simpl; [done|].
    intros ?; by simplify_eq.
Qed.

(** Where the session does survive a failed model call: if the first model
    call of a chat round throws an error that does not carry status or
    code 404, the handler answers 500, the session stays registered (with
    its last activity touched), the history of its client is the former
    history with the user message pushed, no other client changes, and the
    session listing reports the longer history. *)
Lemma failed_model_call_keeps_session
    env st sessionId session query e :
  query ≠ "" → sessionId ≠ "" →
  state_ok st →
  sessions st !! sessionId = Some session →
  let this := sd_mcpClient session in
  let c := heap st !!! this in
  let now := date_now env (trace st) in
  event_error (model_call_event env c (trace st ++ [EvDate now])
                 (c_conversationHistory c ++ [UserMessage query]))
  = Some e →
  is_404 e = false →
  let out := chatHandler env (Some query) (Some sessionId) st in
  out.1 = Ok {| status := 500;
                body := ErrorBody "Failed to process query" None |}
  ∧ sessions out.2 = <[sessionId := set_lastActivity now session]> (sessions st)
  ∧ heap out.2 = <[this := append_history [UserMessage query] c]> (heap st)
  ∧ history_of out.2 this = history_of st this ++ [UserMessage query]
  ∧ ∃ n listing,
      (sessionsHandler out.2).1
      = Ok {| status := 200; body := SessionsBody n listing |}
      ∧ (sd_sessionId session, sd_createdAt session, now,
         sd_provider session, S (length (history_of st this)),
         map tool_name (c_tools c)) ∈ listing.
Proof.
  intros Hq Hsid Hok Hs this c now He H404 out.
  destruct (proj1 Hok _ _ Hs) as [Hlt Hc]. fold this in Hlt, Hc.
  fold c in Hc.
  subst out. rewrite chatHandler_run, !truthy_Some, Hs by done. cbv zeta.
  fold this now c. rewrite (processQuery_initial_failure _ _ _ _ e); try done.
  simpl. rewrite H404. simpl.
  assert (history_of
            {| sessions := <[sessionId:=set_lastActivity now session]>
                             (sessions st);
               heap := <[this:=push_message (UserMessage query) c]> (heap st);
               trace := (trace st ++ [EvDate now]
                         ++ [model_call_event env c (trace st ++ [EvDate now])
                               (c_conversationHistory c
                                ++ [UserMessage query])])
                        ++ [EvConsole LError "Error processing query"] |}
            this = history_of st this ++ [UserMessage query]) as Hh.
  { unfold history_of. simpl. by rewrite list_lookup_total_insert_eq. }
  repeat split; try done.
  eexists _, _. split; [reflexivity|].
  apply list_elem_of_fmap.
  exists (sessionId, set_lastActivity now session). split.
  - simpl. rewrite list_lookup_total_insert_eq by done. simpl.
    by rewrite length_app, Nat.add_1_r.
  - apply elem_of_map_to_list. simpl. apply lookup_insert_eq.
Qed.

Lemma failed_model_call_keeps_session_witness :
  state_ok (state_model_fails error_500)
  ∧ is_Some (sessions (state_model_fails error_500) !! "session-a")
  ∧ let out := chatHandler (env_model_fails error_500) (Some "hello")
                 (Some "session-a") (state_model_fails error_500) in
    out.1 = Ok {| status := 500;
                  body := ErrorBody "Failed to process query" None |}
    ∧ history_of out.2 0 = [UserMessage "hello"].
Proof.
  assert (state_ok (state_model_fails error_500)) as Hok
    by (apply (bool_decide_unpack _); vm_compute; exact I).
  assert (sessions (state_model_fails error_500) !! "session-a"
          = Some {| sd_sessionId := "session-a"; sd_mcpClient := 0;
                    sd_createdAt := 3; sd_lastActivity := 5;
                    sd_provider := anthropic |}) as Hs
    by (vm_compute; reflexivity).
  split; [exact Hok|]. split; [by eexists|].
  destruct (failed_model_call_keeps_session
              (env_model_fails error_500) (state_model_fails error_500)
              "session-a" _ "hello" error_500
              ltac:(discriminate) ltac:(discriminate) Hok Hs)
    as (Hr & _ & _ & Hh & _).
  - vm_compute. reflexivity.
  - reflexivity.
  - cbv zeta. split; [exact Hr|]. simpl in Hh. rewrite Hh.
    vm_compute. reflexivity.
Defined.

Lemma removeSession_ok env sessionId st :
  (removeSession env sessionId st).1 = Ok tt.
Proof. rewrite removeSession_run. by destruct (sessions st !! sessionId). Qed.

Lemma removeSession_sessions env sessionId st :
  sessions (removeSession env sessionId st).2 = delete sessionId (sessions st).
Proof.
  rewrite removeSession_run.
  destruct (sessions st !! sessionId) eqn:H; simpl; [done|].
  symmetry. by apply delete_id.
Qed.

Lemma disconnectHandler_run env sessionId st :
  disconnectHandler env sessionId st =
  match truthy sessionId with
  | None =>
      (Ok {| status := 400; body := ErrorBody "SessionId is required" None |},
       st)
  | Some sessionId =>
      match sessions st !! sessionId with
      | None =>
          (Ok {| status := 404; body := ErrorBody "Session not found" None |},
           st)
      | Some session =>
          let now := date_now env (trace st) in
          (Ok {| status := 200;
                 body := DisconnectBody "Session disconnected successfully"
                                        sessionId |},
           (removeSession env sessionId
              {| sessions := <[sessionId := set_lastActivity now session]>
                               (sessions st);
                 heap := heap st;
                 trace := trace st ++ [EvDate now] |}).2)
      end
  end.
Proof.
  unfold disconnectHandler, try_catch at 1. unfold bind at 1.
  destruct (truthy sessionId) as [sid|]; [|done].
  unfold bind at 1. rewrite getSession_run.
  destruct (sessions st !! sid) as [session|]; [|done]. simpl.
  unfold bind.
  pose proof (removeSession_ok env sid
    {| sessions := <[sid:=set_lastActivity (date_now env (trace st)) session]>
                     (sessions st);
       heap := heap st;
       trace := trace st ++ [EvDate (date_now env (trace st))] |}) as Hr.
  destruct (removeSession env sid _) as [[[]|e] st']; simpl in *; done.
Qed.

(** Only a connect can register a session id. *)
Lemma handle_keeps_unregistered env r st k :
  is_connect_request r = false →
  sessions st !! k = None →
  sessions (handle env r st).2 !! k = None.
Proof.
  intros Hr Hk. destruct r as [| |query sessionId|sessionId|]; try done;
    simpl.
  - rewrite chatHandler_run.
    destruct (truthy query) as [q|]; [|done].
    destruct (truthy sessionId) as [sid|]; [|done].
    destruct (sessions st !! sid) as [session|] eqn:Hs; [|done].
    assert (sid ≠ k) as Hne by congruence. cbv zeta.
    destruct (processQuery env _ _ _).1 as [response|error]; simpl.
    + by rewrite lookup_insert_ne.
    + destruct (is_404 error); simpl.
      * rewrite removeSession_sessions. simpl.
        by rewrite lookup_delete_ne, lookup_insert_ne.
      * by rewrite lookup_insert_ne.
  - rewrite disconnectHandler_run.
    destruct (truthy sessionId) as [sid|]; [|done].
    destruct (sessions st !! sid) as [session|] eqn:Hs; [|done].
    assert (sid ≠ k) as Hne by congruence. cbv zeta. simpl.
    rewrite removeSession_sessions. simpl.
    by rewrite lookup_delete_ne, lookup_insert_ne.
Qed.

Lemma serve_keeps_unregistered env rs st k :
  Forall (λ r, is_connect_request r = false) rs →
  sessions st !! k = None →
  sessions (serve env rs st) !! k = None.
Proof.
  intros Hrs. revert st. induction Hrs as [|r rs Hr _ IH]; intros st Hk.
  - done.
  - simpl. apply IH. by apply handle_keeps_unregistered.
Qed.

Lemma chat_unregistered env query sessionId st :
  query ≠ "" → sessionId ≠ "" →
  sessions st !! sessionId = None →
  chatHandler env (Some query) (Some sessionId) st
  = (Ok {| status := 404;
           body := ErrorBody
             "Session not found or expired. Please connect again using /connect endpoint"
             None |}, st).
Proof.
  intros Hq Hsid Hs. by rewrite chatHandler_run, !truthy_Some, Hs.
Qed.

Lemma chat_frame_events this s s' :
  chat_frame this s s' →
  ∃ log, events s' = events s ++ log
         ∧ Forall (λ ev, is_chat_event this ev = true) log.
Proof. by intros [_ H]. Qed.

(** C3, amended: when a tool invocation of a chat call fails with status
    or code 404, the handler answers 404 with [requiresReconnect: true]
    and the session is no longer registered; every later chat against
    that id, as long as no connect has been handled in between, answers
    404 "Session not found or expired" -- without a [requiresReconnect]
    field. *)
Theorem tool_404_removes_session env st sessionId query e :
  query ≠ "" → sessionId ≠ "" →
  let out := chatHandler env (Some query) (Some sessionId) st in
  (∃ a name args,
     EvCallTool a name args (Throw e) ∈ new_events st out.2) →
  is_404 e = true →
  out.1 = Ok {| status := 404;
                body := ErrorBody
                  "Session terminated by server. Please connect again."
                  (Some true) |}
  ∧ sessions out.2 !! sessionId = None
  ∧ ∀ rs query',
      Forall (λ r, is_connect_request r = false) rs → query' ≠ "" →
      (chatHandler env (Some query') (Some sessionId)
                   (serve env rs out.2)).1
      = Ok {| status := 404;
              body := ErrorBody
                "Session not found or expired. Please connect again using /connect endpoint"
                None |}.
Proof.
  intros Hq Hsid out (a & name & args & Hin) H404.
  assert (out.1 = Ok {| status := 404;
                        body := ErrorBody
                          "Session terminated by server. Please connect again."
                          (Some true) |}
          ∧ sessions out.2 !! sessionId = None) as [Hr Hs].
  { subst out. revert Hin.
    rewrite chatHandler_run, !truthy_Some by done.
    destruct (sessions st !! sessionId) as [session|] eqn:Hs.
    2:{ simpl. rewrite new_events_refl. by intros ?%elem_of_nil. }
    cbv zeta.
    set (now := date_now env (trace st)).
    set (this := sd_mcpClient session).
    set (s0 := {| self := heap st !!! this;
                  events := trace st ++ [EvDate now] |}).
    pose proof (processQuery_throws_failure env this query s0) as Hthrow.
    destruct (chat_frame_events _ _ _ (processQuery_frame env this query s0))
      as (log & Hlog & _).
    cbv zeta in Hthrow. rewrite Hlog, drop_app_length in Hthrow.
    assert (EvCallTool a name args (Throw e) ∈ log →
            (processQuery env this query s0).1 = Throw e) as Hlog_throw.
    { intros Hin. by eapply Hthrow. }
    destruct (processQuery env this query s0).1 as [response|error] eqn:Hout.
    - simpl. erewrite new_events_app
        by (rewrite Hlog, app_nil_r; simpl; rewrite <- app_assoc; reflexivity).
      intros [Hd|Hin]%elem_of_cons; [done|].
      by specialize (Hlog_throw Hin).
    - destruct (is_404 error) eqn:Herr; simpl.
      + intros _. split; [done|].
        rewrite removeSession_sessions. simpl. apply lookup_delete_eq.
      + erewrite new_events_app
          by (rewrite Hlog; simpl; rewrite <- !app_assoc; reflexivity).
        simpl. intros [Hd|Hin]%elem_of_cons; [done|].
        apply elem_of_app in Hin as [Hin|Hin].
        * specialize (Hlog_throw Hin). congruence.
        * by apply list_elem_of_singleton in Hin. }
  split; [done|]. split; [done|].
  intros rs query' Hrs Hq'.
  rewrite chat_unregistered; try done.
  by apply serve_keeps_unregistered.
Qed.

Lemma tool_404_removes_session_witness :
  let out := chatHandler env_tool_404 (Some "find cats") (Some "session-a")
               state_tool_404 in
  EvCallTool 0 "search" "{q:cats}" (Throw error_404)
    ∈ new_events state_tool_404 out.2
  ∧ is_404 error_404 = true
  ∧ out.1 = Ok {| status := 404;
                  body := ErrorBody
                    "Session terminated by server. Please connect again."
                    (Some true) |}
  ∧ sessions out.2 !! "session-a" = None.
Proof.
  assert (EvCallTool 0 "search" "{q:cats}" (Throw error_404)
            ∈ new_events state_tool_404
                (chatHandler env_tool_404 (Some "find cats")
                   (Some "session-a") state_tool_404).2) as Hin.
  { vm_compute. do 2 apply list_elem_of_further. apply list_elem_of_here. }
  destruct (tool_404_removes_session env_tool_404 state_tool_404
              "session-a" "find cats" error_404
              ltac:(discriminate) ltac:(discriminate)
              (ex_intro _ 0 (ex_intro _ "search"
                 (ex_intro _ "{q:cats}" Hin)))
              eq_refl) as (Hr & Hs & _).
  cbv zeta. split; [exact Hin|]. split; [reflexivity|].
  split; [exact Hr | exact Hs].
Defined.

(** C3 as stated fails in its last part: after the 404-triggered removal,
    the next chat against the same id answers 404 "Session not found or
    expired" and its body has no [requiresReconnect] flag. *)
Lemma chat_after_tool_404_has_no_flag :
  let st1 := (chatHandler env_tool_404 (Some "find cats")
                (Some "session-a") state_tool_404).2 in
  let out := chatHandler env_tool_404 (Some "find cats")
               (Some "session-a") st1 in
  EvCallTool 0 "search" "{q:cats}" (Throw error_404)
    ∈ new_events state_tool_404 st1
  ∧ out.1 = Ok {| status := 404;
                  body := ErrorBody
                    "Session not found or expired. Please connect again using /connect endpoint"
                    None |}
  ∧ ¬ ∃ text, out.1 = Ok {| status := 404;
                            body := ErrorBody text (Some true) |}.
Proof.
  cbv zeta. split; [|split].
  - vm_compute. do 2 apply list_elem_of_further. apply list_elem_of_here.
  - vm_compute. reflexivity.
  - intros [text H]. vm_compute in H. discriminate H.
Qed.

(** ** Chat rounds that run to their end *)

Lemma bind_ok_inv {S A B} (c : M S A) (k : A → M S B) s r s' :
  bind c k s = (Ok r, s') →
  ∃ a s1, c s = (Ok a, s1) ∧ k a s1 = (Ok r, s').
Proof.
  unfold bind. destruct (c s) as [[a|e] s1]; [|done].
  intros H. by exists a, s1.
Qed.

Lemma push_message_append m c : push_message m c = append_history [m] c.
Proof. done. Qed.

Lemma anthropic_loop_ok env this blocks acc s r s' :
  anthropic_loop env this blocks acc s = (Ok r, s') →
  ∃ hs log,
    self s' = append_history hs (self s)
    ∧ events s' = events s ++ log
    ∧ anthropic_rounds this (tool_uses blocks) hs log.
Proof.
  revert acc s. induction blocks as [|b rest IH]; intros acc s; simpl.
  - intros [= <- <-]. exists [], [].
    rewrite append_history_nil, app_nil_r. repeat split. constructor.
  - destruct b as [text|id name input|type]; simpl; [by apply IH| |by apply IH].
    unfold bind, callTool, external, modifyThis, getThis. simpl.
    destruct (mcp_callTool env _ _ _ _) as [result|e]; simpl; [|done].
    destruct (anthropic_messages_create env _ _ _) as [followup|e]; simpl;
      [|done].
    intros (hs & log & Hh & Ht & Hr)%IH. simpl in Hh, Ht.
    eexists (_ :: _ :: hs), (_ :: _ :: log).
    split; [|split; [|by constructor]].
    + rewrite Hh, !push_message_append, !append_history_app. reflexivity.
    + rewrite Ht, <- !app_assoc. done.
Qed.

Lemma processQueryWithAnthropic_ok env this query s r s' :
  processQueryWithAnthropic env this query s = (Ok r, s') →
  ∃ h tools response hs log,
    self s' = append_history
                (UserMessage query :: AnthropicAssistant response :: hs)
                (self s)
    ∧ events s' = events s
                  ++ EvAnthropicCreate h tools (Ok response) :: log
    ∧ anthropic_rounds this (tool_uses response) hs log.
Proof.
  unfold processQueryWithAnthropic, bind, getThis, modifyThis, external,
    throw. simpl.
  destruct (c_anthropic (self s)); simpl; [|done].
  destruct (anthropic_messages_create env _ _ _) as [response|e]; simpl;
    [|done].
  intros (hs & log & Hh & Ht & Hr)%anthropic_loop_ok. simpl in Hh, Ht.
  eexists _, _, response, hs, log. split; [|split; [|done]].
  - rewrite Hh, !push_message_append, !append_history_app. reflexivity.
  - rewrite Ht, <- app_assoc. reflexivity.
Qed.

Lemma openai_tool_loop_ok env this tool_calls s s' :
  openai_tool_loop env this tool_calls s = (Ok tt, s') →
  ∃ hs log,
    self s' = append_history hs (self s)
    ∧ events s' = events s ++ log
    ∧ openai_rounds env this tool_calls hs log.
Proof.
  revert s. induction tool_calls as [|tc rest IH]; intros s; simpl.
  - intros [= <-]. exists [], [].
    rewrite append_history_nil, app_nil_r. repeat split. constructor.
  - unfold bind, parse_json, callTool, external, modifyThis, ret, throw.
    destruct (JSON_parse env (oa_arguments tc)) as [args|] eqn:Hp; simpl;
      [|done].
    destruct (mcp_callTool env _ _ _ _) as [result|e]; simpl; [|done].
    intros (hs & log & Hh & Ht & Hr)%IH. simpl in Hh, Ht.
    eexists (_ :: hs), (_ :: log). split; [|split; [|by econstructor]].
    + rewrite Hh, !push_message_append, !append_history_app. reflexivity.
    + rewrite Ht, <- !app_assoc. done.
Qed.

Lemma ollama_tool_loop_ok env this tool_calls s s' :
  ollama_tool_loop env this tool_calls s = (Ok tt, s') →
  ∃ hs log,
    self s' = append_history hs (self s)
    ∧ events s' = events s ++ log
    ∧ ollama_rounds env this tool_calls hs log.
Proof.
  revert s. induction tool_calls as [|tc rest IH]; intros s; simpl.
  - intros [= <-]. exists [], [].
    rewrite append_history_nil, app_nil_r. repeat split. constructor.
  - unfold bind at 1.
    assert (∃ o, ollama_args env tc = o
                 ∧ (match ol_arguments tc with
                    | ArgString s0 => parse_json env s0
                    | ArgObject j => ret j
                    end) s
                   = (match o with
                      | Some args => Ok args
                      | None => Throw (js_error "SyntaxError")
                      end, s)) as (o & Ho & ->).
    { unfold ollama_args, parse_json. eexists. split; [done|].
      destruct (ol_arguments tc) as [str|j]; [|done].
      by destruct (JSON_parse env str). }
    destruct o as [args|]; [|done].
    unfold bind, callTool, external, modifyThis. simpl.
    destruct (mcp_callTool env _ _ _ _) as [result|e]; simpl; [|done].
    intros (hs & log & Hh & Ht & Hr)%IH. simpl in Hh, Ht.
    eexists (_ :: hs), (_ :: log). split; [|split; [|by econstructor]].
    + rewrite Hh, !push_message_append, !append_history_app. reflexivity.
    + rewrite Ht, <- !app_assoc. done.
Qed.

Lemma external_ok_inv {A} (oracle : list Event → Outcome A) ev s a s' :
  external oracle ev s = (Ok a, s') →
  oracle (events s) = Ok a
  ∧ s' = {| self := self s; events := events s ++ [ev (Ok a)] |}.
Proof.
  unfold external. destruct (oracle (events s)) as [a'|e] eqn:H; [|done].
  by intros [= <- <-].
Qed.

Lemma processQueryWithOpenAI_ok env this query s r s' :
  processQueryWithOpenAI env this query s = (Ok r, s') →
  ∃ h tools message choices hs log,
    self s' = append_history
                (UserMessage query
                 :: OpenAIAssistant (oam_content message)
                                    (oam_tool_calls message) :: hs)
                (self s)
    ∧ events s' = events s
                  ++ EvOpenAICreate h tools (Ok (message :: choices)) :: log
    ∧ match oam_tool_calls message with
      | Some (toolCall :: rest) =>
          ∃ hs1 log1 h' tools' followup choices',
            hs = hs1 ++ [OpenAIAssistant (oam_content followup)
                                         (oam_tool_calls followup)]
            ∧ log = log1 ++ [EvOpenAICreate h' tools'
                               (Ok (followup :: choices'))]
            ∧ openai_rounds env this (toolCall :: rest) hs1 log1
      | _ => hs = [] ∧ log = []
      end.
Proof.
  intros H. unfold processQueryWithOpenAI in H.
  apply bind_ok_inv in H as (c0 & s0 & [= <- <-] & H).
  destruct (c_openai (self s)); cbn [negb] in H; [|done].
  apply bind_ok_inv in H as ([] & s1 & [= <-] & H).
  apply bind_ok_inv in H as (c & s2 & [= <- <-] & H).
  apply bind_ok_inv in H as (response & s3 & [Hcall ->]%external_ok_inv & H).
  apply bind_ok_inv in H as (message & s4 & Hfirst & H).
  destruct response as [|m choices]; [done|]. injection Hfirst as -> <-.
  apply bind_ok_inv in H as ([] & s5 & [= <-] & H). cbn [self events] in H.
  destruct (oam_tool_calls message) as [tcs|] eqn:Htc.
  2:{ injection H as <- <-. eexists _, _, message, choices, [], [].
      rewrite Htc. cbn [self events].
      by rewrite !push_message_append, !append_history_app. }
  case_bool_decide as Hlen.
  2:{ injection H as <- <-. eexists _, _, message, choices, [], [].
      rewrite Htc. destruct tcs; [|simpl in Hlen; lia]. cbn [self events].
      by rewrite !push_message_append, !append_history_app. }
  apply bind_ok_inv in H as ([] & s6 & Hloop & H).
  apply openai_tool_loop_ok in Hloop as (hs1 & log1 & Hh & Ht & Hr).
  cbn [self events] in Hh, Ht.
  apply bind_ok_inv in H as (c' & s7 & [= <- <-] & H).
  apply bind_ok_inv in H as (response' & s8 & [Hcall' ->]%external_ok_inv & H).
  apply bind_ok_inv in H as (followup & s9 & Hfirst & H).
  destruct response' as [|m' choices']; [done|]. injection Hfirst as -> <-.
  apply bind_ok_inv in H as ([] & s10 & [= <-] & H). injection H as <- <-.
  cbn [self events].
  eexists _, _, message, choices, _, _. rewrite Htc.
  destruct tcs as [|tc rest]; [simpl in Hlen; lia|].
  split; [|split; [|eexists hs1, log1, _, _, followup, choices'; by split]].
  - rewrite Hh, !push_message_append, !append_history_app. reflexivity.
  - rewrite Ht, <- !app_assoc. reflexivity.
Qed.

Lemma processQueryWithOllama_ok env this query s r s' :
  processQueryWithOllama env this query s = (Ok r, s') →
  ∃ h tools message hs log,
    self s' = append_history
                (UserMessage query
                 :: OllamaAssistant (olm_content message)
                                    (olm_tool_calls message) :: hs)
                (self s)
    ∧ events s' = events s ++ EvOllamaChat h tools (Ok message) :: log
    ∧ match olm_tool_calls message with
      | Some (toolCall :: rest) =>
          ∃ hs1 log1 h' tools' followup,
            hs = hs1 ++ [OllamaAssistant (olm_content followup)
                                         (olm_tool_calls followup)]
            ∧ log = log1 ++ [EvOllamaChat h' tools' (Ok followup)]
            ∧ ollama_rounds env this (toolCall :: rest) hs1 log1
      | _ => hs = [] ∧ log = []
      end.
Proof.
  intros H. unfold processQueryWithOllama in H.
  apply bind_ok_inv in H as (c0 & s0 & [= <- <-] & H).
  destruct (c_ollama (self s)); cbn [negb] in H; [|done].
  apply bind_ok_inv in H as ([] & s1 & [= <-] & H).
  apply bind_ok_inv in H as (c & s2 & [= <- <-] & H).
  apply bind_ok_inv in H as (message & s3 & [Hcall ->]%external_ok_inv & H).
  apply bind_ok_inv in H as ([] & s5 & [= <-] & H). cbn [self events] in H.
  destruct (olm_tool_calls message) as [tcs|] eqn:Htc.
  2:{ injection H as <- <-. eexists _, _, message, [], [].
      rewrite Htc. cbn [self events].
      by rewrite !push_message_append, !append_history_app. }
  case_bool_decide as Hlen.
  2:{ injection H as <- <-. eexists _, _, message, [], [].
      rewrite Htc. destruct tcs; [|simpl in Hlen; lia]. cbn [self events].
      by rewrite !push_message_append, !append_history_app. }
  apply bind_ok_inv in H as ([] & s6 & Hloop & H).
  apply ollama_tool_loop_ok in Hloop as (hs1 & log1 & Hh & Ht & Hr).
  cbn [self events] in Hh, Ht.
  apply bind_ok_inv in H as (c' & s7 & [= <- <-] & H).
  apply bind_ok_inv in H as (followup & s8 & [Hcall' ->]%external_ok_inv & H).
  apply bind_ok_inv in H as ([] & s10 & [= <-] & H). injection H as <- <-.
  cbn [self events].
  eexists _, _, message, _, _. rewrite Htc.
  destruct tcs as [|tc rest]; [simpl in Hlen; lia|].
  split; [|split; [|eexists hs1, log1, _, _, followup; by split]].
  - rewrite Hh, !push_message_append, !append_history_app. reflexivity.
  - rewrite Ht, <- !app_assoc. reflexivity.
Qed.

Lemma processQuery_unfold env this query s :
  processQuery env this query s
  = match c_provider (self s) with
    | anthropic => processQueryWithAnthropic env this query s
    | openai => processQueryWithOpenAI env this query s
    | ollama => processQueryWithOllama env this query s
    end.
Proof.
  unfold processQuery, bind, getThis. simpl.
  by destruct (c_provider (self s)).
Qed.

(** ** One follow-up call per tool request on the Anthropic path *)

Lemma anthropic_rounds_counts this uses hs log :
  anthropic_rounds this uses hs log →
  count_log is_model_call log = length uses
  ∧ count_log is_tool_call log = length uses
  ∧ length hs = 2 * length uses.
Proof.
  induction 1 as [|? ? ? ? ? ? ? ? ? ? _ (IH1 & IH2 & IH3)]; [done|].
  rewrite !count_log_cons. simpl. rewrite IH1, IH2, IH3. lia.
Qed.

Lemma openai_rounds_counts env this tool_calls hs log :
  openai_rounds env this tool_calls hs log →
  count_log is_model_call log = 0
  ∧ count_log is_tool_call log = length tool_calls
  ∧ length hs = length tool_calls.
Proof.
  induction 1 as [|? ? ? ? ? ? _ _ (IH1 & IH2 & IH3)]; [done|].
  rewrite !count_log_cons. simpl. rewrite IH1, IH2, IH3. lia.
Qed.

Lemma ollama_rounds_counts env this tool_calls hs log :
  ollama_rounds env this tool_calls hs log →
  count_log is_model_call log = 0
  ∧ count_log is_tool_call log = length tool_calls
  ∧ length hs = length tool_calls.
Proof.
  induction 1 as [|? ? ? ? ? ? _ _ (IH1 & IH2 & IH3)]; [done|].
  rewrite !count_log_cons. simpl. rewrite IH1, IH2, IH3. lia.
Qed.

(** On the Anthropic path a round that runs to its end calls the model
    once more after every tool request: with [n] requests in the initial
    response it logs [1 + n] model calls and pushes [2 + 2 n] messages. *)
Lemma anthropic_followup_per_request env this query s r s' :
  processQueryWithAnthropic env this query s = (Ok r, s') →
  ∃ n, initial_tool_requests (drop (length (events s)) (events s')) = Some n
       ∧ count_log is_model_call (drop (length (events s)) (events s'))
         = 1 + n
       ∧ count_log is_tool_call (drop (length (events s)) (events s')) = n
       ∧ length (c_conversationHistory (self s'))
         = length (c_conversationHistory (self s)) + 2 + 2 * n.
Proof.
  intros (h & tools & answer & hs & log & Hh & Ht & Hr)
    %processQueryWithAnthropic_ok.
  apply anthropic_rounds_counts in Hr as (H1 & H2 & H3).
  exists (length (tool_uses answer)).
  rewrite Ht, drop_app_length, !count_log_cons, H1, H2, Hh. simpl.
  rewrite length_app. simpl. rewrite H3. repeat split; lia.
Qed.

(** On the OpenAI path every tool call of the initial response is run, in
    order, and a single follow-up call is made after the last of them. *)
Lemma openai_single_followup env this query s r s' n :
  processQueryWithOpenAI env this query s = (Ok r, s') →
  initial_tool_requests (drop (length (events s)) (events s')) = Some (S n) →
  count_log is_model_call (drop (length (events s)) (events s')) = 2
  ∧ count_log is_tool_call (drop (length (events s)) (events s')) = S n
  ∧ length (c_conversationHistory (self s'))
    = length (c_conversationHistory (self s)) + 2 + S n + 1.
Proof.
  intros (h & tools & message & choices & hs & log & Hh & Ht & Hr)
    %processQueryWithOpenAI_ok.
  rewrite Ht, drop_app_length. unfold initial_tool_requests. simpl.
  intros [= Hn].
  destruct (oam_tool_calls message) as [[|tc rest]|]; try done.
  destruct Hr as (hs1 & log1 & h' & tools' & followup & choices'
                  & -> & -> & Hr).
  apply openai_rounds_counts in Hr as (H1 & H2 & H3).
  rewrite !count_log_cons, !count_log_app, !count_log_cons, H1, H2, Hh.
  simpl in *. rewrite !length_app. simpl. rewrite length_app, H3. simpl.
  rewrite !count_log_nil. repeat split; lia.
Qed.

Lemma ollama_single_followup env this query s r s' n :
  processQueryWithOllama env this query s = (Ok r, s') →
  initial_tool_requests (drop (length (events s)) (events s')) = Some (S n) →
  count_log is_model_call (drop (length (events s)) (events s')) = 2
  ∧ count_log is_tool_call (drop (length (events s)) (events s')) = S n
  ∧ length (c_conversationHistory (self s'))
    = length (c_conversationHistory (self s)) + 2 + S n + 1.
Proof.
  intros (h & tools & message & hs & log & Hh & Ht & Hr)
    %processQueryWithOllama_ok.
  rewrite Ht, drop_app_length. unfold initial_tool_requests. simpl.
  intros [= Hn].
  destruct (olm_tool_calls message) as [[|tc rest]|]; try done.
  destruct Hr as (hs1 & log1 & h' & tools' & followup & -> & -> & Hr).
  apply ollama_rounds_counts in Hr as (H1 & H2 & H3).
  rewrite !count_log_cons, !count_log_app, !count_log_cons, H1, H2, Hh.
  simpl in *. rewrite !length_app. simpl. rewrite length_app, H3. simpl.
  rewrite !count_log_nil. repeat split; lia.
Qed.

(** C1 fails on the Anthropic path.  With two tool requests in the initial
    response, the round calls the model three times: the first follow-up
    is sent after the first tool result, before the second tool has run,
    and a second follow-up after the second tool result. *)
Theorem anthropic_two_requests_two_followups :
  let s := self_connected env_two_tools anthropic in
  let out := processQuery env_two_tools 0 "find pets" s in
  let tools := [AnthropicTool "search" "Search the catalogue"
                              "{type:object}"] in
  let request := AnthropicAssistant
                   [ToolUseBlock "toolu_1" "search" "{q:cats}";
                    ToolUseBlock "toolu_2" "search" "{q:dogs}"] in
  initial_tool_requests (drop (length (events s)) (events out.2)) = Some 2
  ∧ out.1 = Ok "Found some.Found some."
  ∧ drop (length (events s)) (events out.2)
    = [EvAnthropicCreate [UserMessage "find pets"] tools
         (Ok [ToolUseBlock "toolu_1" "search" "{q:cats}";
              ToolUseBlock "toolu_2" "search" "{q:dogs}"]);
       EvCallTool 0 "search" "{q:cats}" (Ok "3 cats");
       EvAnthropicCreate
         [UserMessage "find pets"; request;
          AnthropicToolResult "toolu_1" "3 cats"] tools
         (Ok [TextBlock "Found some."]);
       EvCallTool 0 "search" "{q:dogs}" (Ok "2 dogs");
       EvAnthropicCreate
         [UserMessage "find pets"; request;
          AnthropicToolResult "toolu_1" "3 cats";
          AnthropicAssistant [TextBlock "Found some."];
          AnthropicToolResult "toolu_2" "2 dogs"] tools
         (Ok [TextBlock "Found some."])]
  ∧ count_log is_model_call (drop (length (events s)) (events out.2)) = 3.
Proof. cbv zeta. repeat split; vm_compute; reflexivity. Qed.

(** The same two requests on the OpenAI path: both tools run, then one
    follow-up call. *)
Lemma openai_two_requests_one_followup :
  let s := self_connected env_two_tools openai in
  let out := processQuery env_two_tools 0 "find pets" s in
  initial_tool_requests (drop (length (events s)) (events out.2)) = Some 2
  ∧ out.1 = Ok "Found some."
  ∧ map (λ ev, (is_model_call ev, is_tool_call ev))
        (drop (length (events s)) (events out.2))
    = [(true, false); (false, true); (false, true); (true, false)].
Proof. cbv zeta. repeat split; vm_compute; reflexivity. Qed.

(** ** A chat round keeps tool results behind their requests *)

Lemma results_preceded_nil : results_preceded [].
Proof. intros i m id H. by rewrite lookup_nil in H. Qed.

Lemma results_preceded_snoc h m :
  results_preceded h →
  (∀ id, result_id m = Some id → requested h id) →
  results_preceded (h ++ [m]).
Proof.
  intros Hh Hm i m0 id Hi Hid.
  destruct (decide (i < length h)) as [Hlt|Hge].
  - rewrite lookup_app_l in Hi by done.
    destruct (Hh i m0 id Hi Hid) as (j & m' & Hj & Hlook & Hin).
    exists j, m'. split; [done|]. split; [|done].
    rewrite lookup_app_l by lia. done.
  - rewrite lookup_app_r in Hi by lia.
    destruct (i - length h) as [|n] eqn:Hn; simplify_eq/=.
    destruct (Hm id Hid) as (m' & Hin & Hreq).
    apply list_elem_of_lookup in Hin as [j Hj].
    exists j, m'. pose proof (lookup_lt_Some _ _ _ Hj).
    split; [lia|]. split; [|done]. by rewrite lookup_app_l.
Qed.

Lemma requested_snoc h m id : requested h id → requested (h ++ [m]) id.
Proof.
  intros (m' & Hin & Hreq). exists m'. split; [|done].
  apply elem_of_app. by left.
Qed.

Lemma requested_last h m id : id ∈ request_ids m → requested (h ++ [m]) id.
Proof.
  intros Hreq. exists m. split; [|done].
  apply elem_of_app. right. by apply list_elem_of_singleton.
Qed.

Lemma results_preceded_push h m :
  results_preceded h → result_id m = None → results_preceded (h ++ [m]).
Proof.
  intros Hh Hm. apply results_preceded_snoc; [done|]. intros id. congruence.
Qed.

Lemma anthropic_loop_hist env this blocks acc s :
  hist_ok s →
  (∀ u, u ∈ tool_uses blocks →
        requested (c_conversationHistory (self s)) u.1.1) →
  hist_ok (anthropic_loop env this blocks acc s).2.
Proof.
  revert acc s. induction blocks as [|b rest IH]; intros acc s Hok Hreq;
    simpl; [done|].
  destruct b as [text|id name input|type]; simpl in *;
    [by apply IH | | by apply IH].
  unfold bind, callTool, external, modifyThis, getThis. simpl.
  destruct (mcp_callTool env _ _ _ _) as [result|e]; simpl; [|done].
  destruct (anthropic_messages_create env _ _ _) as [followup|e]; simpl.
  - apply IH.
    + unfold hist_ok. simpl. apply results_preceded_push; [|done].
      apply results_preceded_snoc; [done|]. simpl. intros ? [= <-].
      apply (Hreq (id, name, input)). apply list_elem_of_here.
    + simpl. intros u Hu. do 2 apply requested_snoc.
      apply Hreq. by apply list_elem_of_further.
  - unfold hist_ok. simpl.
    apply results_preceded_snoc; [done|]. simpl. intros ? [= <-].
    apply (Hreq (id, name, input)). apply list_elem_of_here.
Qed.

Lemma openai_tool_loop_hist env this tool_calls s :
  hist_ok s →
  (∀ tc, tc ∈ tool_calls →
         requested (c_conversationHistory (self s)) (oa_id tc)) →
  hist_ok (openai_tool_loop env this tool_calls s).2.
Proof.
  revert s. induction tool_calls as [|tc rest IH]; intros s Hok Hreq;
    simpl; [done|].
  unfold bind, parse_json, callTool, external, modifyThis, ret, throw.
  destruct (JSON_parse env (oa_arguments tc)); simpl; [|done].
  destruct (mcp_callTool env _ _ _ _) as [result|e]; simpl; [|done].
  apply IH.
  - unfold hist_ok. simpl. apply results_preceded_snoc; [done|]. simpl.
    intros ? [= <-]. apply Hreq, list_elem_of_here.
  - simpl. intros tc' Hin. apply requested_snoc, Hreq.
    by apply list_elem_of_further.
Qed.

Lemma ollama_tool_loop_hist env this tool_calls s :
  hist_ok s →
  (∀ tc, tc ∈ tool_calls →
         requested (c_conversationHistory (self s)) (ollama_call_id tc)) →
  hist_ok (ollama_tool_loop env this tool_calls s).2.
Proof.
  revert s. induction tool_calls as [|tc rest IH]; intros s Hok Hreq;
    simpl; [done|].
  unfold bind at 1.
  assert (∃ o, (match ol_arguments tc with
                | ArgString s0 => parse_json env s0
                | ArgObject j => ret j
                end) s = (o, s)) as [o ->].
  { unfold parse_json. destruct (ol_arguments tc) as [str|j];
      [destruct (JSON_parse env str)|]; by eexists. }
  destruct o as [args|e]; [|done].
  unfold bind, callTool, external, modifyThis. simpl.
  destruct (mcp_callTool env _ _ _ _) as [result|e]; simpl; [|done].
  apply IH.
  - unfold hist_ok. simpl. apply results_preceded_snoc; [done|]. simpl.
    intros ? [= <-]. apply Hreq, list_elem_of_here.
  - simpl. intros tc' Hin. apply requested_snoc, Hreq.
    by apply list_elem_of_further.
Qed.

Lemma processQuery_hist env this query s :
  hist_ok s → hist_ok (processQuery env this query s).2.
Proof.
  intros Hok. rewrite processQuery_unfold.
  destruct (c_provider (self s)).
  - unfold processQueryWithAnthropic, bind, getThis, modifyThis, external,
      throw. simpl.
    destruct (c_anthropic (self s)); simpl; [|done].
    destruct (anthropic_messages_create env _ _ _) as [response|e]; simpl.
    + apply anthropic_loop_hist.
      * unfold hist_ok. simpl. by repeat (apply results_preceded_push; [|done]).
      * simpl. intros u Hu. apply requested_last. simpl.
        apply list_elem_of_fmap. by exists u.
    + unfold hist_ok. simpl. by apply results_preceded_push.
  - unfold processQueryWithOpenAI, bind, getThis, modifyThis, external,
      first_choice, ret, throw. simpl.
    destruct (c_openai (self s)); simpl; [|done].
    destruct (openai_chat_completions_create env _ _ _)
      as [[|message choices]|e]; simpl;
      try (unfold hist_ok; simpl; by apply results_preceded_push).
    assert (hist_ok
              {| self := push_message
                           (OpenAIAssistant (oam_content message)
                                            (oam_tool_calls message))
                           (push_message (UserMessage query) (self s));
                 events := events s
                   ++ [EvOpenAICreate
                         (c_conversationHistory (self s)
                          ++ [UserMessage query])
                         (tools_or_undefined
                            (push_message (UserMessage query) (self s)))
                         (Ok (message :: choices))] |}) as Hok2.
    { unfold hist_ok. simpl. by repeat (apply results_preceded_push; [|done]). }
    destruct (oam_tool_calls message) as [tcs|] eqn:Htc; [|done].
    case_bool_decide; [|done].
    match goal with
    | |- context [openai_tool_loop env this tcs ?s1] =>
        pose proof (openai_tool_loop_hist env this tcs s1 Hok2) as Hloop;
        destruct (openai_tool_loop env this tcs s1) as [[[]|e] s2]
    end; simpl in *.
    + assert (hist_ok s2) as Hs2.
      { apply Hloop. intros tc Hin. apply requested_last. simpl.
        apply list_elem_of_fmap. by exists tc. }
      destruct (openai_chat_completions_create env _ _ _)
        as [[|followup choices']|e']; simpl; try done.
      unfold hist_ok. simpl. by apply results_preceded_push.
    + apply Hloop. intros tc Hin. apply requested_last. simpl.
      apply list_elem_of_fmap. by exists tc.
  - unfold processQueryWithOllama, bind, getThis, modifyThis, external,
      ret, throw. simpl.
    destruct (c_ollama (self s)); simpl; [|done].
    destruct (ollama_chat env _ _ _) as [message|e]; simpl;
      try (unfold hist_ok; simpl; by apply results_preceded_push).
    assert (hist_ok
              {| self := push_message
                           (OllamaAssistant (olm_content message)
                                            (olm_tool_calls message))
                           (push_message (UserMessage query) (self s));
                 events := events s
                   ++ [EvOllamaChat
                         (c_conversationHistory (self s)
                          ++ [UserMessage query])
                         (tools_or_undefined
                            (push_message (UserMessage query) (self s)))
                         (Ok message)] |}) as Hok2.
    { unfold hist_ok. simpl. by repeat (apply results_preceded_push; [|done]). }
    destruct (olm_tool_calls message) as [tcs|] eqn:Htc; [|done].
    case_bool_decide; [|done].
    match goal with
    | |- context [ollama_tool_loop env this tcs ?s1] =>
        pose proof (ollama_tool_loop_hist env this tcs s1 Hok2) as Hloop;
        destruct (ollama_tool_loop env this tcs s1) as [[[]|e] s2]
    end; simpl in *.
    + assert (hist_ok s2) as Hs2.
      { apply Hloop. intros tc Hin. apply requested_last. simpl.
        apply list_elem_of_fmap. by exists tc. }
      destruct (ollama_chat env _ _ _) as [followup|e']; simpl; try done.
      unfold hist_ok. simpl. by apply results_preceded_push.
    + apply Hloop. intros tc Hin. apply requested_last. simpl.
      apply list_elem_of_fmap. by exists tc.
Qed.

(** ** What creating a session does *)

Lemma fresh_constructed apiToken provider :
  fresh_client (constructed apiToken provider).
Proof. split; [done|]. by destruct provider. Qed.

Lemma createSession_effect env apiToken provider st :
  let out := createSession env apiToken provider st in
  ∃ c log answer,
    heap out.2 = heap st ++ [c] ∧ fresh_client c
    ∧ trace out.2 = trace st ++ log
    ∧ (∀ a ans, EvMcpClose a ans ∉ log)
    ∧ handshake_answers log = [answer]
    ∧ match out.1 with
      | Ok id =>
          (∃ session, sessions out.2 = <[id := session]> (sessions st)
                      ∧ sd_mcpClient session = length (heap st))
          ∧ ∃ sid, answer = Ok sid ∧ id = default "no-session" (truthy sid)
      | Throw e =>
          sessions out.2 = sessions st
          ∧ (answer = Throw e ∨ ∃ a, EvListTools a (Throw e) ∈ log)
      end.
Proof.
  cbv zeta. rewrite createSession_run. cbv zeta.
  rewrite connectToServer_run. cbv zeta.
  pose proof (fresh_constructed apiToken provider) as [Hh Hc].
  destruct (mcp_connect env _ _ _) as [sid|e1]; simpl.
  - destruct (mcp_listTools env _ _) as [ts|e2]; simpl;
      eexists _, _, (Ok sid);
      (split; [reflexivity|]); (split; [by split|]);
      (split; [rewrite <- ?app_assoc; simpl; reflexivity|]);
      unfold handshake_warning; destruct (truthy sid) eqn:Hsid; simpl;
      (split; [intros a ans H; log_cases H|]); (split; [done|]);
      try (split; [by eexists | exists sid; by rewrite Hsid]);
      (split; [done|]); right; exists (length (heap st)).
    + apply list_elem_of_further, list_elem_of_here.
    + do 2 apply list_elem_of_further. apply list_elem_of_here.
  - eexists _, _, (Throw e1). split; [reflexivity|]. split; [by split|].
    split; [reflexivity|]. split; [|split; [done|split; [done|by left]]].
    intros a ans H. log_cases H.
Qed.

(** ** Every request is a server step *)

Lemma client_step_refl c : client_step c c.
Proof. split; [|done]. exists []. by rewrite append_history_nil. Qed.

Lemma heap_step_refl (h : list MCPClient) : Forall2 client_step h h.
Proof. apply Forall2_same_length_lookup. split; [done|].
  intros i c c' H1 H2. simplify_eq. apply client_step_refl. Qed.

Lemma heap_step_insert (h : list MCPClient) a c' :
  client_step (h !!! a) c' → Forall2 client_step h (<[a := c']> h).
Proof.
  intros Hc. apply Forall2_same_length_lookup.
  split; [by rewrite length_insert|].
  intros i c1 c2 H1 H2. destruct (decide (a = i)) as [->|Hne].
  - rewrite list_lookup_insert_eq in H2 by (by eapply lookup_lt_Some).
    simplify_eq. by rewrite (list_lookup_total_correct _ _ _ H1) in Hc.
  - rewrite list_lookup_insert_ne in H2 by done. simplify_eq.
    apply client_step_refl.
Qed.

Lemma server_step_refl st : server_step st st.
Proof.
  split; [|split].
  - exists (heap st), []. rewrite app_nil_r.
    split; [done|]. split; [apply heap_step_refl | constructor].
  - intros k session' H. left. by exists session'.
  - exists []. rewrite app_nil_r. split; [done|].
    intros a answer H. by apply elem_of_nil in H.
Qed.

Lemma processQuery_client_step env this query c log :
  client_step c (self (processQuery env this query
                         {| self := c; events := log |}).2).
Proof.
  split.
  - by destruct (processQuery_frame env this query
                   {| self := c; events := log |}) as [H _].
  - intros H. by apply (processQuery_hist env this query
                          {| self := c; events := log |}).
Qed.

Lemma chat_event_not_close this log a answer :
  Forall (λ ev, is_chat_event this ev = true) log →
  EvMcpClose a answer ∉ log.
Proof.
  intros Hl Hin. eapply Forall_forall in Hl; [|done]. done.
Qed.

Lemma termination_request_not_close env c log a answer :
  EvMcpClose a answer ∉ termination_request env c log.
Proof.
  destruct (termination_request_cases env c log)
    as [->|(sid & ans & level & text & -> & _)]; intros H; log_cases H.
Qed.

Lemma chatHandler_step env query sessionId st :
  server_step st (chatHandler env query sessionId st).2.
Proof.
  rewrite chatHandler_run.
  destruct (truthy query) as [q|]; [|apply server_step_refl].
  destruct (truthy sessionId) as [sid|]; [|apply server_step_refl].
  destruct (sessions st !! sid) as [session|] eqn:Hs;
    [|apply server_step_refl].
  cbv zeta.
  set (now := date_now env (trace st)).
  set (this := sd_mcpClient session).
  set (s0 := {| self := heap st !!! this;
                events := trace st ++ [EvDate now] |}).
  pose proof (processQuery_client_step env this q (heap st !!! this)
                (trace st ++ [EvDate now])) as Hc. fold s0 in Hc.
  destruct (chat_frame_events _ _ _ (processQuery_frame env this q s0))
    as (log & Hlog & Hchat).
  assert (∀ k session',
            <[sid:=set_lastActivity now session]> (sessions st) !! k
            = Some session' →
            ∃ session0, sessions st !! k = Some session0
                        ∧ sd_mcpClient session' = sd_mcpClient session0)
    as Hsess.
  { intros k session'. destruct (decide (sid = k)) as [<-|Hne].
    - rewrite lookup_insert_eq. intros [= <-]. by exists session.
    - rewrite lookup_insert_ne by done. intros H. by exists session'. }
  assert (∃ h1 news,
            <[this:=self (processQuery env this q s0).2]> (heap st)
            = h1 ++ news
            ∧ Forall2 client_step (heap st) h1 ∧ Forall fresh_client news)
    as Hheap.
  { eexists _, []. rewrite app_nil_r. split; [done|].
    split; [by apply heap_step_insert | constructor]. }
  destruct (processQuery env this q s0).1 as [response|error]; simpl.
  - split; [done|]. split; [intros k s' H; left; by apply Hsess|].
    exists (EvDate now :: log). rewrite Hlog, app_nil_r. simpl.
    rewrite <- app_assoc. split; [done|].
    intros a answer [|Hin]%elem_of_cons; [done|].
    by destruct (chat_event_not_close _ _ _ _ Hchat Hin).
  - destruct (is_404 error); simpl.
    + rewrite removeSession_run. simpl. rewrite lookup_insert_eq. simpl.
      split; [done|]. split.
      * intros k s' H. simpl in H.
        apply lookup_delete_Some in H as [Hne H]. left. by apply Hsess.
      * eexists. rewrite Hlog. simpl.
        split; [rewrite <- !app_assoc; simpl; reflexivity|].
        intros a answer [|Hin]%elem_of_cons; [done|].
        apply elem_of_app in Hin as [Hin|Hin];
          [by destruct (chat_event_not_close _ _ _ _ Hchat Hin)|].
        apply elem_of_cons in Hin as [|Hin]; [done|].
        apply elem_of_app in Hin as [Hin|Hin];
          [by destruct (termination_request_not_close _ _ _ _ _ Hin)|].
        apply elem_of_cons in Hin as [Heq|Hin].
        -- injection Heq as -> _. by exists sid, session.
        -- destruct (mcp_close env _ _); log_cases Hin.
    + split; [done|]. split; [intros k s' H; left; by apply Hsess|].
      exists (EvDate now :: log ++ [EvConsole LError "Error processing query"]).
      rewrite Hlog. simpl. rewrite <- !app_assoc. split; [done|].
      intros a answer [|Hin]%elem_of_cons; [done|].
      apply elem_of_app in Hin as [Hin|Hin];
        [by destruct (chat_event_not_close _ _ _ _ Hchat Hin)|].
      log_cases Hin.
Qed.

Lemma disconnectHandler_step env sessionId st :
  server_step st (disconnectHandler env sessionId st).2.
Proof.
  rewrite disconnectHandler_run.
  destruct (truthy sessionId) as [sid|]; [|apply server_step_refl].
  destruct (sessions st !! sid) as [session|] eqn:Hs;
    [|apply server_step_refl].
  cbv zeta. simpl. rewrite removeSession_run. simpl.
  rewrite lookup_insert_eq. simpl.
  split; [|split].
  - exists (heap st), []. rewrite app_nil_r.
    split; [done|]. split; [apply heap_step_refl | constructor].
  - intros k s' H. simpl in H. apply lookup_delete_Some in H as [Hne H].
    rewrite lookup_insert_ne in H by done. left. by exists s'.
  - eexists. split; [rewrite <- !app_assoc; simpl; reflexivity|].
    intros a answer [|Hin]%elem_of_cons; [done|].
    apply elem_of_app in Hin as [Hin|Hin];
      [by destruct (termination_request_not_close _ _ _ _ _ Hin)|].
    apply elem_of_cons in Hin as [Heq|Hin].
    + injection Heq as -> _. by exists sid, session.
    + destruct (mcp_close env _ _); log_cases Hin.
Qed.

Lemma connectHandler_run env authorization provider st :
  connectHandler env authorization provider st =
  match authorization with
  | Some authHeader =>
      if String.prefix "Bearer " authHeader then
        let apiToken :=
          String.substring 7 (String.length authHeader - 7) authHeader in
        let modelProvider :=
          match provider with
          | Some "openai" => openai
          | Some "ollama" => ollama
          | _ => anthropic
          end in
        let out := createSession env apiToken modelProvider st in
        match out.1 with
        | Ok sessionId =>
            match sessions out.2 !! sessionId with
            | Some session =>
                let now := date_now env (trace out.2) in
                (Ok {| status := 200;
                       body := ConnectBody sessionId
                         ("Session created and connected to MCP server using "
                            +:+ provider_name modelProvider)
                         modelProvider
                         (map tool_name
                              (c_tools (heap out.2
                                          !!! sd_mcpClient session))) |},
                 {| sessions := <[sessionId := set_lastActivity now session]>
                                  (sessions out.2);
                    heap := heap out.2;
                    trace := trace out.2 ++ [EvDate now] |})
            | None =>
                (Ok {| status := 500;
                       body := ErrorBody "Failed to create session" None |},
                 out.2)
            end
        | Throw _ =>
            (Ok {| status := 500;
                   body := ErrorBody "Failed to connect to MCP server" None |},
             {| sessions := sessions out.2; heap := heap out.2;
                trace := trace out.2
                         ++ [EvConsole LError
                               "Failed to connect to MCP server:"] |})
        end
      else
        (Ok {| status := 401;
               body := ErrorBody
                 "Authorization header with Bearer token is required"
                 None |}, st)
  | None =>
      (Ok {| status := 401;
             body := ErrorBody
               "Authorization header with Bearer token is required"
               None |}, st)
  end.
Proof.
  unfold connectHandler, try_catch at 1.
  destruct authorization as [authHeader|]; [|done].
  destruct (String.prefix "Bearer " authHeader); [|done].
  cbv zeta. unfold try_catch, bind.
  destruct (createSession env _ _ st) as [[sessionId|e] st1]; simpl; [|done].
  rewrite getSession_run.
  destruct (sessions st1 !! sessionId) as [session|]; simpl; [|done].
  unfold call, getThis, ret. simpl. by rewrite insert_lookup_total.
Qed.

Lemma connectHandler_step env authorization provider st :
  server_step st (connectHandler env authorization provider st).2.
Proof.
  rewrite connectHandler_run.
  destruct authorization as [authHeader|]; [|apply server_step_refl].
  destruct (String.prefix "Bearer " authHeader); [|apply server_step_refl].
  cbv zeta.
  set (apiToken := String.substring _ _ _).
  set (modelProvider := match provider with
                        | Some "openai" => openai
                        | Some "ollama" => ollama
                        | _ => anthropic
                        end).
  destruct (createSession_effect env apiToken modelProvider st)
    as (c & log & answer & Hheap & Hfresh & Htrace & Hclose & _ & Hout).
  set (out := createSession env apiToken modelProvider st) in *.
  assert (∃ h1 news, heap out.2 = h1 ++ news
                     ∧ Forall2 client_step (heap st) h1
                     ∧ Forall fresh_client news) as Hh.
  { exists (heap st), [c]. split; [done|].
    split; [apply heap_step_refl | by constructor]. }
  assert (∀ log', (∀ a ans, EvMcpClose a ans ∉ log') →
            ∃ log0, trace out.2 ++ log' = trace st ++ log0
                    ∧ ∀ a ans, EvMcpClose a ans ∈ log0 →
                        ∃ k session, sessions st !! k = Some session
                                     ∧ sd_mcpClient session = a) as Ht.
  { intros log' Hlog'. exists (log ++ log').
    rewrite Htrace, <- app_assoc. split; [done|].
    intros a ans [Hin|Hin]%elem_of_app.
    - by destruct (Hclose _ _ Hin).
    - by destruct (Hlog' _ _ Hin). }
  destruct out.1 as [sessionId|e].
  - destruct Hout as [(session & Hsess & Hclient) _].
    assert (∀ k session',
              sessions out.2 !! k = Some session' →
              (∃ session0, sessions st !! k = Some session0
                           ∧ sd_mcpClient session' = sd_mcpClient session0)
              ∨ length (heap st) ≤ sd_mcpClient session'
                < length (heap out.2)) as Hs.
    { intros k session'. rewrite Hsess, Hheap, length_app. simpl.
      destruct (decide (sessionId = k)) as [<-|Hne].
      - rewrite lookup_insert_eq. intros [= <-]. right. lia.
      - rewrite lookup_insert_ne by done. intros H. left. by exists session'. }
    destruct (sessions out.2 !! sessionId) as [session1|] eqn:Hlook.
    + cbv zeta. split; [done|]. split.
      * intros k session'. simpl.
        destruct (decide (sessionId = k)) as [<-|Hne].
        -- rewrite lookup_insert_eq. intros [= <-]. simpl.
           by apply (Hs sessionId session1).
        -- rewrite lookup_insert_ne by done. apply Hs.
      * simpl. apply Ht. intros a ans H. log_cases H.
    + split; [done|]. split; [done|].
      destruct (Ht []) as (log0 & Hlog0 & Hc0).
      { intros a ans H. by apply elem_of_nil in H. }
      exists log0. by rewrite app_nil_r in Hlog0.
  - simpl. split; [done|]. split.
    + intros k session' H. simpl in H. rewrite (proj1 Hout) in H.
      left. by exists session'.
    + simpl. apply Ht. intros a ans H. log_cases H.
Qed.


Lemma handle_step env r st : server_step st (handle env r st).2.
Proof.
  destruct r; simpl.
  - apply server_step_refl.
  - apply connectHandler_step.
  - apply chatHandler_step.
  - apply disconnectHandler_step.
  - apply server_step_refl.
Qed.

(** ** Invariants of the server *)

Lemma client_step_ok c c' : client_step c c' → client_ok c → client_ok c'.
Proof. intros [[hs ->] _] H. done. Qed.

Lemma server_step_lookup st st' a c :
  server_step st st' → heap st !! a = Some c →
  ∃ c', heap st' !! a = Some c' ∧ client_step c c'.
Proof.
  intros ((h1 & news & Hheap & Hh1 & _) & _) Ha.
  destruct (Forall2_lookup_l _ _ _ _ _ Hh1 Ha) as (c' & Hc' & Hstep).
  exists c'. split; [|done]. rewrite Hheap. by apply lookup_app_l_Some.
Qed.

Lemma server_step_length st st' :
  server_step st st' → length (heap st) ≤ length (heap st').
Proof.
  intros ((h1 & news & -> & Hh1 & _) & _).
  rewrite length_app, <- (Forall2_length _ _ _ Hh1). lia.
Qed.

Lemma server_step_new st st' a :
  server_step st st' → length (heap st) ≤ a < length (heap st') →
  ∃ c, heap st' !! a = Some c ∧ fresh_client c.
Proof.
  intros ((h1 & news & Hheap & Hh1 & Hnews) & _) Ha.
  destruct (lookup_lt_is_Some_2 (heap st') a) as [c Hc]; [lia|].
  exists c. split; [done|]. rewrite Hheap in Hc.
  apply lookup_app_Some in Hc as [Hc|[_ Hc]].
  - apply lookup_lt_Some in Hc.
    rewrite <- (Forall2_length _ _ _ Hh1) in Hc. lia.
  - eapply Forall_lookup_1 in Hnews; done.
Qed.

Lemma state_ok_step st st' : state_ok st → server_step st st' → state_ok st'.
Proof.
  intros [Hs Ht] Hstep. pose proof (server_step_length _ _ Hstep) as Hlen.
  split.
  - intros k session' Hk.
    pose proof Hstep as (_ & Hsess & _).
    destruct (Hsess _ _ Hk) as [(session & Hk0 & Heq)|Hnew].
    + rewrite Heq. destruct (Hs _ _ Hk0) as [Hlt Hc]. split; [lia|].
      destruct (lookup_lt_is_Some_2 (heap st) (sd_mcpClient session) Hlt)
        as [c Hlook].
      destruct (server_step_lookup st st' _ _ Hstep Hlook)
        as (c' & Hlook' & Hcs).
      rewrite (list_lookup_total_correct _ _ _ Hlook').
      rewrite (list_lookup_total_correct _ _ _ Hlook) in Hc.
      by eapply client_step_ok.
    + split; [lia|].
      destruct (server_step_new st st' _ Hstep Hnew)
        as (c & Hlook & _ & Hc).
      by rewrite (list_lookup_total_correct _ _ _ Hlook).
  - destruct Hstep as (_ & _ & log & -> & Hlog).
    apply Forall_app. split.
    + eapply Forall_impl; [done|]. intros [] Hev; simpl in *; try done. lia.
    + apply Forall_forall. intros [] Hin; simpl; try done.
      destruct (Hlog _ _ Hin) as (k & session & Hk & <-).
      destruct (Hs _ _ Hk) as [Hlt _]. lia.
Qed.

Lemma histories_ok_step st st' :
  histories_ok st → server_step st st' → histories_ok st'.
Proof.
  intros Hok ((h1 & news & Hheap & Hh1 & Hnews) & _).
  unfold histories_ok. rewrite Hheap. apply Forall_app. split.
  - apply Forall_lookup. intros i c' Hc'.
    destruct (Forall2_lookup_r _ _ _ _ _ Hh1 Hc') as (c & Hc & _ & Hstep).
    apply Hstep. by eapply (Forall_lookup_1 _ _ _ _ Hok).
  - eapply Forall_impl; [done|]. intros c [-> _]. apply results_preceded_nil.
Qed.

Lemma unreachable_step a st st' :
  unreachable a st → server_step st st' → unreachable a st'.
Proof.
  intros (Hlt & Hreg & Hclose) Hstep.
  pose proof (server_step_length _ _ Hstep) as Hlen.
  destruct Hstep as (_ & Hsess & log & Htrace & Hlog).
  split; [lia|]. split.
  - intros k session' Hk.
    destruct (Hsess _ _ Hk) as [(session & Hk0 & Heq)|Hnew]; [|lia].
    rewrite Heq. by eapply Hreg.
  - intros answer. rewrite Htrace. intros [Hin|Hin]%elem_of_app.
    + by eapply Hclose.
    + destruct (Hlog _ _ Hin) as (k & session & Hk & Heq).
      by eapply Hreg.
Qed.

Lemma serve_app env rs1 rs2 st :
  serve env (rs1 ++ rs2) st = serve env rs2 (serve env rs1 st).
Proof. revert st. induction rs1 as [|r rs1 IH]; intros st; simpl; auto. Qed.

Lemma serve_invariant env (I : State → Prop) rs st :
  (∀ st1 st2, I st1 → server_step st1 st2 → I st2) →
  I st → I (serve env rs st).
Proof.
  intros Hstep. revert st. induction rs as [|r rs IH]; intros st HI; simpl.
  - done.
  - apply IH. eapply Hstep; [done|]. apply handle_step.
Qed.

(** Every state the server reaches is well formed. *)
Lemma state_ok_serve env rs : state_ok (serve env rs initial_state).
Proof.
  apply serve_invariant; [apply state_ok_step|].
  split; [apply map_Forall_empty | constructor].
Qed.

Lemma histories_ok_serve env rs : histories_ok (serve env rs initial_state).
Proof.
  apply serve_invariant; [apply histories_ok_step | constructor].
Qed.

Lemma serve_lookup env rs st a c :
  heap st !! a = Some c →
  ∃ c' hs, heap (serve env rs st) !! a = Some c'
           ∧ c_conversationHistory c' = c_conversationHistory c ++ hs.
Proof.
  revert st c. induction rs as [|r rs IH]; intros st c Ha; simpl.
  - exists c, []. by rewrite app_nil_r.
  - destruct (server_step_lookup _ _ _ _ (handle_step env r st) Ha)
      as (c1 & Hc1 & [[hs1 ->] _]).
    destruct (IH _ _ Hc1) as (c' & hs & Hc' & Hh).
    exists c', (hs1 ++ hs). split; [done|]. rewrite Hh. simpl.
    by rewrite app_assoc.
Qed.

(** C5: through any sequence of requests, the history of every client
    only grows at its end -- what it held after a first part of the
    sequence is an unchanged prefix of what it holds later -- and in it
    every tool-result message is preceded by an assistant message carrying
    a tool request with the same correlation id. *)
Theorem history_append_only env rs1 rs2 a c :
  heap (serve env rs1 initial_state) !! a = Some c →
  ∃ c' hs,
    heap (serve env (rs1 ++ rs2) initial_state) !! a = Some c'
    ∧ c_conversationHistory c' = c_conversationHistory c ++ hs
    ∧ results_preceded (c_conversationHistory c').
Proof.
  intros Ha. rewrite serve_app.
  destruct (serve_lookup env rs2 _ _ _ Ha) as (c' & hs & Hc' & Hh).
  exists c', hs. split; [done|]. split; [done|].
  rewrite <- serve_app in Hc'.
  by apply (Forall_lookup_1 _ _ _ _ (histories_ok_serve env (rs1 ++ rs2)) Hc').
Qed.

Lemma history_append_only_witness :
  let rs1 := [PostConnect (Some "Bearer tok") None] in
  let rs2 := [PostChat (Some "find cats") (Some "session-a")] in
  ∃ c c',
    heap (serve env_one_tool rs1 initial_state) !! 0 = Some c
    ∧ heap (serve env_one_tool (rs1 ++ rs2) initial_state) !! 0 = Some c'
    ∧ c_conversationHistory c = []
    ∧ length (c_conversationHistory c') = 4
    ∧ results_preceded (c_conversationHistory c').
Proof.
  cbv zeta.
  assert (heap (serve env_one_tool [PostConnect (Some "Bearer tok") None]
                      initial_state) !! 0
          = Some (set_tools [AnthropicTool "search" "Search the catalogue"
                                           "{type:object}"]
                    (set_sessionId (Some "session-a")
                       (set_transport true (constructed "tok" anthropic)))))
    as Ha by (vm_compute; reflexivity).
  destruct (history_append_only env_one_tool
              [PostConnect (Some "Bearer tok") None]
              [PostChat (Some "find cats") (Some "session-a")] 0 _ Ha)
    as (c' & hs & Hc' & Hh & Hok).
  eexists _, c'. split; [exact Ha|]. split; [exact Hc'|].
  split; [reflexivity|]. split; [|exact Hok].
  vm_compute in Hc'. injection Hc' as <-. reflexivity.
Defined.

(** ** Session identifiers returned by create *)

Lemma handshake_answers_app log1 log2 :
  handshake_answers (log1 ++ log2)
  = handshake_answers log1 ++ handshake_answers log2.
Proof. apply omap_app. Qed.

(** C4 as stated fails: the ids are the server's, so two creates against
    a server that issues the same id twice return the same id, which is
    not the sentinel. *)
Lemma create_twice_same_id :
  let out := createSessions env_two_tools
               [("tok1", anthropic); ("tok2", anthropic)] initial_state in
  out.1 = [Ok "session-a"; Ok "session-a"]
  ∧ handshake_answers (new_events initial_state out.2)
    = [Ok (Some "session-a"); Ok (Some "session-a")]
  ∧ "session-a" ≠ "no-session".
Proof. cbv zeta. repeat split; vm_compute; done. Qed.

(** ** Sessions of a server that issues no session id *)

(** C9: when the server issues no session id, two creates both return
    "no-session" and store their session under that one key.  After the
    second create the registry is the one before the first create with a
    single entry for the key, that of the second client; it has as many
    entries as after the first create.  The first client stays allocated
    but no entry references it, and whatever requests follow, its MCP
    connection is never closed. *)
Theorem sentinel_sessions_overwrite env rs0 tok1 p1 tok2 p2 sid1 sid2 :
  let st := serve env rs0 initial_state in
  let out1 := createSession env tok1 p1 st in
  let out2 := createSession env tok2 p2 out1.2 in
  let first := length (heap st) in
  handshake_answers (new_events st out2.2) = [Ok sid1; Ok sid2] →
  truthy sid1 = None → truthy sid2 = None →
  (∀ a e, EvListTools a (Throw e) ∉ new_events st out2.2) →
  out1.1 = Ok "no-session" ∧ out2.1 = Ok "no-session"
  ∧ (∃ session1, sessions out1.2 !! "no-session" = Some session1
                 ∧ sd_mcpClient session1 = first)
  ∧ (∃ session2, sessions out2.2 = <["no-session" := session2]> (sessions st)
                 ∧ sd_mcpClient session2 = S first)
  ∧ size (sessions out2.2) = size (sessions out1.2)
  ∧ ∀ rs, unreachable first (serve env rs out2.2).
Proof.
  intros st out1 out2 first Hans Hsid1 Hsid2 Htools.
  destruct (createSession_effect env tok1 p1 st)
    as (c1 & log1 & answer1 & Hheap1 & _ & Ht1 & Hclose1 & Ha1 & Hout1).
  fold out1 in Hheap1, Ht1, Hout1.
  destruct (createSession_effect env tok2 p2 out1.2)
    as (c2 & log2 & answer2 & Hheap2 & _ & Ht2 & Hclose2 & Ha2 & Hout2).
  fold out2 in Hheap2, Ht2, Hout2.
  assert (trace out2.2 = trace st ++ log1 ++ log2) as Ht
    by (by rewrite Ht2, Ht1, <- app_assoc).
  rewrite (new_events_app _ _ _ Ht) in Hans, Htools.
  rewrite handshake_answers_app, Ha1, Ha2 in Hans. injection Hans as -> ->.
  destruct out1.1 as [id1|e1].
  2:{ destruct Hout1 as [_ [?|[a Hin]]]; [done|].
      destruct (Htools a e1). apply elem_of_app. by left. }
  destruct out2.1 as [id2|e2].
  2:{ destruct Hout2 as [_ [?|[a Hin]]]; [done|].
      destruct (Htools a e2). apply elem_of_app. by right. }
  destruct Hout1 as [(session1 & Hs1 & Hc1) (s1 & [= <-] & ->)].
  destruct Hout2 as [(session2 & Hs2 & Hc2) (s2 & [= <-] & ->)].
  rewrite Hsid1 in *. rewrite Hsid2 in *. simpl in *.
  split; [done|]. split; [done|]. split.
  { exists session1. split; [|done]. rewrite Hs1. apply lookup_insert_eq. }
  split.
  { exists session2. split.
    - rewrite Hs2, Hs1. apply insert_insert_eq.
    - rewrite Hc2, Hheap1, length_app. simpl. fold first. lia. }
  split.
  { rewrite Hs2. apply map_size_insert_Some.
    rewrite Hs1, lookup_insert_eq. by eexists. }
  intros rs. apply serve_invariant; [apply unreachable_step|].
  destruct (state_ok_serve env rs0) as [Hreg Hclosed]. fold st in Hreg, Hclosed.
  split; [|split].
  - rewrite Hheap2, Hheap1, !length_app. simpl. fold first. lia.
  - intros k session. rewrite Hs2, Hs1, insert_insert_eq.
    destruct (decide ("no-session" = k)) as [<-|Hne].
    + rewrite lookup_insert_eq. intros [= <-].
      rewrite Hc2, Hheap1, length_app. simpl. fold first. lia.
    + rewrite lookup_insert_ne by done. intros Hk.
      destruct (Hreg _ _ Hk) as [Hlt _]. fold first in Hlt. lia.
  - intros answer. rewrite Ht.
    intros [Hin|[Hin|Hin]%elem_of_app]%elem_of_app.
    + eapply Forall_forall in Hclosed; [|done]. simpl in Hclosed.
      fold first in Hclosed. lia.
    + by destruct (Hclose1 _ _ Hin).
    + by destruct (Hclose2 _ _ Hin).
Qed.

Lemma sentinel_sessions_overwrite_witness :
  let out1 := createSession env_no_session_id "tok1" anthropic
                initial_state in
  let out2 := createSession env_no_session_id "tok2" anthropic out1.2 in
  handshake_answers (new_events initial_state out2.2) = [Ok None; Ok None]
  ∧ out1.1 = Ok "no-session" ∧ out2.1 = Ok "no-session"
  ∧ size (sessions out2.2) = 1
  ∧ unreachable 0
      (serve env_no_session_id [PostDisconnect (Some "no-session")] out2.2).
Proof.
  pose (out1 := createSession env_no_session_id "tok1" anthropic
                  initial_state).
  pose (out2 := createSession env_no_session_id "tok2" anthropic out1.2).
  assert (handshake_answers (new_events initial_state out2.2)
          = [Ok None; Ok None]) as Hans by (vm_compute; reflexivity).
  destruct (sentinel_sessions_overwrite env_no_session_id [] "tok1"
              anthropic "tok2" anthropic None None Hans eq_refl eq_refl)
    as (H1 & H2 & _ & _ & Hsize & Hun).
  - intros a e H. vm_compute in H. log_cases H.
  - cbv zeta. fold out1 out2. split; [exact Hans|].
    split; [exact H1|]. split; [exact H2|]. split.
    + vm_compute. reflexivity.
    + apply (Hun [PostDisconnect (Some "no-session")]).
Defined.

(** ** The Authorization header of a connect *)

Lemma substring_all s : String.substring 0 (String.length s) s = s.
Proof. induction s as [|c s IH]; simpl; [done|]. by rewrite IH. Qed.

Lemma prefix_append p t : String.prefix p (p +:+ t) = true.
Proof.
  induction p as [|c p IH]; simpl; [by destruct t|].
  destruct (Ascii.ascii_dec c c); [exact IH|congruence].
Qed.

Lemma prefix_append_inv p h :
  String.prefix p h = true → ∃ t, h = p +:+ t.
Proof.
  revert h. induction p as [|c p IH]; intros h; simpl.
  - intros _. by exists h.
  - destruct h as [|c' h]; simpl; [done|].
    destruct (Ascii.ascii_dec c c') as [->|]; [|done].
    intros [t ->]%IH. by exists t.
Qed.

Lemma bearer_token tok :
  String.substring 7 (String.length ("Bearer " +:+ tok) - 7)
                   ("Bearer " +:+ tok) = tok.
Proof.
  simpl. change ("" +:+ tok) with tok. rewrite Nat.sub_0_r.
  apply substring_all.
Qed.

(** A connect with header "Bearer <token>" starts by allocating a client
    and making the MCP handshake with exactly <token> as api token. *)
Theorem connect_uses_bearer_token env token provider st :
  let out := connectHandler env (Some ("Bearer " +:+ token)) provider st in
  ∃ answer rest,
    new_events st out.2
    = EvMcpConnect (length (heap st)) token answer :: rest.
Proof.
  cbv zeta. rewrite connectHandler_run, prefix_append. cbv zeta.
  rewrite bearer_token.
  set (p := match provider with
            | Some "openai" => openai
            | Some "ollama" => ollama
            | _ => anthropic
            end).
  rewrite createSession_run. cbv zeta. rewrite connectToServer_run.
  cbv zeta. simpl.
  destruct (mcp_connect env _ _ _) as [sid|e]; simpl.
  - destruct (mcp_listTools env _ _) as [ts|e]; simpl.
    + rewrite lookup_insert_eq. simpl.
      eexists _, _. apply new_events_app. simpl.
      rewrite <- !app_assoc. simpl. reflexivity.
    + eexists _, _. apply new_events_app. simpl.
      rewrite <- !app_assoc. simpl. reflexivity.
  - eexists _, _. apply new_events_app. simpl.
    rewrite <- !app_assoc. simpl. reflexivity.
Qed.

(** A connect without an Authorization header, or with one that does not
    start with "Bearer ", is answered 401 and does nothing: no outside
    call, no client allocated, no session registered. *)
Theorem connect_without_bearer_is_401 env authorization provider st :
  (∀ token, authorization ≠ Some ("Bearer " +:+ token)) →
  connectHandler env authorization provider st
  = (Ok {| status := 401;
           body := ErrorBody
             "Authorization header with Bearer token is required" None |},
     st).
Proof.
  intros Hno. rewrite connectHandler_run.
  destruct authorization as [authHeader|]; [|done].
  destruct (String.prefix "Bearer " authHeader) eqn:Hp; [|done].
  apply prefix_append_inv in Hp as [t ->]. by destruct (Hno t).
Qed.

Lemma connect_without_bearer_is_401_witness :
  (∀ token, Some "Basic dXNlcg" ≠ Some ("Bearer " +:+ token))
  ∧ connectHandler env_one_tool (Some "Basic dXNlcg") None initial_state
    = (Ok {| status := 401;
             body := ErrorBody
               "Authorization header with Bearer token is required" None |},
       initial_state).
Proof.
  assert (∀ token, Some "Basic dXNlcg" ≠ Some ("Bearer " +:+ token)) as H
    by (intros token; simpl; discriminate).
  split; [exact H|].
  apply (connect_without_bearer_is_401 env_one_tool _ None initial_state H).
Defined.

(** ** A successful connect *)

Lemma tool_name_convert provider ts :
  map tool_name (convert_tools provider ts) = map mt_name ts.
Proof.
  destruct provider; simpl; induction ts as [|t ts IH]; simpl; congruence.
Qed.

(** When the handshake and the tool discovery of a connect succeed, the
    answer is 200 with the id the server issued (or "no-session"), the
    provider chosen from the body (only the exact strings "openai" and
    "ollama" select those, anything else is anthropic), and the tool names
    exactly as the server listed them, in order, whatever the provider's
    wrapping; the session is registered under that id for the new
    client. *)
Theorem connect_success env token provider st a sid ts :
  let out := connectHandler env (Some ("Bearer " +:+ token)) provider st in
  let id := default "no-session" (truthy sid) in
  EvMcpConnect a token (Ok sid) ∈ new_events st out.2 →
  EvListTools a (Ok ts) ∈ new_events st out.2 →
  ∃ p session,
    out.1 = Ok {| status := 200;
                  body := ConnectBody id
                    ("Session created and connected to MCP server using "
                       +:+ provider_name p)
                    p (map mt_name ts) |}
    ∧ sessions out.2 !! id = Some session
    ∧ sd_sessionId session = id
    ∧ sd_provider session = p
    ∧ sd_mcpClient session = length (heap st)
    ∧ (provider = Some "openai" → p = openai)
    ∧ (provider = Some "ollama" → p = ollama)
    ∧ (provider ≠ Some "openai" → provider ≠ Some "ollama" → p = anthropic).
Proof.
  cbv zeta. rewrite connectHandler_run, prefix_append. cbv zeta.
  rewrite bearer_token.
  set (p := match provider with
            | Some "openai" => openai
            | Some "ollama" => ollama
            | _ => anthropic
            end).
  assert ((provider = Some "openai" → p = openai)
          ∧ (provider = Some "ollama" → p = ollama)
          ∧ (provider ≠ Some "openai" → provider ≠ Some "ollama" →
             p = anthropic)) as Hp.
  { subst p. repeat split.
    - by intros ->.
    - by intros ->.
    - intros H1 H2. repeat case_match; congruence. }
  clearbody p.
  rewrite createSession_run. cbv zeta. rewrite connectToServer_run.
  cbv zeta. simpl.
  destruct (mcp_connect env _ _ _) as [sid'|e]; simpl.
  - destruct (mcp_listTools env _ _) as [ts'|e]; simpl.
    + rewrite lookup_insert_eq. simpl.
      erewrite new_events_app
        by (simpl; rewrite <- !app_assoc; simpl; reflexivity).
      unfold handshake_warning.
      intros H1 H2.
      assert (sid' = sid ∧ ts' = ts) as [-> ->].
      { destruct (truthy sid'); log_cases H1; log_cases H2;
          by simplify_eq. }
      exists p. eexists. rewrite lookup_total_snoc. simpl.
      rewrite tool_name_convert, lookup_insert_eq.
      clear H1 H2. destruct Hp as (Hp1 & Hp2 & Hp3).
      split; [reflexivity|]. split; [reflexivity|]. by repeat split.
    + erewrite new_events_app
        by (simpl; rewrite <- !app_assoc; simpl; reflexivity).
      unfold handshake_warning. intros H1 H2.
      destruct (truthy sid'); log_cases H2.
  - erewrite new_events_app
      by (simpl; rewrite <- !app_assoc; simpl; reflexivity).
    intros H1 H2. log_cases H2.
Qed.

Lemma connect_success_witness :
  let out := connectHandler env_one_tool (Some ("Bearer " +:+ "tok"))
               (Some "ollama") initial_state in
  EvMcpConnect 0 "tok" (Ok (Some "session-a"))
    ∈ new_events initial_state out.2
  ∧ EvListTools 0 (Ok [search_tool]) ∈ new_events initial_state out.2
  ∧ out.1 = Ok {| status := 200;
                  body := ConnectBody "session-a"
                    "Session created and connected to MCP server using ollama"
                    ollama ["search"] |}.
Proof.
  pose (out := connectHandler env_one_tool (Some ("Bearer " +:+ "tok"))
                 (Some "ollama") initial_state).
  assert (EvMcpConnect 0 "tok" (Ok (Some "session-a"))
            ∈ new_events initial_state out.2) as H1
    by (vm_compute; apply list_elem_of_here).
  assert (EvListTools 0 (Ok [search_tool])
            ∈ new_events initial_state out.2) as H2
    by (vm_compute; apply list_elem_of_further, list_elem_of_here).
  destruct (connect_success env_one_tool "tok" (Some "ollama")
              initial_state 0 (Some "session-a") [search_tool] H1 H2)
    as (p & session & Hr & _ & _ & _ & _ & _ & Hp & _).
  cbv zeta. fold out. split; [exact H1|]. split; [exact H2|].
  rewrite (Hp eq_refl) in Hr. exact Hr.
Defined.

(** ** Rounds without tool request, and the order of tool calls *)

(** A chat round that runs to its end and whose initial model response
    carries no tool request pushes exactly two messages, the user text and
    the assistant message of the answer, and makes the one model call. *)
Theorem no_tool_request_round env this query s response :
  let out := processQuery env this query s in
  let log := drop (length (events s)) (events out.2) in
  out.1 = Ok response →
  initial_tool_requests log = Some 0 →
  ∃ reply call,
    c_conversationHistory (self out.2)
    = c_conversationHistory (self s) ++ [UserMessage query; reply]
    ∧ is_assistant reply = true ∧ request_ids reply = []
    ∧ log = [call] ∧ is_model_call call = true.
Proof.
  cbv zeta. rewrite processQuery_unfold.
  destruct (c_provider (self s)).
  - destruct (processQueryWithAnthropic env this query s) as [r s'] eqn:Hrun.
    simpl. intros ->.
    apply processQueryWithAnthropic_ok in Hrun
      as (h & tools & answer & hs & log & Hh & Ht & Hr).
    rewrite Ht, drop_app_length. unfold initial_tool_requests. simpl.
    intros [= Hzero].
    destruct (tool_uses answer) eqn:Hu; [|done]. inversion Hr; subst.
    eexists (AnthropicAssistant answer), _. rewrite Hh. simpl.
    by rewrite Hu.
  - destruct (processQueryWithOpenAI env this query s) as [r s'] eqn:Hrun.
    simpl. intros ->.
    apply processQueryWithOpenAI_ok in Hrun
      as (h & tools & message & choices & hs & log & Hh & Ht & Hr).
    rewrite Ht, drop_app_length. unfold initial_tool_requests. simpl.
    intros [= Hzero].
    destruct (oam_tool_calls message) as [[|tc rest]|] eqn:Hu; try done;
      destruct Hr as [-> ->];
      eexists (OpenAIAssistant _ _), _; rewrite Hh; simpl; done.
  - destruct (processQueryWithOllama env this query s) as [r s'] eqn:Hrun.
    simpl. intros ->.
    apply processQueryWithOllama_ok in Hrun
      as (h & tools & message & hs & log & Hh & Ht & Hr).
    rewrite Ht, drop_app_length. unfold initial_tool_requests. simpl.
    intros [= Hzero].
    destruct (olm_tool_calls message) as [[|tc rest]|] eqn:Hu; try done;
      destruct Hr as [-> ->];
      eexists (OllamaAssistant _ _), _; rewrite Hh; simpl; done.
Qed.

Lemma no_tool_request_round_witness :
  let s := self_connected env_no_session_id anthropic in
  let out := processQuery env_no_session_id 0 "hello" s in
  out.1 = Ok "Hi!"
  ∧ initial_tool_requests (drop (length (events s)) (events out.2)) = Some 0
  ∧ c_conversationHistory (self out.2)
    = [UserMessage "hello"; AnthropicAssistant [TextBlock "Hi!"]].
Proof.
  pose (s := self_connected env_no_session_id anthropic).
  assert ((processQuery env_no_session_id 0 "hello" s).1 = Ok "Hi!") as Hr
    by (vm_compute; reflexivity).
  assert (initial_tool_requests
            (drop (length (events s))
                  (events (processQuery env_no_session_id 0 "hello" s).2))
          = Some 0) as Hz by (vm_compute; reflexivity).
  destruct (no_tool_request_round env_no_session_id 0 "hello" s _ Hr Hz)
    as (reply & call & Hh & _).
  cbv zeta. fold s. split; [exact Hr|]. split; [exact Hz|].
  vm_compute. reflexivity.
Defined.

Lemma anthropic_rounds_order this uses hs log :
  anthropic_rounds this uses hs log →
  tool_calls_of log = map (λ u, (u.1.2, Some u.2)) uses
  ∧ omap result_id hs = map (λ u, u.1.1) uses.
Proof.
  induction 1 as [|? ? ? ? ? ? ? ? ? ? _ [IH1 IH2]]; [done|].
  split.
  - change (tool_calls_of (?a :: ?b :: log)) with
      ((name, Some input) :: tool_calls_of log). by rewrite IH1.
  - change (omap result_id (?a :: ?b :: hs)) with
      (id :: omap result_id hs). by rewrite IH2.
Qed.

Lemma openai_rounds_order env this tool_calls hs log :
  openai_rounds env this tool_calls hs log →
  tool_calls_of log
  = map (λ tc, (oa_name tc, JSON_parse env (oa_arguments tc))) tool_calls
  ∧ omap result_id hs = map oa_id tool_calls.
Proof.
  induction 1 as [|tc args result ? ? ? Hp _ [IH1 IH2]]; [done|].
  split.
  - change (tool_calls_of (?a :: log)) with
      ((oa_name tc, Some args) :: tool_calls_of log).
    by rewrite IH1, <- Hp.
  - change (omap result_id (?a :: hs)) with
      (oa_id tc :: omap result_id hs). by rewrite IH2.
Qed.

Lemma ollama_rounds_order env this tool_calls hs log :
  ollama_rounds env this tool_calls hs log →
  tool_calls_of log
  = map (λ tc, (ol_name tc, ollama_args env tc)) tool_calls
  ∧ omap result_id hs = map ollama_call_id tool_calls.
Proof.
  induction 1 as [|tc args result ? ? ? Hp _ [IH1 IH2]]; [done|].
  split.
  - change (tool_calls_of (?a :: log)) with
      ((ol_name tc, Some args) :: tool_calls_of log).
    by rewrite IH1, <- Hp.
  - change (omap result_id (?a :: hs)) with
      (ollama_call_id tc :: omap result_id hs). by rewrite IH2.
Qed.

Lemma history_append_history hs c :
  c_conversationHistory (append_history hs c) = c_conversationHistory c ++ hs.
Proof. done. Qed.

Lemma tool_calls_of_app log1 log2 :
  tool_calls_of (log1 ++ log2) = tool_calls_of log1 ++ tool_calls_of log2.
Proof. apply omap_app. Qed.

(** In a chat round that runs to its end, on every provider, the tools
    called are exactly the tools the initial model response requested:
    once each, in request order, under the requested name and with the
    requested arguments; and the tool-result messages pushed carry the
    correlation ids of the requests in the same order.  Tool requests in a
    follow-up answer are never run. *)
Theorem tools_run_in_request_order env this query s response ev :
  let out := processQuery env this query s in
  let log := drop (length (events s)) (events out.2) in
  let pushed := drop (length (c_conversationHistory (self s)))
                     (c_conversationHistory (self out.2)) in
  out.1 = Ok response →
  head log = Some ev →
  tool_calls_of log = map (λ r, (r.1.2, r.2)) (answer_requests env ev)
  ∧ omap result_id pushed = map (λ r, r.1.1) (answer_requests env ev).
Proof.
  cbv zeta. rewrite processQuery_unfold.
  destruct (c_provider (self s)).
  - destruct (processQueryWithAnthropic env this query s) as [r s'] eqn:Hrun.
    cbn [fst snd]. intros ->.
    apply processQueryWithAnthropic_ok in Hrun
      as (h & tools & answer & hs & log & Hh & Ht & Hr).
    rewrite Ht, drop_app_length, Hh, history_append_history, drop_app_length.
    intros Hev. injection Hev as <-.
    apply anthropic_rounds_order in Hr as [Hc Hi].
    change (tool_calls_of (?a :: log)) with (tool_calls_of log).
    change (omap result_id (?a :: ?b :: hs)) with (omap result_id hs).
    rewrite Hc, Hi. cbn [answer_requests]. by rewrite !map_map.
  - destruct (processQueryWithOpenAI env this query s) as [r s'] eqn:Hrun.
    cbn [fst snd]. intros ->.
    apply processQueryWithOpenAI_ok in Hrun
      as (h & tools & message & choices & hs & log & Hh & Ht & Hr).
    rewrite Ht, drop_app_length, Hh, history_append_history, drop_app_length.
    intros Hev. injection Hev as <-.
    change (tool_calls_of (?a :: log)) with (tool_calls_of log).
    change (omap result_id (?a :: ?b :: hs)) with (omap result_id hs).
    cbn [answer_requests].
    destruct (oam_tool_calls message) as [[|tc rest]|] eqn:Hu;
      try (by destruct Hr as [-> ->]).
    destruct Hr as (hs1 & log1 & h' & tools' & followup & choices'
                    & -> & -> & Hr).
    apply openai_rounds_order in Hr as [Hc Hi].
    rewrite tool_calls_of_app, omap_app, Hc, Hi.
    change (tool_calls_of [?a]) with (@nil (string * option Json)).
    change (omap result_id [?a]) with (@nil string).
    rewrite !app_nil_r. cbn [default]. by rewrite !map_map.
  - destruct (processQueryWithOllama env this query s) as [r s'] eqn:Hrun.
    cbn [fst snd]. intros ->.
    apply processQueryWithOllama_ok in Hrun
      as (h & tools & message & hs & log & Hh & Ht & Hr).
    rewrite Ht, drop_app_length, Hh, history_append_history, drop_app_length.
    intros Hev. injection Hev as <-.
    change (tool_calls_of (?a :: log)) with (tool_calls_of log).
    change (omap result_id (?a :: ?b :: hs)) with (omap result_id hs).
    cbn [answer_requests].
    destruct (olm_tool_calls message) as [[|tc rest]|] eqn:Hu;
      try (by destruct Hr as [-> ->]).
    destruct Hr as (hs1 & log1 & h' & tools' & followup & -> & -> & Hr).
    apply ollama_rounds_order in Hr as [Hc Hi].
    rewrite tool_calls_of_app, omap_app, Hc, Hi.
    change (tool_calls_of [?a]) with (@nil (string * option Json)).
    change (omap result_id [?a]) with (@nil string).
    rewrite !app_nil_r. cbn [default]. by rewrite !map_map.
Qed.

Lemma tools_run_in_request_order_witness :
  let s := self_connected env_two_tools openai in
  let out := processQuery env_two_tools 0 "find pets" s in
  let log := drop (length (events s)) (events out.2) in
  out.1 = Ok "Found some."
  ∧ tool_calls_of log
    = [("search", Some "{q:cats}"); ("search", Some "{q:dogs}")]
  ∧ omap result_id (c_conversationHistory (self out.2))
    = ["call_1"; "call_2"].
Proof.
  pose (s := self_connected env_two_tools openai).
  pose (out := processQuery env_two_tools 0 "find pets" s).
  assert (out.1 = Ok "Found some.") as Hr by (vm_compute; reflexivity).
  assert (∃ ev, head (drop (length (events s)) (events out.2)) = Some ev
                ∧ answer_requests env_two_tools ev
                  = [("call_1", "search", Some "{q:cats}");
                     ("call_2", "search", Some "{q:dogs}")]) as (ev & Hev & Ha).
  { eexists. split; vm_compute; reflexivity. }
  destruct (tools_run_in_request_order env_two_tools 0 "find pets" s _ ev
              Hr Hev) as [Hc Hi].
  cbv zeta. fold s out. fold s out in Hc, Hi.
  split; [exact Hr|]. split.
  - rewrite Hc, Ha. reflexivity.
  - vm_compute. reflexivity.
Defined.

(** ** What the handlers do to the registry *)

Lemma handle_transitions env r st :
  rtc (transition env) st (handle env r st).2.
Proof.
  destruct r as [|authorization provider|query sessionId|sessionId|]; simpl.
  - apply rtc_refl.
  - rewrite connectHandler_run.
    destruct authorization as [authHeader|]; [|apply rtc_refl].
    destruct (String.prefix "Bearer " authHeader); [|apply rtc_refl].
    cbv zeta.
    set (out := createSession env _ _ st).
    eapply (rtc_l _ _ out.2); [by eapply transition_create|].
    destruct out as [[sessionId|e] st1]; simpl.
    + destruct (sessions st1 !! sessionId) as [session|] eqn:Hs;
        [|apply rtc_refl].
      apply rtc_once. by eapply transition_touch.
    + apply rtc_once. eapply transition_log; [done..|].
      by repeat constructor.
  - rewrite chatHandler_run.
    destruct (truthy query) as [q|]; [|apply rtc_refl].
    destruct (truthy sessionId) as [k|]; [|apply rtc_refl].
    destruct (sessions st !! k) as [session|] eqn:Hs; [|apply rtc_refl].
    cbv zeta.
    set (now := date_now env (trace st)).
    set (this := sd_mcpClient session).
    pose proof (processQuery_frame env this q
                  {| self := heap st !!! this;
                     events := trace st ++ [EvDate now] |})
      as ([hs Hh] & log & Ht & Hl).
    simpl in Hh, Ht.
    set (out := processQuery env this q _) in *.
    set (touched := set_lastActivity now session).
    eapply (rtc_l _ _ {| sessions := <[k := touched]> (sessions st);
                         heap := heap st;
                         trace := trace st ++ [EvDate now] |});
      [by eapply (transition_touch _ _ _ k session)|].
    eapply rtc_l.
    { eapply (transition_round _ _
                {| sessions := <[k := touched]> (sessions st);
                   heap := <[this := self out.2]> (heap st);
                   trace := events out.2 |} k touched hs log); simpl.
      - apply lookup_insert_eq.
      - done.
      - by rewrite Hh.
      - done.
      - done. }
    destruct out.1 as [response|error]; simpl.
    + rewrite app_nil_r. apply rtc_refl.
    + destruct (is_404 error).
      * eapply rtc_l.
        { eapply (transition_log _ _
                    {| sessions := <[k := touched]> (sessions st);
                       heap := <[this := self out.2]> (heap st);
                       trace := events out.2
                                ++ [EvConsole LLog
                                      "Session terminated by MCP server (404)"]
                    |}); simpl; [done..|].
          by repeat constructor. }
        apply rtc_once. eapply (transition_remove _ _ _ k touched); [|done].
        apply lookup_insert_eq.
      * apply rtc_once. eapply transition_log; simpl; [done..|].
        by repeat constructor.
  - rewrite disconnectHandler_run.
    destruct (truthy sessionId) as [k|]; [|apply rtc_refl].
    destruct (sessions st !! k) as [session|] eqn:Hs; [|apply rtc_refl].
    cbv zeta.
    eapply (rtc_l _ _
              {| sessions :=
                   <[k := set_lastActivity (date_now env (trace st)) session]>
                     (sessions st);
                 heap := heap st;
                 trace := trace st ++ [EvDate (date_now env (trace st))] |});
      [by eapply (transition_touch _ _ _ k session)|].
    apply rtc_once. eapply transition_remove; [|done].
    simpl. apply lookup_insert_eq.
  - apply rtc_refl.
Qed.

Lemma serve_transitions env rs st :
  rtc (transition env) st (serve env rs st).
Proof.
  revert st. induction rs as [|r rs IH]; intros st; simpl; [apply rtc_refl|].
  etrans; [apply handle_transitions|apply IH].
Qed.

Lemma transitions_invariant env (I : State → Prop) st st' :
  (∀ st1 st2, I st1 → transition env st1 st2 → I st2) →
  rtc (transition env) st st' → I st → I st'.
Proof. intros Hstep. induction 1; eauto. Qed.

(** ** The registry invariant *)

Lemma closes_app a log1 log2 :
  closes a (log1 ++ log2) = closes a log1 + closes a log2.
Proof. apply count_log_app. Qed.

Lemma closes_none a log :
  Forall (λ ev, is_close a ev = false) log → closes a log = 0.
Proof.
  induction 1 as [|ev log Hev _ IH]; [done|].
  unfold closes in *. by rewrite count_log_cons, Hev.
Qed.

Lemma closes_console a log :
  Forall (λ ev, is_console ev = true) log → closes a log = 0.
Proof.
  intros H. apply closes_none. eapply Forall_impl; [exact H|].
  by intros [].
Qed.

Lemma closes_chat a this log :
  Forall (λ ev, is_chat_event this ev = true) log → closes a log = 0.
Proof.
  intros H. apply closes_none. eapply Forall_impl; [exact H|].
  by intros [].
Qed.

Lemma closes_termination_request env c log a :
  closes a (termination_request env c log) = 0.
Proof.
  unfold termination_request.
  destruct (truthy (c_sessionId c)); [|done].
  destruct (c_transport c); [|done].
  unfold closes. rewrite !count_log_cons. simpl.
  unfold termination_report.
  by destruct (fetch_delete env log s (c_apiToken c)) as [status|];
    repeat case_match.
Qed.

(** A step that keeps the sessions' references, the connection fields of
    the clients and the closes keeps the invariant. *)
Lemma registry_ok_frame st st' :
  registry_ok st →
  (∀ a, closes a (trace st') = closes a (trace st)) →
  length (heap st') = length (heap st) →
  (∀ k s', sessions st' !! k = Some s' →
     ∃ s, sessions st !! k = Some s
          ∧ sd_sessionId s' = sd_sessionId s
          ∧ sd_mcpClient s' = sd_mcpClient s
          ∧ sd_provider s' = sd_provider s) →
  (∀ a c, heap st !! a = Some c →
     ∃ c', heap st' !! a = Some c'
           ∧ c_provider c' = c_provider c
           ∧ c_transport c' = c_transport c
           ∧ c_sessionId c' = c_sessionId c
           ∧ c_tools c' = c_tools c) →
  registry_ok st'.
Proof.
  intros (Hs & Hinj & Hc1 & Hc0) Hcl Hlen Hsess Hheap.
  split; [|split; [|split]].
  - intros k s' Hk. destruct (Hsess k s' Hk) as (s & Hs0 & E1 & E2 & E3).
    destruct (Hs k s Hs0) as (Hid & Hcz & c & Hc & Hp & Ht & Hd & ts & Hts).
    destruct (Hheap _ c Hc) as (c' & Hc' & F1 & F2 & F3 & F4).
    split; [congruence|]. split; [by rewrite Hcl, E2|].
    exists c'. rewrite E2, F1, F2, F3, F4, E3. eauto 10.
  - intros k1 k2 s1 s2 H1 H2 E.
    destruct (Hsess _ _ H1) as (s1' & ? & ? & ? & ?).
    destruct (Hsess _ _ H2) as (s2' & ? & ? & ? & ?).
    eapply Hinj; eauto. congruence.
  - intros a. rewrite Hcl. apply Hc1.
  - intros a Ha. rewrite Hcl. apply Hc0. lia.
Qed.

Lemma truthy_idemp o : truthy (truthy o) = truthy o.
Proof.
  destruct o as [s|]; [|done]. simpl.
  destruct (decide (s = "")) as [|Hne]; [done|]. simpl.
  by destruct (decide (s = "")).
Qed.

(** What a handshake does to the object it runs on. *)
Lemma connectToServer_effect env this s :
  let out := connectToServer env this s in
  ∃ log, events out.2 = events s ++ log
         ∧ (∀ a, closes a log = 0)
         ∧ ∀ id, out.1 = Ok id →
             c_provider (self out.2) = c_provider (self s)
             ∧ c_apiToken (self out.2) = c_apiToken (self s)
             ∧ c_conversationHistory (self out.2)
               = c_conversationHistory (self s)
             ∧ c_transport (self out.2) = true
             ∧ default "no-session" (truthy (c_sessionId (self out.2))) = id
             ∧ ∃ ts, c_tools (self out.2)
                     = convert_tools (c_provider (self s)) ts.
Proof.
  cbv zeta. rewrite connectToServer_run. cbv zeta.
  destruct (mcp_connect env _ _ _) as [sid|e].
  - destruct (mcp_listTools env _ _) as [ts|e]; simpl.
    + eexists. split; [by rewrite <- app_assoc|]. split.
      * intros a. unfold handshake_warning.
        by destruct (truthy sid).
      * intros id [= <-]. rewrite truthy_idemp. eauto 10.
    + eexists. split; [by rewrite <- app_assoc|]. split; [|done].
      intros a. unfold handshake_warning. by destruct (truthy sid).
  - simpl. eexists. split; [done|]. split; [|done]. by intros a.
Qed.

Lemma transition_registry_ok env st st' :
  registry_ok st → transition env st st' → registry_ok st'.
Proof.
  intros Hok [log Hs Hh Ht Hl|k session Hk Hs Hh Ht
              |k session hs log Hk Hs Hh Ht Hl|k session Hk ->
              |apiToken provider ->].
  - apply (registry_ok_frame st); [done| | | |].
    + intros a. by rewrite Ht, closes_app, (closes_console _ log), Nat.add_0_r.
    + by rewrite Hh.
    + rewrite Hs. eauto.
    + rewrite Hh. eauto 10.
  - apply (registry_ok_frame st); [done| | | |].
    + intros a. by rewrite Ht, closes_app, Nat.add_0_r.
    + by rewrite Hh.
    + rewrite Hs. intros k' s' [[-> <-]|[? ?]]%lookup_insert_Some; eauto.
    + rewrite Hh. eauto 10.
  - destruct Hok as (Hm & Hrest).
    destruct (Hm k session Hk) as (_ & _ & c & Hc & _).
    apply (registry_ok_frame st); [by split| | | |].
    + intros a.
      by rewrite Ht, closes_app, (closes_chat _ _ log Hl), Nat.add_0_r.
    + by rewrite Hh, length_insert.
    + rewrite Hs. eauto.
    + rewrite Hh. intros a c0 Ha.
      destruct (decide (a = sd_mcpClient session)) as [->|Hne].
      * rewrite list_lookup_insert_eq by by eapply lookup_lt_Some.
        rewrite (list_lookup_total_correct _ _ _ Hc).
        assert (c0 = c) as -> by congruence. eauto 10.
      * rewrite list_lookup_insert_ne by done. eauto 10.
  - destruct Hok as (Hm & Hinj & Hc1 & Hc0).
    rewrite removeSession_run, Hk. cbv zeta. simpl.
    set (this := sd_mcpClient session).
    set (t1 := trace st ++ termination_request env _ _).
    assert (∀ a, closes a (t1 ++ EvMcpClose this (mcp_close env t1 this)
                            :: match mcp_close env t1 this with
                               | Ok _ => []
                               | Throw e => [EvConsole LError (err_message e)]
                               end)
                 = closes a (trace st) + (if decide (a = this) then 1 else 0))
      as Hcl.
    { intros a. unfold t1.
      rewrite !closes_app, closes_termination_request, Nat.add_0_r.
      f_equal. unfold closes. rewrite count_log_cons. simpl.
      destruct (mcp_close env _ this); simpl;
        rewrite ?count_log_cons, ?count_log_nil; simpl;
        destruct (decide (a = this)) as [->|];
        rewrite ?bool_decide_eq_true_2, ?bool_decide_eq_false_2 by done;
        done. }
    destruct (Hm k session Hk) as (_ & Hz & c & Hc & _).
    split; [|split; [|split]]; simpl.
    + intros k' s' [Hne Hk']%lookup_delete_Some.
      destruct (Hm k' s' Hk') as (Hid & Hcz & Hcl').
      split; [done|]. split; [|done].
      rewrite Hcl, Hcz. destruct (decide _) as [E|]; [|done].
      destruct Hne. by eapply Hinj.
    + intros k1 k2 s1 s2 [_ H1]%lookup_delete_Some [_ H2]%lookup_delete_Some.
      by eapply Hinj.
    + intros a. rewrite Hcl. destruct (decide _) as [->|].
      * fold this in Hz. rewrite Hz. lia.
      * specialize (Hc1 a). lia.
    + intros a Ha. rewrite Hcl, Hc0 by done.
      destruct (decide _) as [->|]; [|done].
      apply lookup_lt_Some in Hc. fold this in Hc. lia.
  - destruct Hok as (Hm & Hinj & Hc1 & Hc0).
    rewrite createSession_run. cbv zeta.
    pose proof (connectToServer_effect env (length (heap st))
                  {| self := constructed apiToken provider;
                     events := trace st |}) as (log & Ht & Hl & Hid).
    cbv zeta in Ht, Hid. simpl in Ht, Hid.
    set (out := connectToServer env _ _) in *.
    assert (∀ a c, heap st !! a = Some c →
                   (heap st ++ [self out.2]) !! a = Some c) as Hold.
    { intros a c Ha. by apply lookup_app_l_Some. }
    destruct out.1 as [id|e] eqn:Hout; simpl.
    + destruct (Hid id eq_refl) as (Hp & _ & _ & Htr & Hdef & ts & Hts).
      assert (∀ a, closes a (events out.2
                              ++ [EvDate (date_now env (events out.2));
                                  EvDate (date_now env
                                    (events out.2
                                     ++ [EvDate (date_now env
                                                   (events out.2))]))])
                   = closes a (trace st)) as Hcl.
      { intros a. by rewrite Ht, !closes_app, Hl, !Nat.add_0_r. }
      split; [|split; [|split]]; simpl.
      * intros k' s' [[<- <-]|[Hne Hk']]%lookup_insert_Some.
        -- split; [done|]. simpl. split.
           { rewrite Hcl. by apply Hc0. }
           exists (self out.2). rewrite lookup_app_r by done.
           rewrite Nat.sub_diag. simpl. rewrite Hp. eauto 10.
        -- destruct (Hm k' s' Hk') as (? & ? & c & Hc & ?).
           split; [done|]. split; [by rewrite Hcl|].
           exists c. split; [by apply Hold|]. done.
      * intros k1 k2 s1 s2 [[<- <-]|[Hn1 H1]]%lookup_insert_Some
                           [[<- <-]|[Hn2 H2]]%lookup_insert_Some; simpl;
          [done| | |by eapply Hinj].
        -- destruct (Hm k2 s2 H2) as (_ & _ & c & Hc%lookup_lt_Some & _).
           lia.
        -- destruct (Hm k1 s1 H1) as (_ & _ & c & Hc%lookup_lt_Some & _).
           lia.
      * intros a. rewrite Hcl. apply Hc1.
      * intros a. rewrite length_app, Hcl. simpl. intros. apply Hc0. lia.
    + assert (∀ a, closes a (events out.2) = closes a (trace st)) as Hcl.
      { intros a. by rewrite Ht, !closes_app, Hl, !Nat.add_0_r. }
      split; [|split; [|split]]; simpl.
      * intros k' s' Hk'.
        destruct (Hm k' s' Hk') as (? & ? & c & Hc & ?).
        split; [done|]. split; [by rewrite Hcl|].
        exists c. split; [by apply Hold|]. done.
      * done.
      * intros a. rewrite Hcl. apply Hc1.
      * intros a. rewrite length_app, Hcl. simpl. intros. apply Hc0. lia.
Qed.

Lemma registry_ok_initial : registry_ok initial_state.
Proof.
  split; [|split; [|split]]; simpl.
  - apply map_Forall_empty.
  - intros k1 k2 s1 s2 H. by rewrite lookup_empty in H.
  - intros a. unfold closes. rewrite count_log_nil. lia.
  - done.
Qed.

Lemma registry_ok_serve env rs : registry_ok (serve env rs initial_state).
Proof.
  eapply transitions_invariant;
    [apply transition_registry_ok|apply serve_transitions
    |apply registry_ok_initial].
Qed.

Lemma default_truthy_nonempty o : default "no-session" (truthy o) ≠ "".
Proof.
  destruct o as [s|]; [|done]. simpl.
  by destruct (decide (s = "")).
Qed.

(** In every state the server reaches, a registered session is stored
    under its own [sessionId], which is not empty and is the id its client
    holds from the handshake, or the sentinel when it holds none; its
    client is allocated, connected, built for the provider the session
    records, holds the listed tools in that provider's shape, and has never
    been closed. *)
Theorem registered_session_well_formed env rs k session :
  let st := serve env rs initial_state in
  sessions st !! k = Some session →
  sd_sessionId session = k ∧ k ≠ ""
  ∧ count_log (is_close (sd_mcpClient session)) (trace st) = 0
  ∧ ∃ c ts,
      heap st !! sd_mcpClient session = Some c
      ∧ c_provider c = sd_provider session
      ∧ c_transport c = true
      ∧ k = default "no-session" (truthy (c_sessionId c))
      ∧ c_tools c = convert_tools (sd_provider session) ts.
Proof.
  intros st Hk.
  destruct (proj1 (registry_ok_serve env rs) k session Hk)
    as (Hid & Hcl & c & Hc & Hp & Ht & Hd & ts & Hts).
  split; [done|]. split; [rewrite <- Hd; apply default_truthy_nonempty|].
  split; [done|]. exists c, ts. by rewrite <- Hp.
Qed.

Lemma registered_session_well_formed_witness :
  let st := serve env_no_session_id
              [PostConnect (Some "Bearer tok") (Some "openai")]
              initial_state in
  ∃ session,
    sessions st !! "no-session" = Some session
    ∧ sd_sessionId session = "no-session"
    ∧ count_log (is_close (sd_mcpClient session)) (trace st) = 0.
Proof.
  cbv zeta.
  assert (is_Some (sessions (serve env_no_session_id
                               [PostConnect (Some "Bearer tok")
                                            (Some "openai")]
                               initial_state) !! "no-session"))
    as [session Hs] by (vm_compute; eauto).
  destruct (registered_session_well_formed _ _ _ _ Hs) as (Hid & _ & Hcl & _).
  exists session. split; [exact Hs|]. split; [exact Hid|exact Hcl].
Defined.

(** In every state the server reaches, two sessions registered under
    different ids never reference the same client object. *)
Theorem sessions_reference_distinct_clients env rs k1 k2 session1 session2 :
  let st := serve env rs initial_state in
  sessions st !! k1 = Some session1 →
  sessions st !! k2 = Some session2 →
  k1 ≠ k2 →
  sd_mcpClient session1 ≠ sd_mcpClient session2.
Proof.
  intros st H1 H2 Hne E. apply Hne.
  by eapply (proj1 (proj2 (registry_ok_serve env rs))).
Qed.

Lemma sessions_reference_distinct_clients_witness :
  let st := serve env_one_tool
              [PostConnect (Some "Bearer tok1") None;
               PostConnect (Some "Bearer tok2") (Some "ollama")]
              initial_state in
  ∃ session1 session2,
    sessions st !! "session-a" = Some session1
    ∧ sessions st !! "session-b" = Some session2
    ∧ sd_mcpClient session1 ≠ sd_mcpClient session2.
Proof.
  cbv zeta.
  set (st := serve env_one_tool _ initial_state).
  assert (is_Some (sessions st !! "session-a")) as [session1 H1]
    by (vm_compute; eauto).
  assert (is_Some (sessions st !! "session-b")) as [session2 H2]
    by (vm_compute; eauto).
  assert ("session-a" ≠ "session-b") as Hne by done.
  exists session1, session2. split; [exact H1|]. split; [exact H2|].
  exact (sessions_reference_distinct_clients _ _ _ _ _ _ H1 H2 Hne).
Defined.

(** ** The reconnect flag of a chat response *)

(** A chat request for a registered session answers with
    [requiresReconnect: true] exactly when it has removed the session from
    the registry. *)
Theorem chat_flag_iff_session_removed env query sessionId st k :
  let out := chatHandler env query sessionId st in
  truthy sessionId = Some k →
  is_Some (sessions st !! k) →
  (∃ text, out.1 = Ok {| status := 404;
                         body := ErrorBody text (Some true) |})
  ↔ sessions out.2 !! k = None.
Proof.
  cbv zeta. intros Hk [session Hs]. rewrite chatHandler_run, Hk.
  destruct (truthy query) as [q|]; simpl.
  - rewrite Hs. cbv zeta.
    destruct (processQuery env _ _ _).1 as [response|error]; simpl.
    + rewrite lookup_insert_eq. split; [by intros [? ?]|done].
    + destruct (is_404 error); simpl.
      * rewrite removeSession_sessions. simpl. rewrite lookup_delete_eq.
        split; [done|]. intros _. by eexists.
      * rewrite lookup_insert_eq. split; [by intros [? ?]|done].
  - rewrite Hs. split; [by intros [? ?]|done].
Qed.

Lemma chat_flag_iff_session_removed_witness :
  let out := chatHandler env_tool_404 (Some "find cats") (Some "session-a")
               state_tool_404 in
  is_Some (sessions state_tool_404 !! "session-a")
  ∧ sessions out.2 !! "session-a" = None
  ∧ ∃ text, out.1 = Ok {| status := 404;
                          body := ErrorBody text (Some true) |}.
Proof.
  cbv zeta.
  assert (is_Some (sessions state_tool_404 !! "session-a")) as Hs
    by (vm_compute; eauto).
  assert (sessions (chatHandler env_tool_404 (Some "find cats")
                      (Some "session-a") state_tool_404).2 !! "session-a"
          = None) as Hn by (vm_compute; reflexivity).
  split; [exact Hs|]. split; [exact Hn|].
  exact (proj2 (chat_flag_iff_session_removed env_tool_404
                  (Some "find cats") (Some "session-a") state_tool_404
                  "session-a" eq_refl Hs) Hn).
Defined.

(** ** Requests on one session leave the others alone *)

Lemma removeSession_heap env k st :
  heap (removeSession env k st).2 = heap st.
Proof. rewrite removeSession_run. by destruct (sessions st !! k). Qed.

(** In every state the server reaches, a request other than a connect
    leaves each session it does not address as it is: its registry entry,
    last activity included, and its client object, history included. *)
Theorem request_leaves_other_sessions env rs r k session :
  let st := serve env rs initial_state in
  let out := handle env r st in
  is_connect_request r = false →
  sessions st !! k = Some session →
  target r ≠ Some k →
  sessions out.2 !! k = Some session
  ∧ heap out.2 !! sd_mcpClient session = heap st !! sd_mcpClient session.
Proof.
  intros st out Hr Hk Ht. subst out.
  pose proof (sessions_distinct := proj1 (proj2 (registry_ok_serve env rs))).
  fold st in sessions_distinct.
  destruct r as [|authorization provider|query sessionId|sessionId|];
    simpl in *; try done.
  - rewrite chatHandler_run.
    destruct (truthy query) as [q|]; [|done].
    destruct (truthy sessionId) as [k0|]; [|done].
    destruct (sessions st !! k0) as [session0|] eqn:H0; [|done].
    assert (k0 ≠ k) as Hne by congruence.
    assert (sd_mcpClient session0 ≠ sd_mcpClient session) as Hc.
    { intros E. apply Hne. by eapply sessions_distinct. }
    cbv zeta. destruct (processQuery env _ _ _).1 as [response|error]; simpl.
    + by rewrite lookup_insert_ne, list_lookup_insert_ne.
    + destruct (is_404 error); simpl.
      * rewrite removeSession_sessions, removeSession_heap. simpl.
        by rewrite lookup_delete_ne, lookup_insert_ne, list_lookup_insert_ne.
      * by rewrite lookup_insert_ne, list_lookup_insert_ne.
  - rewrite disconnectHandler_run.
    destruct (truthy sessionId) as [k0|]; [|done].
    destruct (sessions st !! k0) as [session0|] eqn:H0; [|done].
    assert (k0 ≠ k) as Hne by congruence.
    cbv zeta. cbn [fst snd].
    rewrite removeSession_sessions, removeSession_heap. simpl.
    by rewrite lookup_delete_ne, lookup_insert_ne.
Qed.

Lemma request_leaves_other_sessions_witness :
  let rs := [PostConnect (Some "Bearer tok1") None;
             PostConnect (Some "Bearer tok2") None] in
  let st := serve env_one_tool rs initial_state in
  let out := handle env_one_tool
               (PostChat (Some "find cats") (Some "session-a")) st in
  ∃ session,
    sessions st !! "session-b" = Some session
    ∧ sessions out.2 !! "session-b" = Some session
    ∧ heap out.2 !! 1 = heap st !! 1
    ∧ length (history_of out.2 0) = 4.
Proof.
  cbv zeta.
  set (rs := [PostConnect (Some "Bearer tok1") None;
              PostConnect (Some "Bearer tok2") None]).
  set (st := serve env_one_tool rs initial_state).
  assert (is_Some (sessions st !! "session-b")) as [session Hs]
    by (vm_compute; eauto).
  assert (sd_mcpClient session = 1) as Ha.
  { vm_compute in Hs. by injection Hs as <-. }
  destruct (request_leaves_other_sessions env_one_tool rs
              (PostChat (Some "find cats") (Some "session-a"))
              "session-b" session eq_refl Hs) as [H1 H2]; [done|].
  fold st in H1, H2. rewrite Ha in H2.
  exists session. split; [exact Hs|]. split; [exact H1|].
  split; [exact H2|]. vm_compute. reflexivity.
Defined.

(** A connect request leaves every client object allocated before as it
    is, and every registered session too, unless it answers with that
    session's id. *)
Theorem connect_leaves_existing env authorization provider st k session a c :
  let out := connectHandler env authorization provider st in
  sessions st !! k = Some session →
  heap st !! a = Some c →
  heap out.2 !! a = Some c
  ∧ (sessions out.2 !! k = Some session
     ∨ ∃ message p tools,
         out.1 = Ok {| status := 200;
                       body := ConnectBody k message p tools |}).
Proof.
  cbv zeta. intros Hk Ha. rewrite connectHandler_run.
  destruct authorization as [authHeader|]; [|by split; [|left]].
  destruct (String.prefix "Bearer " authHeader); [|by split; [|left]].
  cbv zeta. rewrite createSession_run. cbv zeta.
  destruct (connectToServer env _ _).1 as [id|e]; simpl.
  - rewrite lookup_insert_eq. simpl.
    split; [by apply lookup_app_l_Some|].
    destruct (decide (id = k)) as [->|Hne]; [right; eauto|left].
    by rewrite !lookup_insert_ne.
  - split; [by apply lookup_app_l_Some|by left].
Qed.

Lemma connect_leaves_existing_witness :
  let st := serve env_one_tool [PostConnect (Some "Bearer tok1") None]
              initial_state in
  let out := connectHandler env_one_tool (Some "Bearer tok2") None st in
  ∃ session c,
    sessions st !! "session-a" = Some session
    ∧ heap st !! 0 = Some c
    ∧ heap out.2 !! 0 = Some c
    ∧ sessions out.2 !! "session-a" = Some session.
Proof.
  cbv zeta.
  set (st := serve env_one_tool _ initial_state).
  assert (is_Some (sessions st !! "session-a")) as [session Hs]
    by (vm_compute; eauto).
  assert (is_Some (heap st !! 0)) as [c Hc] by (vm_compute; eauto).
  destruct (connect_leaves_existing env_one_tool (Some "Bearer tok2") None
              st "session-a" session 0 c Hs Hc) as [Hh Hk].
  exists session, c. split; [exact Hs|]. split; [exact Hc|].
  split; [exact Hh|].
  destruct Hk as [Hk|(message & p & tools & Hr)]; [exact Hk|].
  vm_compute in Hr. discriminate Hr.
Defined.

(** ** Disconnecting a registered session *)

(** In every state the server reaches, a disconnect for a registered
    session answers 200 and removes the session, whatever the DELETE and
    the close answer.  The DELETE is sent exactly when the client holds an
    id from the handshake; it then names the session's registry key and the
    client's token, and it comes before the close. *)
Theorem disconnect_termination_request env rs k session :
  let st := serve env rs initial_state in
  let out := disconnectHandler env (Some k) st in
  let this := sd_mcpClient session in
  let c := heap st !!! this in
  sessions st !! k = Some session →
  out.1 = Ok {| status := 200;
                body := DisconnectBody "Session disconnected successfully"
                                       k |}
  ∧ sessions out.2 = delete k (sessions st)
  ∧ ∃ now request closed reported,
      new_events st out.2
      = EvDate now :: request ++ EvMcpClose this closed :: reported
      ∧ (truthy (c_sessionId c) = None → request = [])
      ∧ (∀ sid, truthy (c_sessionId c) = Some sid →
           sid = k
           ∧ ∃ answer level text,
               request = [EvFetchDelete k (c_apiToken c) answer;
                          EvConsole level text])
      ∧ Forall (λ ev, is_console ev = true) reported.
Proof.
  intros st out this c Hk. subst out.
  destruct (proj1 (registry_ok_serve env rs) k session Hk)
    as (_ & _ & c' & Hc & _ & Htr & Hd & _).
  fold st this in Hc. apply list_lookup_total_correct in Hc. fold c in Hc.
  subst c'.
  assert (k ≠ "") as Hne by (rewrite <- Hd; apply default_truthy_nonempty).
  rewrite disconnectHandler_run, (truthy_Some _ Hne), Hk. cbv zeta.
  cbn [fst snd]. split; [done|].
  rewrite removeSession_sessions. simpl. split; [apply delete_insert_eq|].
  rewrite removeSession_run. simpl. rewrite lookup_insert_eq. simpl.
  fold this c.
  set (now := date_now env (trace st)).
  set (t1 := (trace st ++ [EvDate now]) ++ termination_request env c _).
  exists now, (termination_request env c (trace st ++ [EvDate now])),
    (mcp_close env t1 this),
    (match mcp_close env t1 this with
     | Ok _ => []
     | Throw e => [EvConsole LError (err_message e)]
     end).
  split; [|split; [|split]].
  - apply new_events_app. simpl. unfold t1. by rewrite <- !app_assoc.
  - unfold termination_request. by intros ->.
  - intros sid Hsid. unfold termination_request. rewrite Hsid, Htr.
    rewrite Hsid in Hd. simpl in Hd. subst sid. split; [done|].
    exists (fetch_delete env (trace st ++ [EvDate now]) k (c_apiToken c)).
    unfold termination_report.
    destruct (fetch_delete env _ k (c_apiToken c)) as [status|e];
      repeat case_match; eauto.
  - destruct (mcp_close env t1 this); by repeat constructor.
Qed.

Lemma disconnect_termination_request_witness :
  let st := serve env_delete_405 [PostConnect (Some "Bearer tok") None]
              initial_state in
  let out := disconnectHandler env_delete_405 (Some "session-a") st in
  is_Some (sessions st !! "session-a")
  ∧ out.1 = Ok {| status := 200;
                  body := DisconnectBody "Session disconnected successfully"
                                         "session-a" |}
  ∧ sessions out.2 !! "session-a" = None
  ∧ EvFetchDelete "session-a" "tok" (Ok 405%Z) ∈ new_events st out.2.
Proof.
  cbv zeta.
  set (st := serve env_delete_405 _ initial_state).
  assert (is_Some (sessions st !! "session-a")) as [session Hs]
    by (vm_compute; eauto).
  destruct (disconnect_termination_request env_delete_405
              [PostConnect (Some "Bearer tok") None] "session-a" session Hs)
    as (Hr & Hd & _).
  fold st in Hr, Hd.
  split; [by exists session|]. split; [exact Hr|]. split.
  - rewrite Hd. apply lookup_delete_eq.
  - vm_compute. apply list_elem_of_further, list_elem_of_here.
Defined.

(** ** The session listing *)

(** In every state the server reaches, the listing has one entry per
    registered session: the ids listed are pairwise different and are
    exactly the registry keys; the count reported, also by the health
    check, is their number; and neither request changes the state. *)
Theorem sessions_listing_ids env rs :
  let st := serve env rs initial_state in
  ∃ listing,
    sessionsHandler st
    = (Ok {| status := 200;
             body := SessionsBody (length listing) listing |}, st)
    ∧ healthCheck st
      = (Ok {| status := 200; body := HealthBody (length listing) |}, st)
    ∧ NoDup (map listed_id listing)
    ∧ ∀ k, k ∈ map listed_id listing ↔ is_Some (sessions st !! k).
Proof.
  intros st. unfold sessionsHandler, healthCheck, bind, getSessions, ret.
  exists (map (λ kv : string * SessionData,
                 let session := kv.2 in
                 let c := heap st !!! sd_mcpClient session in
                 (sd_sessionId session, sd_createdAt session,
                  sd_lastActivity session, sd_provider session,
                  length (c_conversationHistory c),
                  map tool_name (c_tools c)))
              (map_to_list (sessions st))).
  rewrite length_map, length_map_to_list.
  split; [reflexivity|]. split; [reflexivity|].
  rewrite map_map. unfold listed_id. simpl.
  assert (map (λ kv : string * SessionData, sd_sessionId kv.2)
              (map_to_list (sessions st))
          = (map_to_list (sessions st)).*1) as ->.
  { apply map_ext_in. intros [k session] Hin%list_elem_of_In.
    apply elem_of_map_to_list in Hin. simpl.
    by destruct (proj1 (registry_ok_serve env rs) k session Hin). }
  split; [apply NoDup_fst_map_to_list|].
  intros k. rewrite list_elem_of_fmap. split.
  - intros ([k' session] & -> & Hin%elem_of_map_to_list). by exists session.
  - intros [session Hs]. exists (k, session). split; [done|].
    by apply elem_of_map_to_list.
Qed.

(** ** How a chat round starts *)

Lemma bind_run {S A B} (c : M S A) (k : A → M S B) s :
  bind c k s = match c s with
               | (Ok a, s') => k a s'
               | (Throw e, s') => (Throw e, s')
               end.
Proof. done. Qed.

Lemma frame_continue this (c : M Self string) s1 h0 t0 ev :
  pres (chat_frame this s1) c →
  (∃ hs1, c_conversationHistory (self s1) = h0 ++ hs1) →
  events s1 = t0 ++ [ev] →
  ∃ hs log,
    c_conversationHistory (self (c s1).2) = h0 ++ hs
    ∧ events (c s1).2 = t0 ++ ev :: log.
Proof.
  intros Hc [hs1 Hh] Ht.
  destruct (Hc s1 (chat_frame_refl this s1)) as ([hs Hs] & log & Hl & _).
  exists (hs1 ++ hs), log. rewrite Hs, Hl, Ht. simpl.
  by rewrite Hh, <- !app_assoc.
Qed.

Ltac round_start :=
  cbn [negb]; rewrite bind_run; cbn [modifyThis];
  rewrite bind_run; cbn [getThis];
  rewrite bind_run;
  cbn [external self events push_message c_conversationHistory c_tools].

Ltac round_rest this :=
  apply (frame_continue this);
  [ unfold first_choice;
    repeat first
      [ apply pres_frame_anthropic_loop
      | apply pres_frame_openai_tool_loop
      | apply pres_frame_ollama_tool_loop
      | frame_step ]
  | by exists []; rewrite app_nil_r
  | done ].

Lemma processQuery_first_call env this query s :
  let out := processQuery env this query s in
  let h := c_conversationHistory (self s) ++ [UserMessage query] in
  client_ok (self s) →
  ∃ hs log,
    c_conversationHistory (self out.2) = h ++ hs
    ∧ events out.2
      = events s ++ model_call_event env (self s) (events s) h :: log.
Proof.
  cbv zeta. intros (Ha & Ho & Hl). rewrite processQuery_unfold.
  unfold model_call_event.
  destruct (c_provider (self s)); simpl in Ha, Ho, Hl.
  - unfold processQueryWithAnthropic. rewrite bind_run. cbn [getThis].
    rewrite Ha. round_start.
    destruct (anthropic_messages_create env _ _ _) as [response|e];
      [round_rest this|].
    exists [], []. simpl. by rewrite app_nil_r.
  - unfold processQueryWithOpenAI. rewrite bind_run. cbn [getThis].
    rewrite Ho. round_start.
    destruct (openai_chat_completions_create env _ _ _) as [response|e];
      [round_rest this|].
    exists [], []. simpl. by rewrite app_nil_r.
  - unfold processQueryWithOllama. rewrite bind_run. cbn [getThis].
    rewrite Hl. round_start.
    destruct (ollama_chat env _ _ _) as [response|e];
      [round_rest this|].
    exists [], []. simpl. by rewrite app_nil_r.
Qed.

(** Whatever its outcome, a chat round of a well-constructed client starts
    with one model call that carries the whole history followed by the
    user message, and the user message stays in the history: it is not
    taken back when the round fails. *)
Theorem round_starts_with_model_call env this query s :
  let out := processQuery env this query s in
  let h := c_conversationHistory (self s) ++ [UserMessage query] in
  client_ok (self s) →
  ∃ hs log,
    c_conversationHistory (self out.2) = h ++ hs
    ∧ events out.2
      = events s ++ model_call_event env (self s) (events s) h :: log.
Proof. apply processQuery_first_call. Qed.

Lemma round_starts_with_model_call_witness :
  let s0 := self_connected (env_model_fails error_500) anthropic in
  let s1 := (processQuery (env_model_fails error_500) 0 "first" s0).2 in
  let out := processQuery (env_model_fails error_500) 0 "second" s1 in
  client_ok (self s1)
  ∧ ∃ tools log,
      events out.2
      = events s1
        ++ EvAnthropicCreate [UserMessage "first"; UserMessage "second"]
             tools (Throw error_500) :: log.
Proof.
  cbv zeta.
  set (env := env_model_fails error_500).
  set (s1 := (processQuery env 0 "first" (self_connected env anthropic)).2).
  assert (client_ok (self s1)) as Hok by (by vm_compute).
  destruct (round_starts_with_model_call env 0 "second" s1 Hok)
    as (hs & log & _ & Ht).
  split; [exact Hok|]. eexists _, log. rewrite Ht. reflexivity.
Defined.

(** ** Time stamps *)

Lemma stamped_app env log log' session :
  stamped env log session → stamped env (log ++ log') session.
Proof.
  intros (t0 & t1 & t2 & -> & Hc & Hl).
  exists t0, t1, (t2 ++ log'). by rewrite <- !app_assoc.
Qed.

Lemma stamps_ok_extend env st st' log :
  stamps_ok env st →
  (∀ k session, sessions st' !! k = Some session →
                sessions st !! k = Some session) →
  trace st' = trace st ++ log →
  stamps_ok env st'.
Proof.
  intros Hok Hs Ht k session Hk. rewrite Ht.
  apply stamped_app, (Hok k), Hs, Hk.
Qed.

Lemma transition_stamps_ok env st st' :
  stamps_ok env st → transition env st st' → stamps_ok env st'.
Proof.
  intros Hok [log Hs Hh Ht Hl|k session Hk Hs Hh Ht
              |k session hs log Hk Hs Hh Ht Hl|k session Hk ->
              |apiToken provider ->].
  - apply (stamps_ok_extend env st st' log); [done| |done].
    by rewrite Hs.
  - intros k' s'. rewrite Hs, Ht.
    intros [[<- <-]|[? Hk']]%lookup_insert_Some.
    + destruct (Hok k session Hk) as (t0 & t1 & t2 & E & Hc & _).
      exists t0, (t1 ++ t2), [EvDate (date_now env (trace st))].
      simpl. rewrite E, <- !app_assoc. done.
    + by apply stamped_app, (Hok k').
  - apply (stamps_ok_extend env st st' log); [done| |done].
    by rewrite Hs.
  - rewrite removeSession_run, Hk. cbv zeta. cbn [snd].
    eapply (stamps_ok_extend env st); [done| |].
    + simpl. by intros k' s' [_ ?]%lookup_delete_Some.
    + simpl. rewrite <- app_assoc. reflexivity.
  - rewrite createSession_run. cbv zeta.
    pose proof (connectToServer_effect env (length (heap st))
                  {| self := constructed apiToken provider;
                     events := trace st |}) as (log & Ht & _).
    cbv zeta in Ht. simpl in Ht.
    set (out := connectToServer env _ _) in *.
    destruct out.1 as [id|e]; cbn [snd].
    + intros k' s'. simpl.
      intros [[<- <-]|[? Hk']]%lookup_insert_Some.
      * eexists (events out.2), [_], [_]. simpl. done.
      * rewrite Ht, <- app_assoc. by apply stamped_app, (Hok k').
    + by eapply (stamps_ok_extend env st).
Qed.

(** With a clock that never goes back, in every state the server reaches
    a registered session was created no later than its last activity, and
    its last activity is not later than the present reading of the
    clock. *)
Theorem created_before_last_activity env rs k session :
  let st := serve env rs initial_state in
  clock_monotone env →
  sessions st !! k = Some session →
  (sd_createdAt session ≤ sd_lastActivity session
   ≤ date_now env (trace st))%Z.
Proof.
  intros st Hclock Hk.
  assert (stamps_ok env st) as Hok.
  { eapply transitions_invariant;
      [apply transition_stamps_ok|apply serve_transitions|].
    apply map_Forall_empty. }
  destruct (Hok k session Hk) as (t0 & t1 & t2 & -> & -> & ->).
  split; [apply Hclock|]. rewrite app_assoc. apply Hclock.
Qed.

Lemma created_before_last_activity_witness :
  let st := serve env_one_tool
              [PostConnect (Some "Bearer tok") None;
               PostChat (Some "find cats") (Some "session-a")]
              initial_state in
  clock_monotone env_one_tool
  ∧ ∃ session,
      sessions st !! "session-a" = Some session
      ∧ (sd_createdAt session ≤ sd_lastActivity session)%Z.
Proof.
  cbv zeta.
  set (st := serve env_one_tool _ initial_state).
  assert (clock_monotone env_one_tool) as Hclock.
  { intros t t'. simpl. rewrite length_app. lia. }
  assert (is_Some (sessions st !! "session-a")) as [session Hs]
    by (vm_compute; eauto).
  split; [exact Hclock|]. exists session. split; [exact Hs|].
  exact (proj1 (created_before_last_activity env_one_tool _ _ _ Hclock Hs)).
Defined.

(** ** A connect that fails *)

Lemma connectToServer_transport env this s :
  c_transport (self (connectToServer env this s).2) = true.
Proof.
  rewrite connectToServer_run. cbv zeta.
  destruct (mcp_connect env _ _ _); [|done].
  by destruct (mcp_listTools env _ _).
Qed.

Lemma createSession_transport env apiToken provider st :
  ∃ c, heap (createSession env apiToken provider st).2
       = heap st ++ [c] ∧ c_transport c = true.
Proof.
  rewrite createSession_run. cbv zeta.
  pose proof (connectToServer_transport env (length (heap st))
                {| self := constructed apiToken provider;
                   events := trace st |}) as Ht.
  destruct (connectToServer env _ _).1; simpl; eauto.
Qed.

(** When a connect request, in any state the server reaches, is answered
    with "Failed to connect to MCP server", the client object it has
    allocated, with its transport set, is not registered and is never
    closed: no later request references or closes it. *)
Theorem failed_connect_leaves_client_open
    env rs0 authorization provider rs :
  let st := serve env rs0 initial_state in
  let out := connectHandler env authorization provider st in
  out.1 = Ok {| status := 500;
                body := ErrorBody "Failed to connect to MCP server" None |} →
  (∃ c, heap out.2 = heap st ++ [c] ∧ c_transport c = true)
  ∧ sessions out.2 = sessions st
  ∧ unreachable (length (heap st)) (serve env rs out.2).
Proof.
  intros st out. subst out. rewrite connectHandler_run.
  destruct authorization as [authHeader|]; [|done].
  destruct (String.prefix "Bearer " authHeader); [|done].
  cbv zeta.
  set (apiToken := String.substring _ _ _).
  set (modelProvider := match provider with Some _ => _ | None => _ end).
  destruct (createSession_transport env apiToken modelProvider st)
    as (c & Hheap & Htr).
  destruct (createSession_effect env apiToken modelProvider st)
    as (c' & log & answer & _ & _ & Htrace & Hclose & _ & Hout).
  cbv zeta in Hout.
  destruct (createSession env apiToken modelProvider st) as [[id|e] st1];
    simpl in *.
  { by destruct (sessions st1 !! id). }
  intros _. destruct Hout as [Hs _].
  split; [eauto|]. split; [done|].
  apply (serve_invariant env (unreachable (length (heap st))));
    [intros ? ?; apply unreachable_step|].
  pose proof (state_ok_serve env rs0) as [Hreg Hbelow]. fold st in Hreg, Hbelow.
  split; [|split]; simpl.
  - rewrite Hheap, length_app. simpl. lia.
  - rewrite Hs. intros k session Hk.
    destruct (Hreg k session Hk) as [Hlt _]. lia.
  - intros ans. rewrite Htrace, !elem_of_app.
    intros [[Hin|Hin]|Hin].
    + rewrite Forall_forall in Hbelow. specialize (Hbelow _ Hin).
      simpl in Hbelow. lia.
    + by eapply Hclose.
    + by apply list_elem_of_singleton in Hin.
Qed.

Lemma failed_connect_leaves_client_open_witness :
  let out := connectHandler env_connect_fails (Some "Bearer tok") None
               initial_state in
  out.1 = Ok {| status := 500;
                body := ErrorBody "Failed to connect to MCP server" None |}
  ∧ length (heap out.2) = 1
  ∧ unreachable 0
      (serve env_connect_fails [PostDisconnect (Some "no-session")] out.2).
Proof.
  cbv zeta.
  assert ((connectHandler env_connect_fails (Some "Bearer tok") None
                          initial_state).1
          = Ok {| status := 500;
                  body := ErrorBody "Failed to connect to MCP server"
                                    None |}) as Hr
    by (vm_compute; reflexivity).
  destruct (failed_connect_leaves_client_open env_connect_fails []
              (Some "Bearer tok") None
              [PostDisconnect (Some "no-session")] Hr) as (_ & _ & Hun).
  split; [exact Hr|]. split; [vm_compute; reflexivity|exact Hun].
Defined.

(** ** A chat round stops at the first failure *)

Lemma clean_failure_last {A} t0 (r : Outcome A) s :
  clean_since t0 s → failure_last t0 r s.
Proof.
  intros (log & Ht & Hl). exists log. split; [done|].
  destruct r; [done|by left].
Qed.

Lemma halts_ret {A} t0 (a : A) : halts t0 (ret a).
Proof. intros s H. by apply clean_failure_last. Qed.

Lemma halts_throw {A} t0 e : halts t0 (@throw Self A e).
Proof. intros s H. by apply clean_failure_last. Qed.

Lemma halts_getThis t0 : halts t0 getThis.
Proof. intros s H. by apply clean_failure_last. Qed.

Lemma halts_modifyThis t0 f : halts t0 (modifyThis f).
Proof. intros s H. by apply clean_failure_last. Qed.

Lemma halts_bind {A B} t0 (c : M Self A) (k : A → M Self B) :
  halts t0 c → (∀ a, halts t0 (k a)) → halts t0 (bind c k).
Proof.
  intros Hc Hk. eapply hoare_bind; [apply Hc| |].
  - intros a s (log & Ht & Hl). apply Hk. by exists log.
  - intros e s (log & Ht & Hl). by exists log.
Qed.

Lemma halts_external {A} t0 (oracle : list Event → Outcome A) ev :
  (∀ a, event_error (ev (Ok a)) = None) →
  (∀ e, event_error (ev (Throw e)) = Some e) →
  halts t0 (external oracle ev).
Proof.
  intros Hok Hthrow s (log & Ht & Hl). unfold external. simpl.
  exists (log ++ [ev (oracle (events s))]). rewrite Ht, app_assoc.
  split; [done|]. destruct (oracle _) as [a|e].
  - apply Forall_app. split; [done|]. constructor; [apply Hok | constructor].
  - right. eauto.
Qed.

Ltac halts_step :=
  lazymatch goal with
  | |- halts _ (bind _ _) => apply halts_bind; [|intros ?]
  | |- halts _ (ret _) => apply halts_ret
  | |- halts _ (throw _) => apply halts_throw
  | |- halts _ getThis => apply halts_getThis
  | |- halts _ (modifyThis _) => apply halts_modifyThis
  | |- halts _ (external _ _) =>
      apply halts_external; intros ?; reflexivity
  | |- halts _ (if ?b then _ else _) => destruct b
  | |- halts _ (match ?x with _ => _ end) => destruct x
  end.

Lemma halts_anthropic_loop env this t0 blocks acc :
  halts t0 (anthropic_loop env this blocks acc).
Proof.
  revert acc. induction blocks as [|b rest IH]; intros acc; simpl.
  - apply halts_ret.
  - destruct b; [apply IH | | apply IH].
    unfold callTool. repeat halts_step. apply IH.
Qed.

Lemma halts_openai_tool_loop env this t0 tcs :
  halts t0 (openai_tool_loop env this tcs).
Proof.
  induction tcs as [|tc rest IH]; simpl; [apply halts_ret|].
  unfold callTool, parse_json. repeat halts_step; apply IH.
Qed.

Lemma halts_ollama_tool_loop env this t0 tcs :
  halts t0 (ollama_tool_loop env this tcs).
Proof.
  induction tcs as [|tc rest IH]; simpl; [apply halts_ret|].
  unfold callTool, parse_json. repeat halts_step; apply IH.
Qed.

Lemma halts_processQuery env this query t0 :
  halts t0 (processQuery env this query).
Proof.
  unfold processQuery, processQueryWithAnthropic, processQueryWithOpenAI,
    processQueryWithOllama, first_choice.
  repeat first
    [ apply halts_anthropic_loop
    | apply halts_openai_tool_loop
    | apply halts_ollama_tool_loop
    | halts_step ].
Qed.

(** A failed outside call is the last thing a chat round does: no tool or
    model is called after it, no call before it has failed, and the round
    throws its error. *)
Theorem round_stops_at_first_failure env this query s l1 ev l2 e :
  let out := processQuery env this query s in
  drop (length (events s)) (events out.2) = l1 ++ ev :: l2 →
  event_error ev = Some e →
  l2 = [] ∧ no_failure l1 ∧ out.1 = Throw e.
Proof.
  intros out Hlog He.
  destruct (halts_processQuery env this query (events s) s)
    as (log & Ht & Hr).
  { exists []. split; [by rewrite app_nil_r | constructor]. }
  fold out in Ht, Hr. rewrite Ht, drop_app_length in Hlog. subst log.
  assert (ev ∈ l1 ++ ev :: l2) as Hin
    by (apply elem_of_app; right; apply list_elem_of_here).
  destruct out.1 as [a|e'].
  { by destruct (no_failure_elem _ _ _ Hr Hin He). }
  destruct Hr as [Hr|(l & ev' & Hl & Hclean & He')].
  { by destruct (no_failure_elem _ _ _ Hr Hin He). }
  destruct l2 as [|x l2 _] using rev_ind.
  - apply app_inj_tail in Hl as [-> ->]. split; [done|]. split; [done|].
    congruence.
  - change (l1 ++ ev :: l2 ++ [x]) with (l1 ++ (ev :: l2) ++ [x]) in Hl.
    rewrite app_assoc in Hl. apply app_inj_tail in Hl as [<- _].
    destruct (no_failure_elem _ ev e Hclean); [|done].
    apply elem_of_app. right. apply list_elem_of_here.
Qed.

Lemma round_stops_at_first_failure_witness :
  let s := self_connected env_tool_404 anthropic in
  let out := processQuery env_tool_404 0 "find cats" s in
  drop (length (events s)) (events out.2)
  = [EvAnthropicCreate [UserMessage "find cats"]
       [AnthropicTool "search" "Search the catalogue" "{type:object}"]
       (Ok [ToolUseBlock "toolu_1" "search" "{q:cats}"])]
    ++ EvCallTool 0 "search" "{q:cats}" (Throw error_404) :: []
  ∧ out.1 = Throw error_404.
Proof.
  cbv zeta.
  set (s := self_connected env_tool_404 anthropic).
  assert (drop (length (events s))
            (events (processQuery env_tool_404 0 "find cats" s).2)
          = [EvAnthropicCreate [UserMessage "find cats"]
               [AnthropicTool "search" "Search the catalogue"
                              "{type:object}"]
               (Ok [ToolUseBlock "toolu_1" "search" "{q:cats}"])]
            ++ EvCallTool 0 "search" "{q:cats}" (Throw error_404) :: [])
    as Hlog by (vm_compute; reflexivity).
  split; [exact Hlog|].
  exact (proj2 (proj2 (round_stops_at_first_failure env_tool_404 0
                         "find cats" s _ _ _ error_404 Hlog eq_refl))).
Defined.

(** ** The text a round answers with *)

Lemma last_push_message m c :
  last (c_conversationHistory (push_message m c)) = Some m.
Proof. apply last_snoc. Qed.

Lemma processQueryWithOpenAI_response env this query s r s' :
  processQueryWithOpenAI env this query s = (Ok r, s') →
  ∃ m, last (c_conversationHistory (self s')) = Some m
       ∧ message_text m = Some r.
Proof.
  intros H. unfold processQueryWithOpenAI in H.
  apply bind_ok_inv in H as (c0 & s0 & [= <- <-] & H).
  destruct (c_openai (self s)); cbn [negb] in H; [|done].
  apply bind_ok_inv in H as ([] & s1 & [= <-] & H).
  apply bind_ok_inv in H as (c & s2 & [= <- <-] & H).
  apply bind_ok_inv in H as (response & s3 & [Hcall ->]%external_ok_inv & H).
  apply bind_ok_inv in H as (message & s4 & Hfirst & H).
  destruct response as [|m choices]; [done|]. injection Hfirst as -> <-.
  apply bind_ok_inv in H as ([] & s5 & [= <-] & H). cbn [self events] in H.
  destruct (oam_tool_calls message) as [tcs|] eqn:Htc.
  2:{ injection H as <- <-. cbn [self]. rewrite last_push_message.
      by eexists. }
  case_bool_decide as Hlen.
  2:{ injection H as <- <-. cbn [self]. rewrite last_push_message.
      by eexists. }
  apply bind_ok_inv in H as ([] & s6 & Hloop & H).
  apply bind_ok_inv in H as (c' & s7 & [= <- <-] & H).
  apply bind_ok_inv in H as (response' & s8 & [Hcall' ->]%external_ok_inv & H).
  apply bind_ok_inv in H as (followup & s9 & Hfirst & H).
  destruct response' as [|m' choices']; [done|]. injection Hfirst as -> <-.
  apply bind_ok_inv in H as ([] & s10 & [= <-] & H). injection H as <- <-.
  cbn [self]. rewrite last_push_message. by eexists.
Qed.

Lemma processQueryWithOllama_response env this query s r s' :
  processQueryWithOllama env this query s = (Ok r, s') →
  ∃ m, last (c_conversationHistory (self s')) = Some m
       ∧ message_text m = Some r.
Proof.
  intros H. unfold processQueryWithOllama in H.
  apply bind_ok_inv in H as (c0 & s0 & [= <- <-] & H).
  destruct (c_ollama (self s)); cbn [negb] in H; [|done].
  apply bind_ok_inv in H as ([] & s1 & [= <-] & H).
  apply bind_ok_inv in H as (c & s2 & [= <- <-] & H).
  apply bind_ok_inv in H as (message & s3 & [Hcall ->]%external_ok_inv & H).
  apply bind_ok_inv in H as ([] & s5 & [= <-] & H). cbn [self events] in H.
  destruct (olm_tool_calls message) as [tcs|] eqn:Htc.
  2:{ injection H as <- <-. cbn [self]. rewrite last_push_message.
      by eexists. }
  case_bool_decide as Hlen.
  2:{ injection H as <- <-. cbn [self]. rewrite last_push_message.
      by eexists. }
  apply bind_ok_inv in H as ([] & s6 & Hloop & H).
  apply bind_ok_inv in H as (c' & s7 & [= <- <-] & H).
  apply bind_ok_inv in H as (followup & s8 & [Hcall' ->]%external_ok_inv & H).
  apply bind_ok_inv in H as ([] & s10 & [= <-] & H). injection H as <- <-.
  cbn [self]. rewrite last_push_message. by eexists.
Qed.

(** On OpenAI and Ollama, the text a round that runs to its end answers
    with is the content of the last message it has pushed, the empty
    string when that content is missing or empty.  When tools were called
    this is the follow-up answer alone: the text of the first answer is
    not part of the response. *)
Theorem function_round_answers_last_message env this query s response :
  let out := processQuery env this query s in
  c_provider (self s) ≠ anthropic →
  out.1 = Ok response →
  ∃ m, last (c_conversationHistory (self out.2)) = Some m
       ∧ message_text m = Some response.
Proof.
  cbv zeta. rewrite processQuery_unfold. intros Hp.
  destruct (c_provider (self s)); [done| |].
  - destruct (processQueryWithOpenAI env this query s) as [r s'] eqn:Hrun.
    cbn [fst snd]. intros ->.
    by eapply processQueryWithOpenAI_response.
  - destruct (processQueryWithOllama env this query s) as [r s'] eqn:Hrun.
    cbn [fst snd]. intros ->.
    by eapply processQueryWithOllama_response.
Qed.

Lemma function_round_answers_last_message_witness :
  let s := self_connected env_text_and_tool openai in
  let out := processQuery env_text_and_tool 0 "find cats" s in
  out.1 = Ok "Found 3 results."
  ∧ (processQuery env_text_and_tool 0 "find cats"
       (self_connected env_text_and_tool anthropic)).1
    = Ok "Let me look. Found 3 results."
  ∧ ∃ m, last (c_conversationHistory (self out.2)) = Some m
         ∧ message_text m = Some "Found 3 results.".
Proof.
  cbv zeta.
  set (s := self_connected env_text_and_tool openai).
  assert (c_provider (self s) ≠ anthropic) as Hp by (by vm_compute).
  assert ((processQuery env_text_and_tool 0 "find cats" s).1
          = Ok "Found 3 results.") as Hr by (vm_compute; reflexivity).
  split; [exact Hr|]. split; [vm_compute; reflexivity|].
  exact (function_round_answers_last_message env_text_and_tool 0
           "find cats" s _ Hp Hr).
Defined.

(** * TokenUtil *)

Lemma prepareBackendSystemKey_run env inputToken secret log :
  TokenUtil.prepareBackendSystemKey env inputToken secret log =
  let failed msg :=
    TokenUtil.Raise
      (TokenUtil.ErrorObject
         ("Failed to prepare backend system key: " +:+ msg)) in
  let decoded := TokenUtil.jwt_decode env log inputToken in
  let log1 := log ++ [TokenUtil.EvDecode inputToken decoded] in
  match decoded with
  | TokenUtil.Raise t => (failed (TokenUtil.error_message t), log1)
  | TokenUtil.Return d =>
      if negb (TokenUtil.decoded_truthy d) then
        (failed "Invalid JWT token provided", log1)
      else
        let workspaceId := TokenUtil.get_field d "workspace-id" in
        let memberId := TokenUtil.get_field d "member-id" in
        if negb (TokenUtil.js_truthy workspaceId)
           || negb (TokenUtil.js_truthy memberId) then
          (failed
             "Required fields (workspace-id, member-id) not found in token",
           log1)
        else
          let signed :=
            TokenUtil.jwt_sign env log1 workspaceId memberId secret in
          let log2 :=
            log1 ++ [TokenUtil.EvSign workspaceId memberId secret signed] in
          match signed with
          | TokenUtil.Return key => (TokenUtil.Return key, log2)
          | TokenUtil.Raise t => (failed (TokenUtil.error_message t), log2)
          end
  end.
Proof.
  unfold TokenUtil.prepareBackendSystemKey, TokenUtil.try_catch,
    TokenUtil.bind, TokenUtil.external, TokenUtil.throw, TokenUtil.ret.
  cbv zeta.
  destruct (TokenUtil.jwt_decode env log inputToken) as [d|t]; [|done].
  destruct (negb (TokenUtil.decoded_truthy d)); [done|].
  destruct (negb _ || negb _); [done|].
  by destruct (TokenUtil.jwt_sign env _ _ _ _).
Qed.

Lemma fetchApiToken_run env key log :
  TokenUtil.fetchApiToken env key log =
  let failed msg :=
    TokenUtil.Raise
      (TokenUtil.ErrorObject ("Failed to fetch API token: " +:+ msg)) in
  let answer := TokenUtil.fetch_memberships env log key in
  let log1 := log ++ [TokenUtil.EvFetch key answer] in
  (match answer with
   | TokenUtil.Raise t => failed (TokenUtil.error_message t)
   | TokenUtil.Return response =>
       if negb (TokenUtil.resp_ok response) then
         failed ("HTTP error! status: "
                 +:+ pretty (TokenUtil.resp_status response))
       else
         match TokenUtil.resp_json response with
         | TokenUtil.Raise t => failed (TokenUtil.error_message t)
         | TokenUtil.Return (Some (firstMembership :: _)) =>
             match TokenUtil.apiTokens firstMembership with
             | Some (token :: _) => TokenUtil.Return token
             | _ => failed "No API tokens found in first membership"
             end
         | TokenUtil.Return _ => failed "No memberships found in response"
         end
   end, log1).
Proof.
  unfold TokenUtil.fetchApiToken, TokenUtil.try_catch, TokenUtil.bind,
    TokenUtil.external, TokenUtil.throw, TokenUtil.ret, TokenUtil.settle.
  cbv zeta.
  destruct (TokenUtil.fetch_memberships env log key) as [response|t];
    [|done].
  destruct (negb (TokenUtil.resp_ok response)); [done|].
  destruct (TokenUtil.resp_json response) as [[[|m ms]|]|t]; try done.
  by destruct (TokenUtil.apiTokens m) as [[|token tokens]|].
Qed.

Lemma getApiTokenForMCP_run env inputToken secret log :
  TokenUtil.getApiTokenForMCP env inputToken secret log =
  let failed t :=
    TokenUtil.Raise
      (TokenUtil.ErrorObject ("Failed to get API token for MCP: "
                              +:+ TokenUtil.error_message t)) in
  let prepared :=
    TokenUtil.prepareBackendSystemKey env inputToken secret log in
  match prepared.1 with
  | TokenUtil.Raise t => (failed t, prepared.2)
  | TokenUtil.Return key =>
      let fetched := TokenUtil.fetchApiToken env key prepared.2 in
      match fetched.1 with
      | TokenUtil.Raise t => (failed t, fetched.2)
      | TokenUtil.Return apiToken => (TokenUtil.Return apiToken, fetched.2)
      end
  end.
Proof.
  unfold TokenUtil.getApiTokenForMCP, TokenUtil.try_catch, TokenUtil.bind,
    TokenUtil.throw, TokenUtil.ret.
  cbv zeta.
  destruct (TokenUtil.prepareBackendSystemKey env _ _ log) as [[key|t] log1];
    [|done].
  simpl. by destruct (TokenUtil.fetchApiToken env key log1) as [[tok|t] log2].
Qed.

Lemma backend_key_signs_token_fields_aux env inputToken secret log key log' :
  TokenUtil.prepareBackendSystemKey env inputToken secret log
  = (TokenUtil.Return key, log') →
  ∃ field,
    log' = log ++ [TokenUtil.EvDecode inputToken
                     (TokenUtil.Return (TokenUtil.DecodedObject field));
                   TokenUtil.EvSign (field "workspace-id")
                     (field "member-id") secret (TokenUtil.Return key)]
    ∧ TokenUtil.js_truthy (field "workspace-id") = true
    ∧ TokenUtil.js_truthy (field "member-id") = true.
Proof.
  rewrite prepareBackendSystemKey_run. cbv zeta.
  destruct (TokenUtil.jwt_decode env log inputToken) as [d|t]; [|done].
  destruct (negb (TokenUtil.decoded_truthy d)); [done|].
  destruct (negb _ || negb _) eqn:Hf; [done|].
  apply orb_false_elim in Hf as [Hw%negb_false_iff Hm%negb_false_iff].
  destruct (TokenUtil.jwt_sign env _ _ _ _) as [key'|t] eqn:Hs; [|done].
  intros [= -> <-]. destruct d as [|s|field]; [done..|].
  exists field. simpl in *. by rewrite <- app_assoc.
Qed.

(** When [prepareBackendSystemKey] returns a key, the input token decoded
    to an object whose workspace-id and member-id are both truthy, and the
    key is what the library signed over exactly these two values with the
    given secret.  The method has decoded the token and signed once, and
    nothing else: the input token is never verified. *)
Theorem backend_key_signs_token_fields env inputToken secret log key log' :
  TokenUtil.prepareBackendSystemKey env inputToken secret log
  = (TokenUtil.Return key, log') →
  ∃ field,
    TokenUtil.js_truthy (field "workspace-id") = true
    ∧ TokenUtil.js_truthy (field "member-id") = true
    ∧ log' = log ++ [TokenUtil.EvDecode inputToken
                       (TokenUtil.Return (TokenUtil.DecodedObject field));
                     TokenUtil.EvSign (field "workspace-id")
                       (field "member-id") secret (TokenUtil.Return key)].
Proof.
  intros (field & -> & Hw & Hm)%backend_key_signs_token_fields_aux.
  by exists field.
Qed.

Lemma backend_key_signs_token_fields_witness :
  ∃ log',
    TokenUtil.prepareBackendSystemKey TokenUtil.env_example "user.jwt"
      "s3cret" []
    = (TokenUtil.Return "key.s3cret", log')
    ∧ length log' = 2.
Proof.
  assert (∃ log',
            TokenUtil.prepareBackendSystemKey TokenUtil.env_example
              "user.jwt" "s3cret" []
            = (TokenUtil.Return "key.s3cret", log')) as [log' Hrun]
    by (eexists; vm_compute; reflexivity).
  destruct (backend_key_signs_token_fields _ _ _ _ _ _ Hrun)
    as (field & _ & _ & Hlog).
  exists log'. split; [exact Hrun|]. by rewrite Hlog.
Defined.

(** When the backend system key cannot be prepared, [getApiTokenForMCP]
    sends no HTTP request: it logs what the preparation logged, and throws
    an [Error] whose message nests the message of the preparation. *)
Theorem no_request_without_backend_key env inputToken secret log t :
  let prepared :=
    TokenUtil.prepareBackendSystemKey env inputToken secret log in
  let out := TokenUtil.getApiTokenForMCP env inputToken secret log in
  prepared.1 = TokenUtil.Raise t →
  (∃ message,
     out.1 = TokenUtil.Raise
               (TokenUtil.ErrorObject
                  ("Failed to get API token for MCP: Failed to prepare backend system key: "
                   +:+ message)))
  ∧ out.2 = prepared.2
  ∧ Forall (λ ev, TokenUtil.is_fetch ev = false) (drop (length log) out.2).
Proof.
  cbv zeta. rewrite getApiTokenForMCP_run. cbv zeta.
  intros Hp. rewrite Hp. cbn [fst snd]. revert Hp.
  rewrite prepareBackendSystemKey_run. cbv zeta.
  destruct (TokenUtil.jwt_decode env log inputToken) as [d|t0].
  2:{ intros [= <-]. cbn [fst snd]. rewrite drop_app_length.
      split; [by eexists|]. by repeat constructor. }
  destruct (negb (TokenUtil.decoded_truthy d)).
  { intros [= <-]. cbn [fst snd]. rewrite drop_app_length.
    split; [by eexists|]. by repeat constructor. }
  destruct (negb _ || negb _).
  { intros [= <-]. cbn [fst snd]. rewrite drop_app_length.
    split; [by eexists|]. by repeat constructor. }
  destruct (TokenUtil.jwt_sign env _ _ _ _) as [key'|t0]; [done|].
  intros [= <-]. cbn [fst snd]. rewrite <- app_assoc, drop_app_length.
  split; [by eexists|]. by repeat constructor.
Qed.

Lemma no_request_without_backend_key_witness :
  let out := TokenUtil.getApiTokenForMCP TokenUtil.env_example "garbage"
               "s3cret" [] in
  out.1 = TokenUtil.Raise
            (TokenUtil.ErrorObject
               "Failed to get API token for MCP: Failed to prepare backend system key: Invalid JWT token provided")
  ∧ Forall (λ ev, TokenUtil.is_fetch ev = false) out.2.
Proof.
  cbv zeta.
  assert ((TokenUtil.prepareBackendSystemKey TokenUtil.env_example
             "garbage" "s3cret" []).1
          = TokenUtil.Raise
              (TokenUtil.ErrorObject
                 "Failed to prepare backend system key: Invalid JWT token provided"))
    as Hp by (vm_compute; reflexivity).
  destruct (no_request_without_backend_key _ _ _ _ _ Hp) as (_ & _ & Hf).
  split; [vm_compute; reflexivity|exact Hf].
Defined.

(** When [getApiTokenForMCP] returns a token, it has decoded the input
    token, signed a key and sent one request carrying exactly that key;
    the response was ok and the token is the first token of the first
    membership of its body. *)
Theorem api_token_is_first_of_first_membership
    env inputToken secret log apiToken log' :
  TokenUtil.getApiTokenForMCP env inputToken secret log
  = (TokenUtil.Return apiToken, log') →
  ∃ decoded workspaceId memberId key response firstMembership memberships
    tokens,
    log' = log ++ [TokenUtil.EvDecode inputToken decoded;
                   TokenUtil.EvSign workspaceId memberId secret
                                    (TokenUtil.Return key);
                   TokenUtil.EvFetch key (TokenUtil.Return response)]
    ∧ TokenUtil.resp_ok response = true
    ∧ TokenUtil.resp_json response
      = TokenUtil.Return (Some (firstMembership :: memberships))
    ∧ TokenUtil.apiTokens firstMembership = Some (apiToken :: tokens).
Proof.
  rewrite getApiTokenForMCP_run. cbv zeta.
  destruct (TokenUtil.prepareBackendSystemKey env inputToken secret log)
    as [[key|t] log1] eqn:Hp; cbn [fst snd]; [|done].
  apply backend_key_signs_token_fields_aux in Hp as (field & -> & _).
  rewrite fetchApiToken_run. cbv zeta. cbn [fst snd].
  destruct (TokenUtil.fetch_memberships env _ key) as [response|t];
    [|done].
  destruct (negb (TokenUtil.resp_ok response)) eqn:Hok; [done|].
  apply negb_false_iff in Hok.
  destruct (TokenUtil.resp_json response) as [[[|m ms]|]|t] eqn:Hj;
    try done.
  destruct (TokenUtil.apiTokens m) as [[|token tokens]|] eqn:Ht; try done.
  intros [= -> <-]. eexists _, _, _, key, response, m, ms, tokens.
  split; [by rewrite <- app_assoc|]. done.
Qed.

Lemma api_token_is_first_of_first_membership_witness :
  ∃ log',
    TokenUtil.getApiTokenForMCP TokenUtil.env_example "user.jwt" "s3cret" []
    = (TokenUtil.Return "tok-1", log')
    ∧ length log' = 3.
Proof.
  assert (∃ log',
            TokenUtil.getApiTokenForMCP TokenUtil.env_example "user.jwt"
              "s3cret" []
            = (TokenUtil.Return "tok-1", log')) as [log' Hrun]
    by (eexists; vm_compute; reflexivity).
  destruct (api_token_is_first_of_first_membership _ _ _ _ _ _ Hrun)
    as (? & ? & ? & ? & ? & ? & ? & ? & Hlog & _).
  exists log'. split; [exact Hrun|]. by rewrite Hlog.
Defined.

(** No method of [TokenUtil] throws anything but an [Error] whose message
    starts with the method's own prefix, whatever the library or the
    request threw; the message of [getApiTokenForMCP] goes on with the
    prefix of the step that failed. *)
Theorem token_failures_are_wrapped env inputToken secret token key log :
  TokenUtil.wrapped "Failed to prepare backend system key: "
    (TokenUtil.prepareBackendSystemKey env inputToken secret log).1
  ∧ TokenUtil.wrapped "Failed to decode token: "
      (TokenUtil.decodeToken env token log).1
  ∧ TokenUtil.wrapped "Failed to verify token: "
      (TokenUtil.verifyToken env token secret log).1
  ∧ TokenUtil.wrapped "Failed to fetch API token: "
      (TokenUtil.fetchApiToken env key log).1
  ∧ TokenUtil.wrapped "Failed to get API token for MCP: Failed to "
      (TokenUtil.getApiTokenForMCP env inputToken secret log).1.
Proof.
  assert (∀ log, TokenUtil.wrapped "Failed to prepare backend system key: "
            (TokenUtil.prepareBackendSystemKey env inputToken secret log).1)
    as Hprep.
  { intros l. rewrite prepareBackendSystemKey_run. cbv zeta.
    destruct (TokenUtil.jwt_decode env l inputToken) as [d|t];
      [|by eexists].
    destruct (negb (TokenUtil.decoded_truthy d)); [by eexists|].
    destruct (negb _ || negb _); [by eexists|].
    destruct (TokenUtil.jwt_sign env _ _ _ _); [done|by eexists]. }
  assert (∀ key log, TokenUtil.wrapped "Failed to fetch API token: "
            (TokenUtil.fetchApiToken env key log).1) as Hfetch.
  { intros k l. rewrite fetchApiToken_run. cbv zeta. cbn [fst].
    destruct (TokenUtil.fetch_memberships env l k) as [response|t];
      [|by eexists].
    destruct (negb (TokenUtil.resp_ok response)); [by eexists|].
    destruct (TokenUtil.resp_json response) as [[[|m ms]|]|t];
      try by eexists.
    destruct (TokenUtil.apiTokens m) as [[|tok toks]|]; by eexists. }
  split; [apply Hprep|]. split.
  { unfold TokenUtil.decodeToken, TokenUtil.try_catch, TokenUtil.external,
      TokenUtil.throw.
    destruct (TokenUtil.jwt_decode env log token); [done|by eexists]. }
  split.
  { unfold TokenUtil.verifyToken, TokenUtil.try_catch, TokenUtil.external,
      TokenUtil.throw.
    destruct (TokenUtil.jwt_verify env log token secret);
      [done|by eexists]. }
  split; [apply Hfetch|].
  rewrite getApiTokenForMCP_run. cbv zeta.
  specialize (Hprep log).
  destruct (TokenUtil.prepareBackendSystemKey env inputToken secret log)
    as [[k|t] log1]; cbn [fst snd] in *.
  - specialize (Hfetch k log1).
    destruct (TokenUtil.fetchApiToken env k log1) as [[tok|t] log2];
      cbn [fst snd] in *; [done|].
    destruct Hfetch as [message ->]. by eexists.
  - destruct Hprep as [message ->]. by eexists.
Qed.
(** ** A chat on a registered session *)

(** In every state the server reaches, a chat with a non-empty query on a
    registered session reads the clock and then calls the model of the
    session's provider with the whole history of its client followed by
    the query: the round never stops short of the model. *)
Theorem chat_reaches_model env rs query k session :
  let st := serve env rs initial_state in
  let out := chatHandler env (Some query) (Some k) st in
  let c := heap st !!! sd_mcpClient session in
  let now := date_now env (trace st) in
  query ≠ "" →
  sessions st !! k = Some session →
  ∃ log,
    new_events st out.2
    = EvDate now
      :: model_call_event env c (trace st ++ [EvDate now])
           (c_conversationHistory c ++ [UserMessage query])
      :: log.
Proof.
  intros st out c now Hq Hk. subst out.
  destruct (proj1 (state_ok_serve env rs) k session Hk) as [_ Hc].
  fold st c in Hc.
  destruct (proj1 (registry_ok_serve env rs) k session Hk)
    as (_ & _ & c' & _ & _ & _ & Hd & _).
  assert (k ≠ "") as Hne by (rewrite <- Hd; apply default_truthy_nonempty).
  rewrite chatHandler_run, (truthy_Some _ Hq), (truthy_Some _ Hne), Hk.
  cbv zeta. fold now c.
  destruct (processQuery_first_call env (sd_mcpClient session) query
              {| self := c; events := trace st ++ [EvDate now] |} Hc)
    as (hs & log & _ & Ht).
  cbn [self events] in Ht.
  set (o := processQuery env _ _ _) in *.
  destruct o.1 as [response|error]; cbn [snd].
  - eexists. apply new_events_app. simpl.
    rewrite app_nil_r, Ht, <- app_assoc. reflexivity.
  - destruct (is_404 error); cbn [snd].
    + rewrite removeSession_run. simpl. rewrite lookup_insert_eq. simpl.
      eexists. apply new_events_app. simpl.
      rewrite Ht, <- !app_assoc. simpl. rewrite <- ?app_assoc. reflexivity.
    + eexists. apply new_events_app. simpl.
      rewrite Ht, <- !app_assoc. reflexivity.
Qed.

Lemma chat_reaches_model_witness :
  let st := serve env_one_tool [PostConnect (Some "Bearer tok") None]
              initial_state in
  let out := chatHandler env_one_tool (Some "find cats") (Some "session-a")
               st in
  ∃ now tools answer log,
    new_events st out.2
    = EvDate now
      :: EvAnthropicCreate [UserMessage "find cats"] tools answer :: log.
Proof.
  cbv zeta.
  set (st := serve env_one_tool _ initial_state).
  assert (is_Some (sessions st !! "session-a")) as [session Hs]
    by (vm_compute; eauto).
  assert (sd_mcpClient session = 0) as Ha.
  { vm_compute in Hs. by injection Hs as <-. }
  assert ("find cats" ≠ "") as Hq by done.
  destruct (chat_reaches_model env_one_tool
              [PostConnect (Some "Bearer tok") None] "find cats"
              "session-a" session Hq Hs) as [log Hlog].
  fold st in Hlog. rewrite Ha in Hlog.
  eexists _, _, _, log. rewrite Hlog. reflexivity.
Defined.

Lemma processQuery_ok_history env this query s r s' :
  processQuery env this query s = (Ok r, s') →
  ∃ reply hs,
    self s' = append_history (UserMessage query :: reply :: hs) (self s)
    ∧ is_assistant reply = true.
Proof.
  rewrite processQuery_unfold. destruct (c_provider (self s)).
  - intros (h & tools & answer & hs & log & Hh & _)%processQueryWithAnthropic_ok.
    by eexists _, hs.
  - intros (h & tools & message & choices & hs & log & Hh & _)
             %processQueryWithOpenAI_ok.
    by eexists _, hs.
  - intros (h & tools & message & hs & log & Hh & _)%processQueryWithOllama_ok.
    by eexists _, hs.
Qed.

(** In every state the server reaches, a chat answered 200 names the
    session it was asked for, which stays registered, and reports as
    conversation length the length of the history of that session's client
    after the round: the former history, the query, the assistant's reply
    and whatever the round pushed after it. *)
Theorem chat_ok_reports_history env rs query sessionId response :
  let st := serve env rs initial_state in
  let out := chatHandler env query sessionId st in
  out.1 = Ok response →
  status response = 200%Z →
  ∃ q k session text reply hs,
    truthy query = Some q ∧ truthy sessionId = Some k
    ∧ sessions st !! k = Some session
    ∧ is_Some (sessions out.2 !! k)
    ∧ body response
      = ChatBody text k (length (history_of out.2 (sd_mcpClient session)))
    ∧ history_of out.2 (sd_mcpClient session)
      = history_of st (sd_mcpClient session) ++ UserMessage q :: reply :: hs
    ∧ is_assistant reply = true.
Proof.
  intros st out. subst out. rewrite chatHandler_run.
  destruct (truthy query) as [q|]; [|by intros [= <-]].
  destruct (truthy sessionId) as [k|]; [|by intros [= <-]].
  destruct (sessions st !! k) as [session|] eqn:Hk; [|by intros [= <-]].
  destruct (proj1 (state_ok_serve env rs) k session Hk) as [Hlt _].
  fold st in Hlt. cbv zeta.
  destruct (processQuery env _ _ _) as [[text|error] s'] eqn:Hrun;
    cbn [fst snd].
  - intros [= <-] _.
    apply processQuery_ok_history in Hrun as (reply & hs & Hh & Hr).
    cbn [self] in Hh.
    exists q, k, session, text, reply, hs. unfold history_of. simpl.
    rewrite lookup_insert_eq, list_lookup_total_insert_eq, Hh by done.
    repeat split; eauto.
  - destruct (is_404 error); by intros [= <-].
Qed.

Lemma chat_ok_reports_history_witness :
  let st := serve env_one_tool [PostConnect (Some "Bearer tok") None]
              initial_state in
  let out := chatHandler env_one_tool (Some "find cats") (Some "session-a")
               st in
  out.1 = Ok {| status := 200;
                body := ChatBody "Found 3 results." "session-a" 4 |}
  ∧ length (history_of out.2 0) = 4.
Proof.
  cbv zeta.
  set (st := serve env_one_tool _ initial_state).
  assert ((chatHandler env_one_tool (Some "find cats") (Some "session-a")
             st).1
          = Ok {| status := 200;
                  body := ChatBody "Found 3 results." "session-a" 4 |})
    as Hr by (vm_compute; reflexivity).
  destruct (chat_ok_reports_history env_one_tool
              [PostConnect (Some "Bearer tok") None] (Some "find cats")
              (Some "session-a") _ Hr eq_refl)
    as (q & k & session & text & reply & hs & _ & _ & _ & _ & _ & _ & _).
  split; [exact Hr|]. vm_compute. reflexivity.
Defined.

(** ** A chat round with one tool request *)











(** ** Sequences of creates *)

Lemma createSession_outcome env apiToken provider st :
  let out := createSession env apiToken provider st in
  ∃ log answer,
    trace out.2 = trace st ++ log
    ∧ length (heap out.2) = S (length (heap st))
    ∧ handshake_answers log = [answer]
    ∧ match answer with
      | Throw e => out.1 = Throw e
      | Ok sid =>
          out.1 = Ok (default "no-session" (truthy sid))
          ∨ ∃ e, out.1 = Throw e
                 ∧ EvListTools (length (heap st)) (Throw e) ∈ log
      end.
Proof.
  cbv zeta. rewrite createSession_run. cbv zeta.
  rewrite connectToServer_run. cbv zeta. cbn [self events].
  destruct (mcp_connect env _ _ _) as [sid|e]; simpl.
  - assert (∀ rest, handshake_answers
                      (EvMcpConnect (length (heap st)) apiToken (Ok sid)
                       :: handshake_warning sid ++ rest)
                    = Ok sid :: handshake_answers rest) as Hw.
    { intros rest. unfold handshake_warning. by destruct (truthy sid). }
    destruct (mcp_listTools env _ _) as [ts|e]; simpl.
    + eexists _, (Ok sid). rewrite <- !app_assoc. simpl.
      split; [reflexivity|]. rewrite length_app, Nat.add_1_r.
      split; [done|]. rewrite Hw. split; [done|]. by left.
    + eexists _, (Ok sid). rewrite <- !app_assoc. simpl.
      split; [reflexivity|]. rewrite length_app, Nat.add_1_r.
      split; [done|]. rewrite Hw. split; [done|].
      right. exists e. split; [done|].
      apply list_elem_of_further, elem_of_app. right.
      apply list_elem_of_here.
  - eexists _, (Throw e). split; [reflexivity|].
    rewrite length_app, Nat.add_1_r. done.
Qed.

Lemma createSessions_length env requests st :
  length (createSessions env requests st).1 = length requests.
Proof.
  revert st. induction requests as [|[apiToken provider] rest IH];
    intros st; simpl; [done|]. by rewrite IH.
Qed.

Lemma createSessions_outcomes env requests st i :
  let out := createSessions env requests st in
  i < length requests →
  ∃ log answer r,
    trace out.2 = trace st ++ log
    ∧ handshake_answers log !! i = Some answer
    ∧ out.1 !! i = Some r
    ∧ match answer with
      | Throw e => r = Throw e
      | Ok sid =>
          r = Ok (default "no-session" (truthy sid))
          ∨ ∃ e, r = Throw e
                 ∧ EvListTools (length (heap st) + i) (Throw e) ∈ log
      end.
Proof.
  revert st i. induction requests as [|[apiToken provider] rest IH];
    intros st i; simpl; [lia|]. intros Hi.
  destruct (createSession_outcome env apiToken provider st)
    as (log1 & answer1 & Ht1 & Hlen & Ha1 & Hout).
  set (out1 := createSession env apiToken provider st) in *.
  assert (∃ log2, trace (createSessions env rest out1.2).2
                  = trace out1.2 ++ log2) as [log2 Ht2].
  { clear. generalize out1.2. induction rest as [|[tok p] rest IH];
      intros st1; simpl.
    - exists []. by rewrite app_nil_r.
    - destruct (createSession_outcome env tok p st1) as (l1 & _ & H1 & _).
      destruct (IH (createSession env tok p st1).2) as [l2 H2].
      exists (l1 ++ l2). by rewrite H2, H1, app_assoc. }
  destruct i as [|i].
  - exists (log1 ++ log2), answer1, out1.1.
    rewrite Ht2, Ht1, <- app_assoc, handshake_answers_app, Ha1.
    split; [done|]. split; [done|]. split; [done|].
    destruct answer1 as [sid|e]; [|done].
    destruct Hout as [?|(e & ? & Hin)]; [by left|right].
    exists e. split; [done|]. rewrite Nat.add_0_r.
    apply elem_of_app. by left.
  - destruct (IH out1.2 i) as (log & answer & r & Ht & Ha & Hr & Hm); [lia|].
    assert (log = log2) as -> by (rewrite Ht in Ht2; by simplify_list_eq).
    exists (log1 ++ log2), answer, r.
    rewrite Ht2, Ht1, <- app_assoc, handshake_answers_app, Ha1.
    split; [done|]. split; [done|]. split; [done|].
    destruct answer as [sid|e]; [|done].
    destruct Hm as [?|(e & ? & Hin)]; [by left|right].
    exists e. split; [done|].
    replace (length (heap st) + S i) with (length (heap out1.2) + i) by lia.
    apply elem_of_app. by right.
Qed.

(** C4, amended: of any sequence of creates, each create makes one
    handshake.  If the handshake fails the create fails with its error.
    If it succeeds, with or without a session id from the server, the
    create fails only when its own tool discovery fails, and otherwise
    returns exactly the id the server issued, or the sentinel when it
    issued none (or an empty one).  A create that succeeds has therefore
    returned the id of its handshake or the sentinel; so two creates both
    return the sentinel when the server issued no id, and they return
    distinct ids whenever the server issued two distinct ids. *)
Theorem createSessions_ids env requests st i :
  let out := createSessions env requests st in
  let log := new_events st out.2 in
  i < length requests →
  ∃ answer r,
    handshake_answers log !! i = Some answer
    ∧ out.1 !! i = Some r
    ∧ (∀ e, answer = Throw e → r = Throw e)
    ∧ (∀ sid, answer = Ok sid →
         r = Ok (default "no-session" (truthy sid))
         ∨ ∃ e, r = Throw e
                ∧ EvListTools (length (heap st) + i) (Throw e) ∈ log)
    ∧ (∀ id, r = Ok id →
         ∃ sid, answer = Ok sid
                ∧ id = default "no-session" (truthy sid)
                ∧ (truthy sid = None → id = "no-session")
                ∧ (∀ a, truthy sid = Some a → id = a))
    ∧ (∀ j idi idj si sj,
         out.1 !! i = Some (Ok idi) → out.1 !! j = Some (Ok idj) →
         handshake_answers log !! i = Some (Ok si) →
         handshake_answers log !! j = Some (Ok sj) →
         (truthy si = None → truthy sj = None →
          idi = "no-session" ∧ idj = "no-session")
         ∧ (∀ a b, truthy si = Some a → truthy sj = Some b → a ≠ b →
                   idi ≠ idj)).
Proof.
  intros out log Hi.
  assert (∀ j id sid,
            out.1 !! j = Some (Ok id) →
            handshake_answers log !! j = Some (Ok sid) →
            id = default "no-session" (truthy sid)) as Hid.
  { intros j id sid Hr Ha.
    destruct (createSessions_outcomes env requests st j)
      as (log' & answer & r & Ht & Ha' & Hr' & Hm).
    { apply lookup_lt_Some in Hr. subst out.
      by rewrite createSessions_length in Hr. }
    fold out in Ht, Hr'. subst log.
    rewrite (new_events_app _ _ _ Ht) in Ha.
    assert (answer = Ok sid) as -> by congruence.
    assert (r = Ok id) as -> by congruence.
    by destruct Hm as [[= ->]|(e & ? & _)]. }
  destruct (createSessions_outcomes env requests st i Hi)
    as (log' & answer & r & Ht & Ha & Hr & Hm).
  fold out in Ht, Hr. subst log. rewrite (new_events_app _ _ _ Ht) in *.
  exists answer, r. split; [done|]. split; [done|].
  split; [by intros e ->|]. split; [by intros sid ->|]. split.
  - intros id ->. destruct answer as [sid|e]; [|done].
    exists sid. destruct Hm as [[= ->]|(e & ? & _)]; [|done].
    split; [done|]. split; [done|]. split; [by intros ->|by intros a ->].
  - intros j idi idj si sj Hri Hrj Hai Haj.
    rewrite (Hid i idi si Hri Hai), (Hid j idj sj Hrj Haj). split.
    + by intros -> ->.
    + intros a b -> ->. done.
Qed.

Lemma createSessions_ids_witness :
  (createSessions env_no_session_id [("tok", anthropic)] initial_state).1
    !! 0 = Some (Ok "no-session")
  ∧ let out := createSessions env_first_discovery_fails
                 [("tok0", anthropic); ("tok1", openai); ("tok2", ollama)]
                 initial_state in
    out.1 = [Throw error_500; Ok "s1"; Ok "s2"]
    ∧ EvListTools 0 (Throw error_500) ∈ new_events initial_state out.2.
Proof.
  split.
  - destruct (createSessions_ids env_no_session_id [("tok", anthropic)]
                initial_state 0)
      as (answer & r & Ha & Hr & _ & Hok & _); [simpl; lia|].
    vm_compute in Ha. injection Ha as <-.
    destruct (Hok None eq_refl) as [->|(e & -> & Hin)]; [exact Hr|].
    vm_compute in Hin. log_cases Hin.
  - cbv zeta.
    set (requests := [("tok0", anthropic); ("tok1", openai);
                      ("tok2", ollama)]).
    destruct (createSessions_ids env_first_discovery_fails requests
                initial_state 0)
      as (answer & r & Ha & Hr & _ & Hok & _); [simpl; lia|].
    vm_compute in Ha. injection Ha as <-.
    split; [vm_compute; reflexivity|].
    destruct (Hok (Some "s0") eq_refl) as [->|(e & -> & Hin)].
    + vm_compute in Hr. discriminate Hr.
    + vm_compute in Hr. injection Hr as <-. exact Hin.
Defined.

(** ** A model call that fails with a 404 *)

(** C10 fails on the code: if the first model call of a chat round throws
    an error whose status or code is 404, the handler takes the error of
    the model API for a session terminated by the tool server.  It answers
    404 with [requiresReconnect], removes the session from the registry,
    and closes the client, after sending the DELETE to the tool server
    when the client holds a session id, although no tool was called.  The
    history part of the claim holds: the history of the client is the
    former history with the user message pushed, and no other client
    changes. *)
Theorem model_404_removes_session env st sessionId session query e :
  query ≠ "" → sessionId ≠ "" →
  state_ok st →
  sessions st !! sessionId = Some session →
  let this := sd_mcpClient session in
  let c := heap st !!! this in
  let now := date_now env (trace st) in
  event_error (model_call_event env c (trace st ++ [EvDate now])
                 (c_conversationHistory c ++ [UserMessage query]))
  = Some e →
  is_404 e = true →
  let out := chatHandler env (Some query) (Some sessionId) st in
  out.1 = Ok {| status := 404;
                body := ErrorBody
                  "Session terminated by server. Please connect again."
                  (Some true) |}
  ∧ sessions out.2 = delete sessionId (sessions st)
  ∧ heap out.2 = <[this := append_history [UserMessage query] c]> (heap st)
  ∧ history_of out.2 this = history_of st this ++ [UserMessage query]
  ∧ count_log is_tool_call (new_events st out.2) = 0
  ∧ count_log (is_close this) (new_events st out.2) = 1
  ∧ (∀ sid, truthy (c_sessionId c) = Some sid → c_transport c = true →
       ∃ answer,
         EvFetchDelete sid (c_apiToken c) answer ∈ new_events st out.2).
Proof.
  intros Hq Hsid Hok Hs this c now He H404 out.
  destruct (proj1 Hok _ _ Hs) as [Hlt Hc]. fold this in Hlt, Hc.
  fold c in Hc.
  subst out. rewrite chatHandler_run, !truthy_Some, Hs by done. cbv zeta.
  fold this now c. rewrite (processQuery_initial_failure _ _ _ _ e); try done.
  cbn [fst snd self events]. rewrite H404. cbn [fst snd].
  split; [done|]. unfold history_of.
  rewrite removeSession_sessions, !removeSession_heap. cbn [sessions heap].
  split; [apply delete_insert_eq|]. split; [done|]. split.
  { by rewrite list_lookup_total_insert_eq. }
  rewrite removeSession_run. cbn [sessions]. rewrite lookup_insert_eq.
  cbv zeta. cbn [snd trace heap sd_mcpClient set_lastActivity]. fold this.
  rewrite list_lookup_total_insert_eq by done.
  set (call := model_call_event env c _ _) in *.
  set (t1 := ((trace st ++ [EvDate now]) ++ [call]) ++ [EvConsole LLog _]).
  set (request := termination_request env _ t1).
  set (closed := mcp_close env (t1 ++ request) this).
  assert (new_events st
            {| sessions := delete sessionId
                             (<[sessionId := set_lastActivity now session]>
                                (sessions st));
               heap := <[this := push_message (UserMessage query) c]>
                         (heap st);
               trace := (t1 ++ request)
                        ++ EvMcpClose this closed
                           :: match closed with
                              | Ok _ => []
                              | Throw e0 =>
                                  [EvConsole LError (err_message e0)]
                              end |}
          = [EvDate now; call; EvConsole LLog
               "Session terminated by MCP server (404)"]
            ++ request
            ++ EvMcpClose this closed
               :: match closed with
                  | Ok _ => []
                  | Throw e0 => [EvConsole LError (err_message e0)]
                  end) as ->.
  { apply new_events_app. cbn [trace]. unfold t1.
    by rewrite <- !app_assoc. }
  assert (is_tool_call call = false) as Hcall.
  { unfold call, model_call_event. by destruct (c_provider c). }
  assert (request = []
          ∨ ∃ sid answer level text,
              request = [EvFetchDelete sid (c_apiToken c) answer;
                         EvConsole level text]) as Hreq.
  { destruct (termination_request_cases env
                (push_message (UserMessage query) c) t1)
      as [H|(sid & answer & level & text & H & _)]; [by left|right].
    by exists sid, answer, level, text. }
  split; [|split].
  - rewrite !count_log_app, !count_log_cons, Hcall. cbn [is_tool_call].
    destruct Hreq as [->|(? & ? & ? & ? & ->)];
      destruct closed; by rewrite ?count_log_cons, ?count_log_nil.
  - rewrite !count_log_app, !count_log_cons.
    assert (is_close this call = false) as ->.
    { unfold call, model_call_event. by destruct (c_provider c). }
    cbn [is_close]. rewrite bool_decide_eq_true_2 by done.
    destruct Hreq as [->|(? & ? & ? & ? & ->)];
      destruct closed; by rewrite ?count_log_cons, ?count_log_nil.
  - intros sid Htruthy Htr.
    exists (fetch_delete env t1 sid (c_apiToken c)).
    apply elem_of_app. right. apply elem_of_app. left.
    unfold request, termination_request. cbn [push_message c_sessionId
      c_transport c_apiToken]. rewrite Htruthy, Htr.
    apply list_elem_of_here.
Qed.

Lemma model_404_removes_session_witness :
  let st := state_model_fails error_404 in
  let out := chatHandler (env_model_fails error_404) (Some "hello")
               (Some "session-a") st in
  is_Some (sessions st !! "session-a")
  ∧ EvAnthropicCreate [UserMessage "hello"]
      [AnthropicTool "search" "Search the catalogue" "{type:object}"]
      (Throw error_404) ∈ new_events st out.2
  ∧ out.1 = Ok {| status := 404;
                  body := ErrorBody
                    "Session terminated by server. Please connect again."
                    (Some true) |}
  ∧ sessions out.2 !! "session-a" = None
  ∧ history_of out.2 0 = [UserMessage "hello"]
  ∧ EvFetchDelete "session-a" "tok" (Ok 200%Z) ∈ new_events st out.2
  ∧ count_log (is_close 0) (new_events st out.2) = 1.
Proof.
  cbv zeta.
  set (env := env_model_fails error_404).
  set (st := state_model_fails error_404).
  assert (state_ok st) as Hok
    by (apply (bool_decide_unpack _); vm_compute; exact I).
  assert (sessions st !! "session-a"
          = Some {| sd_sessionId := "session-a"; sd_mcpClient := 0;
                    sd_createdAt := 3; sd_lastActivity := 5;
                    sd_provider := anthropic |}) as Hs
    by (vm_compute; reflexivity).
  destruct (model_404_removes_session env st "session-a" _ "hello" error_404
              ltac:(discriminate) ltac:(discriminate) Hok Hs)
    as (Hr & Hd & _ & Hh & _ & Hc & _).
  - vm_compute. reflexivity.
  - reflexivity.
  - split; [by eexists|]. split.
    { vm_compute. apply list_elem_of_further, list_elem_of_here. }
    split; [exact Hr|]. split; [rewrite Hd; apply lookup_delete_eq|].
    split; [simpl in Hh; rewrite Hh; vm_compute; reflexivity|].
    split; [|exact Hc].
    vm_compute. do 3 apply list_elem_of_further. apply list_elem_of_here.
Defined.

(** ** Two disconnects that overlap *)

(** The two parts are [removeSession] cut at its await. *)
Lemma removeSession_split env sessionId st :
  removeSession env sessionId st
  = bind (removeSession_lookup sessionId)
         (removeSession_resume env sessionId) st.
Proof.
  unfold removeSession, removeSession_lookup, removeSession_resume, bind,
    getSessions, ret. simpl.
  by destruct (sessions st !! sessionId).
Qed.

(** Without overlap, the parts make up the handler. *)
Lemma disconnect_split env sessionId st :
  sessionId ≠ "" →
  (disconnectHandler env (Some sessionId) st).2
  = (bind (disconnect_begin env sessionId)
          (removeSession_resume env sessionId) st).2.
Proof.
  intros Hne. rewrite disconnectHandler_run, (truthy_Some _ Hne).
  unfold disconnect_begin. rewrite !bind_run, getSession_run.
  destruct (sessions st !! sessionId) as [session|]; [|done].
  cbv zeta. cbn [fst snd]. rewrite removeSession_split, !bind_run.
  by destruct (removeSession_lookup sessionId _) as [[found|e] st1].
Qed.

Lemma removeSession_resume_run env sessionId session st :
  removeSession_resume env sessionId (Some session) st =
  let this := sd_mcpClient session in
  let t1 := trace st
            ++ termination_request env (heap st !!! this) (trace st) in
  let closed := mcp_close env t1 this in
  (Ok tt,
   {| sessions := delete sessionId (sessions st);
      heap := heap st;
      trace := t1 ++ EvMcpClose this closed
                  :: match closed with
                     | Ok _ => []
                     | Throw e => [EvConsole LError (err_message e)]
                     end |}).
Proof.
  unfold removeSession_resume, bind at 1.
  unfold try_catch, call. rewrite terminateSession_run. simpl.
  rewrite insert_lookup_total.
  destruct (mcp_close env _ _); simpl; [done|].
  unfold modifySessions, log_console. simpl. by rewrite <- app_assoc.
Qed.

Lemma disconnect_begin_run env sessionId session st :
  sessions st !! sessionId = Some session →
  disconnect_begin env sessionId st =
  let touched := set_lastActivity (date_now env (trace st)) session in
  (Ok (Some touched),
   {| sessions := <[sessionId := touched]> (sessions st);
      heap := heap st;
      trace := trace st ++ [EvDate (date_now env (trace st))] |}).
Proof.
  intros Hs. unfold disconnect_begin. rewrite bind_run, getSession_run, Hs.
  cbv zeta. unfold removeSession_lookup, bind, getSessions, ret. simpl.
  by rewrite lookup_insert_eq.
Qed.

Lemma closes_cons a ev log :
  closes a (ev :: log) = (if is_close a ev then 1 else 0) + closes a log.
Proof. apply count_log_cons. Qed.

Lemma closes_report a (closed : Outcome unit) :
  closes a match closed with
           | Ok _ => []
           | Throw e => [EvConsole LError (err_message e)]
           end = 0.
Proof. by destruct closed. Qed.

Ltac count_closes :=
  change (count_log (is_close ?a)) with (closes a);
  rewrite ?closes_app, ?closes_cons, ?closes_termination_request,
    ?closes_report;
  cbn [is_close]; rewrite ?bool_decide_eq_true_2 by done;
  unfold closes; rewrite ?count_log_nil; reflexivity.

(** Two disconnects of a registered session that overlap, the second
    looking the session up before the first has deleted it, both
    terminate it: its client is closed twice.  Handled one after the
    other, the second finds no session and the client is closed once. *)
Theorem overlapping_disconnects_close_twice env rs k session :
  let st := serve env rs initial_state in
  let this := sd_mcpClient session in
  let overlapped := overlapping_disconnects env k st in
  let in_turn :=
    serve env [PostDisconnect (Some k); PostDisconnect (Some k)] st in
  sessions st !! k = Some session →
  count_log (is_close this) (new_events st overlapped.2) = 2
  ∧ sessions overlapped.2 = delete k (sessions st)
  ∧ count_log (is_close this) (new_events st in_turn) = 1
  ∧ sessions in_turn = delete k (sessions st).
Proof.
  intros st this overlapped in_turn Hk.
  destruct (proj1 (registry_ok_serve env rs) k session Hk)
    as (_ & _ & c' & _ & _ & _ & Hd & _).
  assert (k ≠ "") as Hne by (rewrite <- Hd; apply default_truthy_nonempty).
  split; [|split; [|split]].
  - subst overlapped. unfold overlapping_disconnects.
    rewrite bind_run, (disconnect_begin_run _ _ _ _ Hk). cbv beta iota zeta.
    rewrite bind_run, (disconnect_begin_run _ _ (set_lastActivity _ session))
      by apply lookup_insert_eq.
    cbv beta iota zeta. rewrite bind_run, removeSession_resume_run.
    cbv beta iota zeta. rewrite removeSession_resume_run. cbv zeta.
    cbn [snd sessions heap trace sd_mcpClient set_lastActivity]. fold this.
    erewrite new_events_app; [|cbn [trace]; rewrite <- !app_assoc; done].
    count_closes.
  - subst overlapped. unfold overlapping_disconnects.
    rewrite bind_run, (disconnect_begin_run _ _ _ _ Hk). cbv beta iota zeta.
    rewrite bind_run, (disconnect_begin_run _ _ (set_lastActivity _ session))
      by apply lookup_insert_eq.
    cbv beta iota zeta. rewrite bind_run, removeSession_resume_run.
    cbv beta iota zeta. rewrite removeSession_resume_run. cbv zeta. cbn [snd sessions].
    by rewrite delete_delete_eq, !delete_insert_eq.
  - subst in_turn. cbn [serve handle].
    rewrite (disconnectHandler_run _ _ st), (truthy_Some _ Hne), Hk.
    cbv zeta. cbn [snd]. rewrite removeSession_run.
    cbn [sessions]. rewrite lookup_insert_eq. cbv zeta.
    cbn [snd sessions heap trace sd_mcpClient set_lastActivity]. fold this.
    rewrite disconnectHandler_run, (truthy_Some _ Hne). cbn [sessions].
    rewrite lookup_delete_eq. cbn [snd].
    erewrite new_events_app; [|cbn [trace]; rewrite <- !app_assoc; done].
    count_closes.
  - subst in_turn. cbn [serve handle].
    rewrite (disconnectHandler_run _ _ st), (truthy_Some _ Hne), Hk.
    cbv zeta. cbn [snd].
    rewrite disconnectHandler_run, (truthy_Some _ Hne).
    rewrite removeSession_sessions. cbn [sessions].
    rewrite lookup_delete_eq. cbn [snd].
    rewrite removeSession_sessions. cbn [sessions].
    apply delete_insert_eq.
Qed.

Lemma overlapping_disconnects_close_twice_witness :
  let st := serve env_one_tool [PostConnect (Some "Bearer tok") None]
              initial_state in
  is_Some (sessions st !! "session-a")
  ∧ count_log (is_close 0)
      (new_events st (overlapping_disconnects env_one_tool "session-a" st).2)
    = 2.
Proof.
  cbv zeta.
  set (st := serve env_one_tool _ initial_state).
  assert (is_Some (sessions st !! "session-a")) as [session Hs]
    by (vm_compute; eauto).
  assert (sd_mcpClient session = 0) as Ha.
  { vm_compute in Hs. by injection Hs as <-. }
  destruct (overlapping_disconnects_close_twice env_one_tool
              [PostConnect (Some "Bearer tok") None] "session-a" session Hs)
    as [H2 _].
  fold st in H2. rewrite Ha in H2.
  split; [by exists session|exact H2].
Defined.
